(** * Decision validation, position sizing and indicators of the OKX trading loop

    A shallow embedding of the algorithmic parts of the repository:
    - [src/services/aiService.ts] and its two sibling revisions (the source
      files [part_003] and [part_004]): the technical indicators and the
      post-processing of the reasoning service's answer (the "validator and
      sizer");
    - the server loop ([part_001]): a cycle of [runTradingLoop] with its
      two fetches, the call of the reasoning service and the dispatch of
      the validated decision to the exchange, the log and the two
      configuration endpoints;
    - the constants ([part_002]).

    ** Numbers

    The program computes with JavaScript numbers.  They are modelled by
    [number]: [NaN], the two infinities and the finite values, the latter as
    exact rationals.  Every operation follows the ECMAScript case table for
    [NaN], the infinities and division by zero.  What a double adds to this
    is not modelled: the rounding of each result, the overflow of a finite
    result to an infinity, the underflow to zero and the sign of zero;
    finite arithmetic is exact.

    ** Strings

    Strings are byte strings.  [parseFloat], [toUpperCase] and the number
    printers treat the ASCII range; other bytes are ordinary characters.
    [parseFloat] returns the exact value of the decimal text, and
    [toString] writes a number in positional notation. *)

From Stdlib Require Import QArith Qround Qabs ZArith List String Ascii Bool Lia Lqa.
From Stdlib Require Import DecimalString DecimalPos.
Import ListNotations.

Local Open Scope string_scope.

(* ------------------------------------------------------------------ *)
(** * JavaScript numbers *)

Module Js.

Inductive number : Type :=
| NaN : number
| Inf (neg : bool) : number
| Fin (q : Q) : number.

Definition Qltb (x y : Q) : bool := negb (Qle_bool y x).

Definition of_Z (z : Z) : number := Fin (inject_Z z).

Definition neg (a : number) : number :=
  match a with
  | NaN => NaN
  | Inf s => Inf (negb s)
  | Fin q => Fin (- q)
  end.

Definition add (a b : number) : number :=
  match a, b with
  | NaN, _ | _, NaN => NaN
  | Inf s, Inf t => if Bool.eqb s t then Inf s else NaN
  | Inf s, Fin _ | Fin _, Inf s => Inf s
  | Fin p, Fin q => Fin (p + q)
  end.

Definition sub (a b : number) : number := add a (neg b).

Definition mul (a b : number) : number :=
  match a, b with
  | NaN, _ | _, NaN => NaN
  | Inf s, Inf t => Inf (xorb s t)
  | Inf s, Fin q | Fin q, Inf s =>
      if Qeq_bool q 0 then NaN else Inf (xorb s (Qltb q 0))
  | Fin p, Fin q => Fin (p * q)
  end.

Definition div (a b : number) : number :=
  match a, b with
  | NaN, _ | _, NaN => NaN
  | Inf _, Inf _ => NaN
  | Inf s, Fin q => Inf (xorb s (Qltb q 0))
  | Fin _, Inf _ => Fin 0
  | Fin p, Fin q =>
      if Qeq_bool q 0
      then (if Qeq_bool p 0 then NaN else Inf (Qltb p 0))
      else Fin (p / q)
  end.

(** [a < b]; every comparison with [NaN] is false. *)
Definition lt (a b : number) : bool :=
  match a, b with
  | NaN, _ | _, NaN => false
  | Inf s, Inf t => s && negb t
  | Inf s, Fin _ => s
  | Fin _, Inf t => negb t
  | Fin p, Fin q => Qltb p q
  end.

(** [a <= b]. *)
Definition le (a b : number) : bool :=
  match a, b with
  | NaN, _ | _, NaN => false
  | Inf s, Inf t => s || negb t
  | Inf s, Fin _ => s
  | Fin _, Inf t => negb t
  | Fin p, Fin q => Qle_bool p q
  end.

Definition gt (a b : number) : bool := lt b a.
Definition ge (a b : number) : bool := le b a.

(** [a === b] on numbers. *)
Definition eqb (a b : number) : bool :=
  match a, b with
  | Inf s, Inf t => Bool.eqb s t
  | Fin p, Fin q => Qeq_bool p q
  | _, _ => false
  end.

Definition isNaN (a : number) : bool :=
  match a with NaN => true | _ => false end.

(** ToBoolean on a number: [NaN] and zero are falsy. *)
Definition truthy (a : number) : bool :=
  match a with
  | NaN => false
  | Inf _ => true
  | Fin q => negb (Qeq_bool q 0)
  end.

(** [a || b] on numbers. *)
Definition or_else (a b : number) : number := if truthy a then a else b.

Definition Math_min (a b : number) : number :=
  match a, b with
  | NaN, _ | _, NaN => NaN
  | _, _ => if lt b a then b else a
  end.

Definition Math_floor (a : number) : number :=
  match a with
  | Fin q => Fin (inject_Z (Qfloor q))
  | _ => a
  end.

(** [Math.pow(a, 2)]. *)
Definition sq (a : number) : number := mul a a.

(** Two numbers denote the same value. *)
Definition same (a b : number) : Prop :=
  match a, b with
  | NaN, NaN => True
  | Inf s, Inf t => s = t
  | Fin p, Fin q => p == q
  | _, _ => False
  end.

End Js.

Export Js.

Declare Scope js_scope.
Delimit Scope js_scope with js.
Bind Scope js_scope with number.
Infix "+" := Js.add : js_scope.
Infix "-" := Js.sub : js_scope.
Infix "*" := Js.mul : js_scope.
Infix "/" := Js.div : js_scope.
Infix "<?" := Js.lt : js_scope.
Infix "<=?" := Js.le : js_scope.
Infix ">?" := Js.gt : js_scope.
Infix ">=?" := Js.ge : js_scope.
Infix "===" := Js.eqb (at level 70) : js_scope.
Notation "a '||' b" := (Js.or_else a b) : js_scope.

(** Numeric literals of the source. *)
Definition num (z : Z) : number := Js.of_Z z.
Definition dec (n : Z) (d : positive) : number := Fin (n # d).

(* ------------------------------------------------------------------ *)
(** * Strings and the conversions between strings and numbers *)

Module Str.

Definition is_digit (c : ascii) : bool :=
  let n := nat_of_ascii c in (48 <=? n)%nat && (n <=? 57)%nat.

Definition digit_val (c : ascii) : Z := Z.of_nat (nat_of_ascii c) - 48.

(** The ASCII part of the WhiteSpace and LineTerminator productions. *)
Definition is_ws (c : ascii) : bool :=
  let n := nat_of_ascii c in
  ((9 <=? n)%nat && (n <=? 13)%nat) || (n =? 32)%nat.

Fixpoint trim_start (s : string) : string :=
  match s with
  | String c r => if is_ws c then trim_start r else s
  | EmptyString => s
  end.

(** Reads the longest run of decimal digits: the value accumulated on [acc],
    the number of digits added to [n], and the rest of the string. *)
Fixpoint read_digits (s : string) (acc : Z) (n : nat) : Z * nat * string :=
  match s with
  | String c r =>
      if is_digit c then read_digits r (10 * acc + digit_val c) (S n)
      else (acc, n, s)
  | EmptyString => (acc, n, s)
  end.

(** The value of the ExponentPart that starts [s], 0 when there is none
    (an [e] that no digit follows is not part of the literal). *)
Definition parse_exponent (s : string) : Z :=
  match s with
  | String c r =>
      if (Ascii.eqb c "e" || Ascii.eqb c "E")%bool then
        let '(sg, r') :=
          match r with
          | String "+" r1 => (false, r1)
          | String "-" r1 => (true, r1)
          | _ => (false, r)
          end in
        let '(v, n, _) := read_digits r' 0 0 in
        if (n =? 0)%nat then 0 else if sg then - v else v
      else 0
  | EmptyString => 0
  end%Z.

Definition pow10 (e : Z) : Q :=
  if (0 <=? e)%Z then inject_Z (10 ^ e) else 1 / inject_Z (10 ^ (- e)).

(** The longest prefix of [s] that is a StrUnsignedDecimalLiteral other than
    [Infinity]: digits, an optional fraction, an optional exponent; at least
    one digit in the mantissa. *)
Definition parse_unsigned (s : string) : option Q :=
  let '(i, ni, r1) := read_digits s 0 0 in
  let '(m, nf, r2) :=
    match r1 with
    | String "." r =>
        let '(m, n, r2) := read_digits r i ni in (m, (n - ni)%nat, r2)
    | _ => (i, 0%nat, r1)
    end in
  if (ni + nf =? 0)%nat then None
  else Some (inject_Z m / inject_Z (10 ^ Z.of_nat nf) * pow10 (parse_exponent r2))%Q.

(** [parseFloat] on a string. *)
Definition parseFloat (s : string) : number :=
  let t := trim_start s in
  let '(sg, body) :=
    match t with
    | String "+" r => (false, r)
    | String "-" r => (true, r)
    | _ => (false, t)
    end in
  if prefix "Infinity" body then Inf sg
  else match parse_unsigned body with
       | Some q => Fin (if sg then - q else q)
       | None => NaN
       end.

Definition string_of_Z (z : Z) : string := NilZero.string_of_int (Z.to_int z).

(** ASCII upper-casing. *)
Definition upper_ascii (c : ascii) : ascii :=
  let n := nat_of_ascii c in
  if ((97 <=? n)%nat && (n <=? 122)%nat)%bool then ascii_of_nat (n - 32) else c.

Fixpoint toUpperCase (s : string) : string :=
  match s with
  | String c r => String (upper_ascii c) (toUpperCase r)
  | EmptyString => EmptyString
  end.

(** [s] padded on the left with zeros to at least [w] characters. *)
Definition pad_left (w : nat) (s : string) : string :=
  string_of_list_ascii (repeat "0"%char (w - String.length s)) ++ s.

(** The first [k] digits of the decimal expansion of [r / d] for
    [0 <= r < d], stopping when the expansion ends. *)
Fixpoint frac_digits (k : nat) (r d : Z) : string :=
  match k with
  | O => EmptyString
  | S k' =>
      if (r =? 0)%Z then EmptyString
      else string_of_Z (10 * r / d) ++ frac_digits k' ((10 * r) mod d) d
  end.

(** Number::toString in radix 10, in positional notation.  The exponent
    notation that the language switches to at magnitudes of 1e21 and more or
    below 1e-6 is not modelled, and a fraction that does not end is cut
    after 20 digits. *)
Definition toString (a : number) : string :=
  match a with
  | NaN => "NaN"
  | Inf false => "Infinity"
  | Inf true => "-Infinity"
  | Fin q =>
      let m := Qabs q in
      let i := Qfloor m in
      let r := (Qnum m - i * Zpos (Qden m))%Z in
      (if Qltb q 0 then "-" else "") ++ string_of_Z i ++
      (if (r =? 0)%Z then "" else "." ++ frac_digits 20 r (Zpos (Qden m)))
  end.

(** Number.prototype.toFixed(2): the nearest multiple of 1/100, the larger
    one on a tie, printed with two decimals; the sign is that of the number
    before rounding. *)
Definition toFixed2 (a : number) : string :=
  match a with
  | Fin q =>
      let m := Qabs q in
      if Qle_bool (inject_Z (10 ^ 21)) m then toString a
      else
        let n := Qfloor (m * 100 + (1 # 2)) in
        (if Qltb q 0 then "-" else "") ++
        string_of_Z (n / 100) ++ "." ++ pad_left 2 (string_of_Z (n mod 100))
  | _ => toString a
  end.

End Str.

Export Str.

(* ------------------------------------------------------------------ *)
(** * Values of the parsed answer *)

(** A field of the JSON answer of the reasoning service, as the code reads
    it: absent, [null], a string or a number. *)
Inductive value : Type :=
| Undefined : value
| Null : value
| VStr (s : string) : value
| VNum (n : number) : value.

(** ToString, as applied by [parseFloat], by [toString()] and by [+=] with a
    string. *)
Definition ToString (v : value) : string :=
  match v with
  | Undefined => "undefined"
  | Null => "null"
  | VStr s => s
  | VNum n => toString n
  end.

(** [parseFloat(v)]. *)
Definition parseFloatV (v : value) : number := parseFloat (ToString v).

(** [v === s] for a string literal [s]. *)
Definition is_str (v : value) (s : string) : bool :=
  match v with
  | VStr t => String.eqb t s
  | _ => false
  end.

(** [v += s]. *)
Definition append (v : value) (s : string) : value := VStr (ToString v ++ s).

(** ToBoolean on a value, as [v || "0%"] applies it. *)
Definition truthyV (v : value) : bool :=
  match v with
  | Undefined | Null => false
  | VStr s => negb (String.eqb s "")
  | VNum n => truthy n
  end.

(** An array element in an arithmetic position: reading past the end gives
    [undefined], which arithmetic and comparisons turn into [NaN]. *)
Definition at_ (l : list number) (i : nat) : number := nth i l NaN.

(* ------------------------------------------------------------------ *)
(** * Constants (part_002) *)

Definition INSTRUMENT_ID : string := "ETH-USDT-SWAP".
Definition CONTRACT_VAL_ETH : number := dec 1 10.

Module Stage.
(** The fields of a strategy stage that the code reads; [risk_factor] is
    absent from [STAGE_3]. *)
Record t : Type := mk {
  name : string;
  leverage : number;
  risk_factor : option number
}.

(** An absent field in a product. *)
Definition risk (s : t) : number :=
  match risk_factor s with Some r => r | None => NaN end.
End Stage.

(** The table of the first constants file (leverage 20 / 10 / 5). *)
Module STRATEGY_STAGES.
Definition STAGE_1 : Stage.t :=
  Stage.mk "起步期 (稳健搏杀)" (num 20) (Some (dec 8 10)).
Definition STAGE_2 : Stage.t :=
  Stage.mk "滚仓期 (资金积累)" (num 10) (Some (dec 5 10)).
Definition STAGE_3 : Stage.t :=
  Stage.mk "稳健期 (模式转型)" (num 5) None.
End STRATEGY_STAGES.

(** The table of the second constants file (leverage 100 / 50 / 30). *)
Module STRATEGY_STAGES_HI.
Definition STAGE_1 : Stage.t :=
  Stage.mk "起步期 (高风险搏杀)" (num 100) (Some (dec 8 10)).
Definition STAGE_2 : Stage.t :=
  Stage.mk "滚仓期 (资金积累)" (num 50) (Some (dec 5 10)).
Definition STAGE_3 : Stage.t :=
  Stage.mk "稳健期 (模式转型)" (num 30) None.
End STRATEGY_STAGES_HI.

(** The stage selection of [getTradingDecision]. *)
Definition currentStageParams (totalEquity : number) : Stage.t :=
  if (totalEquity <? num 20)%js then STRATEGY_STAGES.STAGE_1
  else if (totalEquity <? num 80)%js then STRATEGY_STAGES.STAGE_2
  else STRATEGY_STAGES.STAGE_3.

(* ------------------------------------------------------------------ *)
(** * The decision object *)

Module TD.
(** [decision.trading_decision]. *)
Record t : Type := mk {
  action : value;
  confidence : value;
  position_size : value;
  leverage : value;
  profit_target : value;
  stop_loss : value;
  invalidation_condition : value
}.
End TD.

Module Decision.
(** [AIDecision]: the narrative fields, the nested [trading_decision]
    ([None] when the answer has no such object) and the three fields the
    validator writes. *)
Record t : Type := mk {
  stage_analysis : value;
  market_assessment : value;
  hot_events_overview : value;
  eth_analysis : value;
  trading_decision : option TD.t;
  reasoning : value;
  action : value;
  size : value;
  leverage : value
}.

Definition set_action (a : value) (d : t) : t :=
  mk (stage_analysis d) (market_assessment d) (hot_events_overview d)
     (eth_analysis d) (trading_decision d) (reasoning d) a (size d) (leverage d).
Definition set_size (z : value) (d : t) : t :=
  mk (stage_analysis d) (market_assessment d) (hot_events_overview d)
     (eth_analysis d) (trading_decision d) (reasoning d) (action d) z (leverage d).
Definition set_leverage (l : value) (d : t) : t :=
  mk (stage_analysis d) (market_assessment d) (hot_events_overview d)
     (eth_analysis d) (trading_decision d) (reasoning d) (action d) (size d) l.
Definition set_reasoning (r : value) (d : t) : t :=
  mk (stage_analysis d) (market_assessment d) (hot_events_overview d)
     (eth_analysis d) (trading_decision d) r (action d) (size d) (leverage d).
End Decision.

(** The object returned by the [catch] block of [getTradingDecision];
    [message] is the text of the error caught. *)
Definition errorDecision (message : string) : Decision.t :=
  Decision.mk (VStr "AI Error") (VStr "Unknown") (VStr "N/A") (VStr "N/A")
    (Some (TD.mk (VStr "hold") (VStr "0%") (VStr "0") (VStr "0") (VStr "0")
                 (VStr "0") (VStr "Error")))
    (VStr ("System Error: " ++ message))
    (VStr "HOLD") (VStr "0") (VStr "0").

(* ------------------------------------------------------------------ *)
(** * Technical indicators *)

(** The periods are the integer literals of the call sites (7, 14, 20, 50,
    12, 26, 9, 5, 10) and are natural numbers here. *)
Definition nnum (n : nat) : number := num (Z.of_nat n).

(** ToNumber of a value that may be [undefined]. *)
Definition toNum (o : option number) : number :=
  match o with Some a => a | None => NaN end.

(** [a === b] when either side may be [undefined]. *)
Definition strict_eq (a b : option number) : bool :=
  match a, b with
  | None, None => true
  | Some x, Some y => (x === y)%js
  | _, _ => false
  end.

(** [prices.slice(-n)]. *)
Definition slice_last {A : Type} (n : nat) (l : list A) : list A :=
  skipn (List.length l - n) l.

(** [calcEMA], the same in the three revisions.  The result is [None] where
    the function returns [undefined]. *)
Definition calcEMA (prices : list number) (period : nat) : option number :=
  if (List.length prices <? period)%nat then
    match prices with
    | [] => None
    | _ :: _ => nth_error prices (List.length prices - 1)
    end
  else
    let k := (num 2 / (nnum period + num 1))%js in
    match prices with
    | [] => None
    | p0 :: rest =>
        Some (fold_left (fun ema p => (p * k + ema * (num 1 - k))%js) rest p0)
    end.

Record MACD : Type := mkMACD { macd : number; signal : number; hist : number }.

(** [calcMACD] with the two window lengths as parameters: the named file
    slices the last 12 and 26 closes, the later revisions the last 24 and
    52. *)
Definition calcMACD_with (w12 w26 : nat) (prices : list number) : MACD :=
  let shortPeriod := 12%nat in
  let longPeriod := 26%nat in
  if (List.length prices <? longPeriod)%nat then mkMACD (num 0) (num 0) (num 0)
  else
    let ema12 := toNum (calcEMA (slice_last w12 prices) shortPeriod) in
    let ema26 := toNum (calcEMA (slice_last w26 prices) longPeriod) in
    let macdLine := (ema12 - ema26)%js in
    let signalLine := (macdLine * dec 8 10)%js in
    mkMACD macdLine signalLine (macdLine - signalLine)%js.

(** The first loop of [calcRSI]: the sums of the gains and of the losses of
    the deltas 1 .. period. *)
Definition rsi_sums (prices : list number) (period : nat) : number * number :=
  fold_left
    (fun '(gains, losses) i =>
       let change := (at_ prices i - at_ prices (i - 1))%js in
       if (change >? num 0)%js then ((gains + change)%js, losses)
       else (gains, (losses - change)%js))
    (seq 1 period) (num 0, num 0).

(** The smoothing loop of the later revisions, over the indices
    period + 1 .. length - 1. *)
Definition rsi_smooth (prices : list number) (period : nat)
    (avg : number * number) : number * number :=
  fold_left
    (fun '(avgGain, avgLoss) i =>
       let change := (at_ prices i - at_ prices (i - 1))%js in
       let gain := if (change >? num 0)%js then change else num 0 in
       let loss := if (change <? num 0)%js then neg change else num 0 in
       (((avgGain * (nnum period - num 1) + gain) / nnum period)%js,
        ((avgLoss * (nnum period - num 1) + loss) / nnum period)%js))
    (seq (period + 1) (List.length prices - (period + 1))) avg.

(** The last three statements of [calcRSI]. *)
Definition rsi_result (avg : number * number) : number :=
  let '(avgGain, avgLoss) := avg in
  if (avgLoss === num 0)%js then num 100
  else
    let rs := (avgGain / avgLoss)%js in
    (num 100 - num 100 / (num 1 + rs))%js.

Definition calcSMA (data : list number) (period : nat) : number :=
  if (List.length data <? period)%nat then num 0
  else
    let slice := skipn (List.length data - period) data in
    let sum := fold_left Js.add slice (num 0) in
    (sum / nnum period)%js.

Record Bollinger : Type := mkBollinger { upper : number; mid : number; lower : number }.
Record KDJ : Type := mkKDJ { k : number; d : number; j : number }.

Section Sqrt.

(** [Math.sqrt], which has no rational model, is a parameter. *)
Variable Math_sqrt : number -> number.

Definition calcStdDev (data : list number) (period : nat) : number :=
  if (List.length data <? period)%nat then num 0
  else
    let sma := calcSMA data period in
    let slice := skipn (List.length data - period) data in
    let squaredDiffs := map (fun x => sq (x - sma)%js) slice in
    let avgSquaredDiff := (fold_left Js.add squaredDiffs (num 0) / nnum period)%js in
    Math_sqrt avgSquaredDiff.

Definition calcBollinger (prices : list number) (period : nat)
    (multiplier : number) : Bollinger :=
  let mid := calcSMA prices period in
  let std := calcStdDev prices period in
  mkBollinger (mid + multiplier * std)%js mid (mid - multiplier * std)%js.

End Sqrt.

(** The inner loop of [calcKDJ] at index [i]: the lowest low and the highest
    high of the trailing window. *)
Definition kdj_window (highs lows : list number) (period i : nat)
  : option number * option number :=
  fold_left
    (fun '(localLow, localHigh) x =>
       let lo := nth_error lows (i - x) in
       let hi := nth_error highs (i - x) in
       (if (toNum lo <? toNum localLow)%js then lo else localLow,
        if (toNum hi >? toNum localHigh)%js then hi else localHigh))
    (seq 0 period) (nth_error lows i, nth_error highs i).

Definition calcKDJ (highs lows closes : list number) (period : nat) : KDJ :=
  fold_left
    (fun st i =>
       if (i + 1 <? period)%nat then st
       else
         let '(localLow, localHigh) := kdj_window highs lows period i in
         let rsv :=
           if strict_eq localHigh localLow then num 50
           else ((at_ closes i - toNum localLow)
                 / (toNum localHigh - toNum localLow) * num 100)%js in
         let k' := (num 2 / num 3 * k st + num 1 / num 3 * rsv)%js in
         let d' := (num 2 / num 3 * d st + num 1 / num 3 * k')%js in
         mkKDJ k' d' (num 3 * k' - num 2 * d')%js)
    (seq 0 (List.length closes)) (mkKDJ (num 50) (num 50) (num 50)).

(** [volRatio] of [getTradingDecision]. *)
Definition volRatio (volumes : list number) : number :=
  let vma5 := calcSMA volumes 5 in
  if (vma5 >? num 0)%js then (at_ volumes (List.length volumes - 1) / vma5)%js
  else num 1.

(* ------------------------------------------------------------------ *)
(** * The validator and sizer (post-processing of [getTradingDecision]) *)

Definition MIN_OPEN_VALUE : number := num 100.

(** The local variables of the sizing computation, [finalMargin] and
    [positionValue] with their values after the rescue; [rescued] tells
    whether the rescue assigned them. *)
Record Sizing : Type := mkSizing {
  leverage : number;
  confidence : number;
  safeLeverage : number;
  targetMargin : number;
  maxSafeMargin : number;
  finalMargin : number;
  positionValue : number;
  rescued : bool
}.

Section Validator.

(** What differs between the three revisions of the file: the safety factor
    of [maxSafeMargin], the note appended when the position value is too
    small, and the note (if any) appended when the contract count is. *)
Variable SAFETY : number.
Variable note_small : number -> string.
Variable note_micro : option string.

Definition sizing (stage : Stage.t) (availableEquity : number) (td : TD.t)
  : Sizing :=
  let leverage := parseFloatV (TD.leverage td) in
  let confidence := (parseFloatV (TD.confidence td) || num 50)%js in
  let safeLeverage := if isNaN leverage then Stage.leverage stage else leverage in
  let targetMargin :=
    (availableEquity * Stage.risk stage * (confidence / num 100))%js in
  let maxSafeMargin := (availableEquity * SAFETY)%js in
  let finalMargin := Math_min targetMargin maxSafeMargin in
  let positionValue := (finalMargin * safeLeverage)%js in
  let rescue :=
    ((positionValue <? MIN_OPEN_VALUE)%js
     && (availableEquity * dec 9 10 * safeLeverage >? MIN_OPEN_VALUE)%js
     && (confidence >=? num 40)%js)%bool in
  mkSizing leverage confidence safeLeverage targetMargin maxSafeMargin
    (if rescue then (MIN_OPEN_VALUE / safeLeverage)%js else finalMargin)
    (if rescue then MIN_OPEN_VALUE else positionValue)
    rescue.

(** [numContracts]. *)
Definition numContracts (positionValue currentPrice : number) : number :=
  let numContractsRaw := (positionValue / (CONTRACT_VAL_ETH * currentPrice))%js in
  (Math_floor (numContractsRaw * num 100) / num 100)%js.

(** The statements between the JSON parse and [return decision].  [None]
    stands for the TypeError raised when [trading_decision] is not an object
    or its [action] is not a string. *)
Definition postProcess (stage : Stage.t) (availableEquity currentPrice : number)
    (decision : Decision.t) : option Decision.t :=
  match Decision.trading_decision decision with
  | None => None
  | Some td =>
      match TD.action td with
      | VStr tok =>
          let decision := Decision.set_action (VStr (toUpperCase tok)) decision in
          let sz := sizing stage availableEquity td in
          if (is_str (Decision.action decision) "BUY"
              || is_str (Decision.action decision) "SELL")%bool then
            if (positionValue sz <? MIN_OPEN_VALUE)%js then
              Some (Decision.set_reasoning
                      (append (Decision.reasoning decision)
                              (note_small (positionValue sz)))
                      (Decision.set_size (VStr "0")
                         (Decision.set_action (VStr "HOLD") decision)))
            else
              let n := numContracts (positionValue sz) currentPrice in
              if (n <? dec 1 100)%js then
                let decision :=
                  Decision.set_size (VStr "0")
                    (Decision.set_action (VStr "HOLD") decision) in
                Some match note_micro with
                     | Some note =>
                         Decision.set_reasoning
                           (append (Decision.reasoning decision) note) decision
                     | None => decision
                     end
              else
                Some (Decision.set_leverage (VStr (toString (safeLeverage sz)))
                        (Decision.set_size (VStr (toFixed2 n)) decision))
          else
            Some (Decision.set_leverage (VStr (toString (safeLeverage sz)))
                    (Decision.set_size (VStr "0") decision))
      | _ => None
      end
  end.

(** The [try] ... [catch] around the post-processing. *)
Definition validate (message : string) (stage : Stage.t)
    (availableEquity currentPrice : number) (decision : Decision.t)
  : Decision.t :=
  match postProcess stage availableEquity currentPrice decision with
  | Some d => d
  | None => errorDecision message
  end.

End Validator.

(** [src/services/aiService.ts]. *)
Module AiService.
Definition calcRSI (prices : list number) (period : nat) : number :=
  if (List.length prices <? period + 1)%nat then num 50
  else
    let '(gains, losses) := rsi_sums prices period in
    rsi_result ((gains / nnum period)%js, (losses / nnum period)%js).
Definition calcMACD : list number -> MACD := calcMACD_with 12 26.
Definition SAFETY : number := dec 90 100.
Definition note_small (positionValue : number) : string :=
  " [系统修正: 仓位价值 " ++ toFixed2 positionValue ++
  "U 过小，不足以支付手续费或满足交易所限制，已取消]".
Definition note_micro : option string :=
  Some " [系统修正: 合约数量不足 0.01 张]".
Definition sizing := sizing SAFETY.
Definition postProcess := postProcess SAFETY note_small note_micro.
Definition validate := validate SAFETY note_small note_micro.
End AiService.

(** The revision [part_003] (safety factor 0.95). *)
Module Part003.
Definition calcRSI (prices : list number) (period : nat) : number :=
  if (List.length prices <? period + 1)%nat then num 50
  else
    let '(gains, losses) := rsi_sums prices period in
    rsi_result
      (rsi_smooth prices period
         ((gains / nnum period)%js, (losses / nnum period)%js)).
Definition calcMACD : list number -> MACD := calcMACD_with 24 52.
Definition SAFETY : number := dec 95 100.
Definition note_small (_ : number) : string :=
  " [系统修正: 资金不足以满足最小开仓门槛]".
Definition note_micro : option string := None.
Definition sizing := sizing SAFETY.
Definition postProcess := postProcess SAFETY note_small note_micro.
Definition validate := validate SAFETY note_small note_micro.
End Part003.

(** The revision [part_004] (safety factor 0.90). *)
Module Part004.
Definition calcRSI : list number -> nat -> number := Part003.calcRSI.
Definition calcMACD : list number -> MACD := calcMACD_with 24 52.
Definition SAFETY : number := dec 90 100.
Definition note_small (_ : number) : string :=
  " [系统修正: 资金不足以满足最小开仓门槛]".
Definition note_micro : option string := None.
Definition sizing := sizing SAFETY.
Definition postProcess := postProcess SAFETY note_small note_micro.
Definition validate := validate SAFETY note_small note_micro.
End Part004.

(* ------------------------------------------------------------------ *)
(** * The execution loop (part_001) *)

Module Server.

(** The fields of an open position that the loop reads. *)
Record Position : Type := mkPosition {
  instId : string;
  posSide : string;
  pos : string;
  upl : string;
  uplRatio : string
}.

(** The calls to the exchange service, which is not part of the sources
    modelled here: the loop is parameterised by its replies. *)
Inductive ExchangeCall : Type :=
| updatePositionTPSL (instId posSide pos : string) (sl tp : option string)
| executeOrder (decision : Decision.t)
| addMargin (instId posSide type amt : string).

(** A call resolves with a result carrying [msg] or throws an error
    carrying [message]. *)
Inductive Reply : Type :=
| Resolved (msg : string)
| Thrown (message : string).

Inductive LogType : Type := INFO | ERROR | WARNING | SUCCESS | TRADE.

(** What the loop does, in order: calls to the exchange and log entries. *)
Inductive Event : Type :=
| Call (c : ExchangeCall)
| addLog (type : LogType) (message : string).

Fixpoint calls (evs : list Event) : list ExchangeCall :=
  match evs with
  | [] => []
  | Call c :: r => c :: calls r
  | addLog _ _ :: r => calls r
  end.

Fixpoint logs (evs : list Event) : list (LogType * string) :=
  match evs with
  | [] => []
  | Call _ :: r => logs r
  | addLog t m :: r => (t, m) :: logs r
  end.

(** The local function [isValid] of the [UPDATE_TPSL] branch. *)
Definition isValid (p : value) : bool :=
  match p with
  | Undefined | Null => false
  | VStr EmptyString => false
  | _ =>
      let val := parseFloat (ToString p) in
      negb (isNaN val) && (val >? num 0)%js
  end.

Section Loop.

Variable exchange : ExchangeCall -> Reply.

(** The text of the TypeError caught by the outer handler. *)
Variable typeError : string.

(** The [UPDATE_TPSL] branch, for a position that exists.  [None] is the
    TypeError of reading a field of an absent [trading_decision]. *)
Definition updateTPSL (decision : Decision.t) (primaryPosition : Position)
  : option (list Event) :=
  match Decision.trading_decision decision with
  | None => None
  | Some td =>
      let newSL := TD.stop_loss td in
      let newTP := TD.profit_target td in
      if (isValid newSL || isValid newTP)%bool then
        if String.eqb (posSide primaryPosition) "net" then
          Some [addLog WARNING "单向持仓模式不支持自动更新止损/止盈"]
        else
          let c :=
            updatePositionTPSL INSTRUMENT_ID (posSide primaryPosition)
              (pos primaryPosition)
              (if isValid newSL then Some (ToString newSL) else None)
              (if isValid newTP then Some (ToString newTP) else None) in
          Some (Call c ::
                match exchange c with
                | Resolved msg => [addLog SUCCESS ("云端止损更新: " ++ msg)]
                | Thrown message => [addLog ERROR ("更新止损失败: " ++ message)]
                end)
      else Some []
  end.

(** The "Rolling Logic" block. *)
Definition rolling (decision : Decision.t) (primaryPosition : option Position)
  : list Event :=
  match primaryPosition with
  | Some p =>
      if is_str (Decision.action decision) "HOLD" then
        let uplRatio := (parseFloat (uplRatio p) * num 100)%js in
        if (uplRatio >=? num 50)%js then
          let c :=
            addMargin INSTRUMENT_ID (posSide p) "add"
              (toFixed2 (parseFloat (upl p) * dec 5 10)%js) in
          addLog SUCCESS ("触发自动滚仓: 收益率 " ++ toFixed2 uplRatio ++ "%") ::
          Call c ::
          match exchange c with
          | Resolved _ => [addLog TRADE "滚仓成功"]
          | Thrown message => [addLog ERROR ("滚仓失败: " ++ message)]
          end
        else []
      else []
  | None => []
  end.

(** The body of the loop from "Execute Actions" to the end of the handler,
    for the decision returned by the validator and the positions of the
    account.  The log entry of the decision, which comes before it in the
    same [try], is part of [afterDecision] below, and the two fetches of a
    cycle are part of [runTradingLoop]. *)
Definition executeActions (decision : Decision.t) (positions : list Position)
  : list Event :=
  let primaryPosition :=
    find (fun p => String.eqb (instId p) INSTRUMENT_ID) positions in
  let executed : option (list Event) :=
    if is_str (Decision.action decision) "UPDATE_TPSL" then
      match primaryPosition with
      | Some p => updateTPSL decision p
      | None => Some []
      end
    else if negb (is_str (Decision.action decision) "HOLD") then
      let c := executeOrder decision in
      Some (Call c ::
            match exchange c with
            | Resolved msg =>
                [addLog TRADE
                   ("执行订单: " ++ ToString (Decision.action decision) ++ " "
                    ++ ToString (Decision.size decision) ++ " 张. 结果: " ++ msg)]
            | Thrown message => [addLog ERROR ("订单执行失败: " ++ message)]
            end)
    else Some [] in
  match executed with
  | Some evs => evs ++ rolling decision primaryPosition
  | None => [addLog ERROR ("策略执行异常: " ++ typeError)]
  end.

End Loop.

(** The fields of [accountData] that the loop reads. *)
Record AccountContext : Type := mkAccount { positions : list Position }.

(** How an [await] ends: with a value, or with an error carrying
    [message]. *)
Inductive Await (A : Type) : Type :=
| Returned (a : A)
| Threw (message : string).
Arguments Returned {A} a.
Arguments Threw {A} message.

(** What one cycle of the loop does, in order: the two fetches of the
    exchange service, the call of the reasoning service, and the events of
    the handler. *)
Inductive Step : Type :=
| FetchMarketData : Step
| FetchAccountData : Step
| GetTradingDecision : Step
| Do (e : Event) : Step.

(** The steps of a cycle that leave the process: everything but the log
    entries. *)
Fixpoint outward (steps : list Step) : list Step :=
  match steps with
  | [] => []
  | Do (addLog _ _) :: r => outward r
  | x :: r => x :: outward r
  end.

(** The log entries among the steps of a cycle. *)
Fixpoint logged (steps : list Step) : list (LogType * string) :=
  match steps with
  | [] => []
  | Do (addLog t m) :: r => (t, m) :: logged r
  | _ :: r => logged r
  end.

Section Cycle.

Variable exchange : ExchangeCall -> Reply.

(** The text of the TypeError of reading a field of an absent
    [trading_decision], and that of calling [substring] on a
    [stage_analysis] that is not a string. *)
Variable typeError : string.
Variable substringError : value -> string.

(** [s.substring(0, 10)] counts UTF-16 code units, which a byte string does
    not record: the function is a parameter. *)
Variable substring_0_10 : string -> string.

(** The message of the log entry that announces the decision. *)
Definition decisionLog (decision : Decision.t) (stage_analysis : string) : string :=
  let conf :=
    match Decision.trading_decision decision with
    | Some td => if truthyV (TD.confidence td) then TD.confidence td else VStr "0%"
    | None => VStr "0%"
    end in
  "[" ++ substring_0_10 stage_analysis ++ "..] 决策: "
  ++ ToString (Decision.action decision) ++ " (置信度 " ++ ToString conf ++ ")".

(** The handler from the return of [getTradingDecision] to its end, with
    its [catch]: the log entry of the decision, whose message throws when
    [stage_analysis] is not a string, then the dispatch. *)
Definition afterDecision (decision : Decision.t) (positions : list Position)
  : list Event :=
  match Decision.stage_analysis decision with
  | VStr s =>
      addLog INFO (decisionLog decision s)
      :: executeActions exchange typeError decision positions
  | v => [addLog ERROR ("策略执行异常: " ++ substringError v)]
  end.

(** The data that the loop passes on without reading it. *)
Variable MarketDataCollection : Type.

(** The replies of the two fetches ([None] is a reply that is not an
    object) and of the reasoning service. *)
Variable fetchMarketData : Await (option MarketDataCollection).
Variable fetchAccountData : Await (option AccountContext).
Variable getTradingDecision :
  MarketDataCollection -> AccountContext -> Await Decision.t.

(** One call of [runTradingLoop] together with the handler that it
    schedules: the steps taken and the new value of [lastAnalysisTime].
    [isRunning] is read as it is when the cycle starts. *)
Definition runTradingLoop (isRunning : bool) (now lastAnalysisTime : Z)
  : list Step * Z :=
  let failed message :=
    if isRunning then [Do (addLog ERROR ("数据同步失败: " ++ message))] else [] in
  match fetchMarketData with
  | Threw message => (FetchMarketData :: failed message, lastAnalysisTime)
  | Returned marketData =>
      match fetchAccountData with
      | Threw message =>
          (FetchMarketData :: FetchAccountData :: failed message, lastAnalysisTime)
      | Returned accountData =>
          let fetched := [FetchMarketData; FetchAccountData] in
          if negb isRunning then (fetched, lastAnalysisTime)
          else if (now - lastAnalysisTime <? 15000)%Z then (fetched, lastAnalysisTime)
          else
            let handler :=
              Do (addLog INFO "正在调用云端战神引擎 (超短线模式)...") ::
              match marketData, accountData with
              | Some marketData, Some accountData =>
                  GetTradingDecision ::
                  match getTradingDecision marketData accountData with
                  | Returned decision =>
                      map Do (afterDecision decision (positions accountData))
                  | Threw message =>
                      [Do (addLog ERROR ("策略执行异常: " ++ message))]
                  end
              | _, _ => []
              end in
            ((fetched ++ handler)%list, now)
      end
  end.

End Cycle.

End Server.

(* ------------------------------------------------------------------ *)
(** * Vocabulary of the statements *)

(** The action of a decision is an opening order. *)
Definition opens (decision : Decision.t) : bool :=
  (is_str (Decision.action decision) "BUY"
   || is_str (Decision.action decision) "SELL")%bool.

(** The upper-cased token is an opening order. *)
Definition is_order (token : string) : bool :=
  (String.eqb token "BUY" || String.eqb token "SELL")%bool.

(** The actions that the answer schema lists. *)
Definition recognized (token : string) : bool :=
  existsb (String.eqb token) ["BUY"; "SELL"; "HOLD"; "CLOSE"; "UPDATE_TPSL"].

(** A number that does not compare below zero: a finite value that is not
    negative, [+Infinity], or [NaN]. *)
Definition not_negative (a : number) : Prop := (a <? num 0)%js = false.

(** Notional value of an order: contract quantity x contract multiplier x
    price. *)
Definition notional (quantity price : number) : number :=
  (quantity * CONTRACT_VAL_ETH * price)%js.

(* ------------------------------------------------------------------ *)
(** * The reference RSI of the specification *)

(** This definition follows the words of the specification, not the code:
    it works on the list of deltas between consecutive closes, averages the
    gains and the losses of the first [period] deltas, and folds Wilder's
    smoothing over the remaining ones. *)
Module Reference.

Fixpoint deltas_from (prev : number) (closes : list number) : list number :=
  match closes with
  | [] => []
  | c :: rest => (c - prev)%js :: deltas_from c rest
  end.

Definition deltas (closes : list number) : list number :=
  match closes with
  | [] => []
  | c :: rest => deltas_from c rest
  end.

Definition gain (delta : number) : number :=
  if (delta >? num 0)%js then delta else num 0.

Definition loss (delta : number) : number :=
  if (delta <? num 0)%js then neg delta else num 0.

(** The sums of the gains and of the losses: a delta above zero adds to the
    gains, any other delta is taken off the losses. *)
Definition tally (sums : number * number) (delta : number) : number * number :=
  let '(gains, losses) := sums in
  if (delta >? num 0)%js then ((gains + delta)%js, losses)
  else (gains, (losses - delta)%js).

Definition wilder (period : nat) (avg : number * number) (delta : number)
  : number * number :=
  let '(avgGain, avgLoss) := avg in
  (((avgGain * (nnum period - num 1) + gain delta) / nnum period)%js,
   ((avgLoss * (nnum period - num 1) + loss delta) / nnum period)%js).

Definition RSI (closes : list number) (period : nat) : number :=
  if (List.length closes <? period + 1)%nat then num 50
  else
    let ds := deltas closes in
    let '(gains, losses) := fold_left tally (firstn period ds) (num 0, num 0) in
    let first := ((gains / nnum period)%js, (losses / nnum period)%js) in
    let '(avgGain, avgLoss) := fold_left (wilder period) (skipn period ds) first in
    if (avgLoss === num 0)%js then num 100
    else (num 100 - num 100 / (num 1 + avgGain / avgLoss))%js.

End Reference.

(* ------------------------------------------------------------------ *)
(** * Sample inputs *)

Module Sample.

(** An answer of the reasoning service with the given action token,
    confidence, leverage, profit target and stop loss. *)
Definition td (action confidence leverage tp sl : value) : TD.t :=
  TD.mk action confidence (VStr "动态计算") leverage tp sl (VStr "...").

Definition decision (t : TD.t) : Decision.t :=
  Decision.mk (VStr "stage") (VStr "market") (VStr "events") (VStr "eth")
    (Some t) (VStr "why") Undefined Undefined Undefined.

Definition order (action confidence leverage : string) : Decision.t :=
  decision (td (VStr action) (VStr confidence) (VStr leverage)
               (VStr "3100") (VStr "2900")).

Definition tpsl (tp sl : value) : Decision.t :=
  Decision.set_action (VStr "UPDATE_TPSL")
    (decision (td (VStr "UPDATE_TPSL") (VStr "80%") (VStr "20") tp sl)).

Definition position (posSide : string) : Server.Position :=
  Server.mkPosition INSTRUMENT_ID posSide "3" "1.2" "0.1".

(** An exchange that accepts every call. *)
Definition accept (c : Server.ExchangeCall) : Server.Reply :=
  Server.Resolved "ok".

(** Eight rising closes followed by a falling one. *)
Definition closes : list number := map num [1; 2; 3; 4; 5; 6; 7; 8; 7]%Z.

End Sample.

(* ------------------------------------------------------------------ *)
(** * The log, the configuration and the signals of the prompt *)

Module Logs.

(** The list update of [addLog] (part_001): the entry is pushed and the
    list cut to its last 200 entries.  The entry itself (identifier, time,
    type and message) is built by the caller. *)
Definition addLog {A : Type} (logs : list A) (log : A) : list A :=
  let logs := (logs ++ [log])%list in
  if (200 <? List.length logs)%nat then slice_last 200 logs else logs.

End Logs.

Module Config.

(** A field of the configuration object or of the body posted to
    [/api/config]: absent, or a JSON value. *)
Inductive field : Type :=
| Absent : field
| FNull : field
| FBool (b : bool) : field
| FStr (s : string) : field
| FNum (n : number) : field.

(** The keys of [DEFAULT_CONFIG].  Other keys that a body may carry are
    copied along by the spread and read by nothing; they are left out. *)
Record t : Type := mk {
  okxApiKey : field;
  okxSecretKey : field;
  okxPassphrase : field;
  deepseekApiKey : field;
  isSimulation : field
}.






End Config.

Module Prompt.

(** The derived figures and the signal texts that [getTradingDecision]
    (part_003, part_004) writes into the prompt. *)
Definition dailyChange (currentPrice open24h : number) : number :=
  if (open24h >? num 0)%js
  then ((currentPrice - open24h) / open24h * num 100)%js
  else num 0.

Definition turnoverRate (vol24h openInterest currentPrice : number) : number :=
  let oiValue := (openInterest * CONTRACT_VAL_ETH * currentPrice)%js in
  if (oiValue >? num 0)%js then (vol24h / oiValue * num 100)%js else num 0.

Definition macdSignalStr (macdData : MACD) : string :=
  if (hist macdData >? num 0)%js then "多头趋势 (MACD > Signal)"
  else "空头趋势 (MACD < Signal)".

Definition bollPosStr (currentPrice : number) (boll : Bollinger) : string :=
  if (currentPrice >? upper boll)%js then "突破上轨 (超买/强势)"
  else if (currentPrice <? lower boll)%js then "跌破下轨 (超卖/弱势)"
  else if (currentPrice >? mid boll)%js then "中轨上方 (偏多)"
  else "中轨下方 (偏空)".

Definition kdjSignalStr (kdj : KDJ) : string :=
  if ((k kdj >? num 80)%js && (d kdj >? num 80)%js)%bool then "超买 (死叉预警)"
  else if ((k kdj <? num 20)%js && (d kdj <? num 20)%js)%bool then "超卖 (金叉预警)"
  else if (k kdj >? d kdj)%js then "金叉向上"
  else "死叉向下".

End Prompt.

(** In a series of rationals, no element is below the one before it. *)
Fixpoint never_falls (l : list Q) : Prop :=
  match l with
  | a :: (b :: _) as r => a <= b /\ never_falls r
  | _ => True
  end.

(** The candles of the exchange as triples (high, low, close) and the three
    arrays that [getTradingDecision] maps them to. *)
Definition highs_of (candles : list (Q * Q * Q)) : list number :=
  map (fun c => Fin (fst (fst c))) candles.
Definition lows_of (candles : list (Q * Q * Q)) : list number :=
  map (fun c => Fin (snd (fst c))) candles.
Definition closes_of (candles : list (Q * Q * Q)) : list number :=
  map (fun c => Fin (snd c)) candles.

(** A square root to six decimals, to run the indicators that call
    [Math.sqrt]. *)
Definition sqrt6 (a : number) : number :=
  match a with
  | Fin q => Fin (inject_Z (Z.sqrt (Qfloor (q * inject_Z (10 ^ 12)))) / inject_Z (10 ^ 6))
  | Inf false => Inf false
  | _ => NaN
  end.

(* ------------------------------------------------------------------ *)
(** * Facts about numbers *)

Lemma Qltb_true (x y : Q) : Qltb x y = true <-> x < y.
Proof.
  unfold Qltb. rewrite negb_true_iff, <- not_true_iff_false, Qle_bool_iff.
  split; [apply Qnot_le_lt | apply Qlt_not_le].
Qed.

Lemma Qltb_false (x y : Q) : Qltb x y = false <-> y <= x.
Proof.
  unfold Qltb. rewrite negb_false_iff. apply Qle_bool_iff.
Qed.

Lemma Qeq_bool_false (x y : Q) : Qeq_bool x y = false <-> ~ x == y.
Proof.
  rewrite <- not_true_iff_false, Qeq_bool_iff. tauto.
Qed.

Lemma lt_NaN_l (a : number) : (NaN <? a)%js = false.
Proof. reflexivity. Qed.

Lemma lt_NaN_r (a : number) : (a <? NaN)%js = false.
Proof. destruct a; reflexivity. Qed.

Lemma lt_Fin (p q : Q) : (Fin p <? Fin q)%js = true <-> p < q.
Proof. apply Qltb_true. Qed.

Lemma lt_Fin_false (p q : Q) : (Fin p <? Fin q)%js = false <-> q <= p.
Proof. apply Qltb_false. Qed.

Lemma or_else_truthy (a b : number) : truthy (a || b)%js = truthy a || truthy b.
Proof. unfold or_else. destruct (truthy a) eqn:E; simpl; auto. Qed.

Lemma Math_min_Fin (p q : Q) :
  exists m, Math_min (Fin p) (Fin q) = Fin m /\ m <= p /\ m <= q.
Proof.
  unfold Math_min. destruct (Fin q <? Fin p)%js eqn:E.
  - apply lt_Fin in E. exists q. split; [reflexivity | lra].
  - apply lt_Fin_false in E. exists p. split; [reflexivity | lra].
Qed.

(* ------------------------------------------------------------------ *)
(** * The sizing example *)

(** C5.  With available equity 50, risk fraction 0.8 (stage 1), confidence
    100, leverage 20, price 3000 and the contract multiplier 0.1, the sizer
    of [src/services/aiService.ts] computes targetMargin 40, maxSafeMargin
    45, finalMargin 40 and a position value of 800, needs no rescue, and for
    a BUY as for a SELL returns the size "2.66", which is
    floor((800 / (0.1 * 3000)) * 100) / 100. *)
Theorem sizing_example_equity_50 :
  let stage := STRATEGY_STAGES.STAGE_1 in
  let sz :=
    AiService.sizing stage (num 50)
      (Sample.td (VStr "BUY") (VStr "100") (VStr "20") (VStr "3100") (VStr "2900")) in
  let n := numContracts (positionValue sz) (num 3000) in
  Stage.risk_factor stage = Some (dec 8 10) /\
  CONTRACT_VAL_ETH = dec 1 10 /\
  Js.same (confidence sz) (num 100) /\
  Js.same (safeLeverage sz) (num 20) /\
  Js.same (targetMargin sz) (num 40) /\
  Js.same (maxSafeMargin sz) (num 45) /\
  Js.same (finalMargin sz) (num 40) /\
  Js.same (positionValue sz) (num 800) /\
  rescued sz = false /\
  Js.same n (Math_floor (num 800 / (dec 1 10 * num 3000) * num 100) / num 100)%js /\
  Js.same n (dec 266 100) /\
  AiService.postProcess stage (num 50) (num 3000) (Sample.order "BUY" "100" "20")
  = Some (Decision.set_leverage (VStr "20")
            (Decision.set_size (VStr "2.66")
               (Decision.set_action (VStr "BUY") (Sample.order "BUY" "100" "20")))) /\
  AiService.postProcess stage (num 50) (num 3000) (Sample.order "sell" "100%" "20")
  = Some (Decision.set_leverage (VStr "20")
            (Decision.set_size (VStr "2.66")
               (Decision.set_action (VStr "SELL") (Sample.order "sell" "100%" "20")))).
Proof.
  vm_compute. repeat split; reflexivity.
Qed.

(** The revision with the safety factor 0.95 caps the margin at 47.5; the
    final margin, the position value and the size are the same. *)
Lemma sizing_example_other_revisions :
  let t := Sample.td (VStr "BUY") (VStr "100") (VStr "20") (VStr "3100") (VStr "2900") in
  Js.same (maxSafeMargin (Part003.sizing STRATEGY_STAGES.STAGE_1 (num 50) t)) (dec 475 10) /\
  Js.same (finalMargin (Part003.sizing STRATEGY_STAGES.STAGE_1 (num 50) t)) (num 40) /\
  Js.same (maxSafeMargin (Part004.sizing STRATEGY_STAGES.STAGE_1 (num 50) t)) (num 45) /\
  Decision.size (Part003.validate "" STRATEGY_STAGES.STAGE_1 (num 50) (num 3000)
                   (Sample.order "BUY" "100" "20")) = VStr "2.66" /\
  Decision.size (Part004.validate "" STRATEGY_STAGES.STAGE_1 (num 50) (num 3000)
                   (Sample.order "BUY" "100" "20")) = VStr "2.66".
Proof.
  vm_compute. repeat split; reflexivity.
Qed.

(* ------------------------------------------------------------------ *)
(** * Normalisation of confidence and leverage *)

Lemma truthy_false (a : number) :
  truthy a = false <-> a = NaN \/ exists q, a = Fin q /\ q == 0.
Proof.
  destruct a as [| s | q]; simpl.
  - split; auto.
  - split; [discriminate | intros [H | (q & H & _)]; discriminate].
  - rewrite negb_false_iff, Qeq_bool_iff. split.
    + intros H. right. exists q. auto.
    + intros [H | (q' & H & Hq)]; [discriminate | congruence].
Qed.

Section Normalisation.

Variable SAFETY : number.
Variable stage : Stage.t.
Variable availableEquity : number.
Variable td : TD.t.

Let sz := sizing SAFETY stage availableEquity td.

(** C10.  A confidence field that parses to exactly 0 is replaced by 50:
    the sizer uses confidence 50 and the target margin
    availableEquity * risk_factor * (50 / 100), in every revision. *)
Theorem zero_confidence_sized_as_50 (q : Q) :
  parseFloatV (TD.confidence td) = Fin q -> q == 0 ->
  confidence sz = num 50 /\
  targetMargin sz = (availableEquity * Stage.risk stage * (num 50 / num 100))%js.
Proof.
  intros Hp Hq.
  assert (Hc : confidence sz = num 50).
  { subst sz. unfold sizing. simpl. unfold or_else. rewrite Hp. simpl.
    apply Qeq_bool_iff in Hq. rewrite Hq. reflexivity. }
  split; [exact Hc |].
  subst sz. unfold sizing in *. simpl in *. rewrite Hc. reflexivity.
Qed.

End Normalisation.

(** The fields "0" and "0%" parse to zero and are sized with confidence 50. *)
Lemma zero_confidence_examples :
  Js.same (parseFloatV (VStr "0")) (num 0) /\
  Js.same (parseFloatV (VStr "0%")) (num 0) /\
  confidence (AiService.sizing STRATEGY_STAGES.STAGE_1 (num 50)
                (Sample.td (VStr "BUY") (VStr "0%") (VStr "20") Undefined Undefined))
  = num 50 /\
  targetMargin (AiService.sizing STRATEGY_STAGES.STAGE_1 (num 50)
                  (Sample.td (VStr "BUY") (VStr "0%") (VStr "20") Undefined Undefined))
  = (num 50 * dec 8 10 * (num 50 / num 100))%js.
Proof.
  split; [vm_compute; reflexivity |].
  split; [vm_compute; reflexivity |].
  eapply (zero_confidence_sized_as_50 AiService.SAFETY STRATEGY_STAGES.STAGE_1
            (num 50)
            (Sample.td (VStr "BUY") (VStr "0%") (VStr "20") Undefined Undefined)).
  - vm_compute. reflexivity.
  - reflexivity.
Defined.

(** C3, as stated, fails: a confidence of "150" stays 150, a leverage of
    "-5" stays -5 and is written to the output, and a confidence of "0",
    which lies in [0,100], is replaced by 50. *)
Lemma normalisation_is_not_a_clamp :
  let sz :=
    AiService.sizing STRATEGY_STAGES.STAGE_1 (num 50)
      (Sample.td (VStr "HOLD") (VStr "150") (VStr "-5") Undefined Undefined) in
  let out :=
    AiService.validate "" STRATEGY_STAGES.STAGE_1 (num 50) (num 3000)
      (Sample.order "HOLD" "150" "-5") in
  Js.same (confidence sz) (num 150) /\
  (confidence sz <=? num 100)%js = false /\
  Js.same (safeLeverage sz) (num (-5)) /\
  (safeLeverage sz <=? num 0)%js = true /\
  Decision.leverage out = VStr "-5" /\
  confidence (AiService.sizing STRATEGY_STAGES.STAGE_1 (num 50)
                (Sample.td (VStr "HOLD") (VStr "0") (VStr "20") Undefined Undefined))
  = num 50.
Proof.
  vm_compute. repeat split; reflexivity.
Qed.

(* ------------------------------------------------------------------ *)
(** * The minimum position value *)

(** The test [action === 'BUY' || action === 'SELL'] right after the
    assignment of the upper-cased token is a test on the token. *)
Tactic Notation "fold_order_test" constr(tok) constr(decision) :=
  change (is_str (Decision.action
                    (Decision.set_action (VStr (toUpperCase tok)) decision)) "BUY"
          || is_str (Decision.action
                       (Decision.set_action (VStr (toUpperCase tok)) decision)) "SELL")%bool
    with (is_order (toUpperCase tok)).

Tactic Notation "fold_order_test" constr(tok) constr(decision) "in" hyp(H) :=
  change (is_str (Decision.action
                    (Decision.set_action (VStr (toUpperCase tok)) decision)) "BUY"
          || is_str (Decision.action
                       (Decision.set_action (VStr (toUpperCase tok)) decision)) "SELL")%bool
    with (is_order (toUpperCase tok)) in H.

Lemma mul_Fin (p q : Q) : (Fin p * Fin q)%js = Fin (p * q).
Proof. reflexivity. Qed.

Lemma div_Fin (p q : Q) : ~ q == 0 -> (Fin p / Fin q)%js = Fin (p / q).
Proof.
  intros H. apply Qeq_bool_false in H. unfold div. rewrite H. reflexivity.
Qed.

(** A number that does not compare below a finite bound is at least that
    bound, unless it is [NaN]. *)
Lemma not_below_is_at_least (a : number) (b : Q) :
  (a <? Fin b)%js = false -> isNaN a = false -> (Fin b <=? a)%js = true.
Proof.
  destruct a as [| [] | q]; simpl; try discriminate; try reflexivity.
  intros H _. apply Qltb_false in H. apply Qle_bool_iff. exact H.
Qed.

Section Floor.

Variable SAFETY : number.
Variable note_small : number -> string.
Variable note_micro : option string.

Let post := postProcess SAFETY note_small note_micro.

(** The two halves of the floor on the result of the post-processing. *)
Lemma postProcess_floor (stage : Stage.t) (availableEquity currentPrice : number)
    (decision out : Decision.t) :
  post stage availableEquity currentPrice decision = Some out ->
  exists td tok,
    Decision.trading_decision decision = Some td /\
    TD.action td = VStr tok /\
    let sz := sizing SAFETY stage availableEquity td in
    let n := numContracts (positionValue sz) currentPrice in
    (opens out = true ->
       (positionValue sz <? MIN_OPEN_VALUE)%js = false /\
       Decision.action out = VStr (toUpperCase tok) /\
       Decision.size out = VStr (toFixed2 n)) /\
    (is_order (toUpperCase tok) = true ->
     (positionValue sz <? MIN_OPEN_VALUE)%js = true ->
       Decision.action out = VStr "HOLD" /\
       Decision.size out = VStr "0" /\
       Decision.reasoning out
       = append (Decision.reasoning decision) (note_small (positionValue sz))).
Proof.
  subst post. unfold postProcess. intros H.
  destruct (Decision.trading_decision decision) as [td |]; [| discriminate].
  destruct (TD.action td) as [| | tok | x] eqn:Etok; try discriminate.
  exists td, tok. split; [reflexivity |]. split; [exact Etok |].
  cbv zeta. set (sz := sizing SAFETY stage availableEquity td) in *.
  fold_order_test tok decision in H.
  destruct (is_order (toUpperCase tok)) eqn:Eord.
  - destruct (positionValue sz <? MIN_OPEN_VALUE)%js eqn:Epv.
    + injection H as <-. split.
      * intros Ho. discriminate Ho.
      * intros _ _. repeat split.
    + split; [| intros _ E; discriminate E].
      destruct (numContracts (positionValue sz) currentPrice <? dec 1 100)%js eqn:En.
      * destruct note_micro; injection H as <-; intros Ho; discriminate Ho.
      * injection H as <-. intros _. repeat split.
  - injection H as <-. split.
    + unfold opens. simpl. unfold is_order in Eord. rewrite Eord. discriminate.
    + intros E. discriminate E.
Qed.

(** The post-processing fails only on an answer without a
    [trading_decision] or without a string as its action. *)
Lemma postProcess_defined (stage : Stage.t) (availableEquity currentPrice : number)
    (decision : Decision.t) (td : TD.t) (tok : string) :
  Decision.trading_decision decision = Some td ->
  TD.action td = VStr tok ->
  exists out, post stage availableEquity currentPrice decision = Some out.
Proof.
  intros Htd Htok. subst post. unfold postProcess. rewrite Htd, Htok.
  destruct (_ || _)%bool; [| eauto].
  destruct (_ <? _)%js; [eauto |].
  destruct (_ <? _)%js; eauto.
Qed.

(** C1, as the code has it.  The floor of 100 applies to the position value
    (final margin x leverage, after the rescue), not to the notional value
    of the rounded contract count.  Whenever the validator returns an
    opening order, the position value does not compare below 100, so that
    it is at least 100 unless it is [NaN]; the action is the upper-cased
    token and the size is the contract count printed with two decimals.
    Whenever the token is BUY or SELL and the position value is below 100,
    the action becomes HOLD, the size "0", and the audit note is appended to
    the reasoning. *)
Theorem position_value_floor (message : string) (stage : Stage.t)
    (availableEquity currentPrice : number) (decision : Decision.t) :
  let out :=
    validate SAFETY note_small note_micro message stage availableEquity
      currentPrice decision in
  (opens out = true ->
   exists td tok,
     Decision.trading_decision decision = Some td /\
     TD.action td = VStr tok /\
     let sz := sizing SAFETY stage availableEquity td in
     let n := numContracts (positionValue sz) currentPrice in
     (positionValue sz <? MIN_OPEN_VALUE)%js = false /\
     (isNaN (positionValue sz) = false ->
      (MIN_OPEN_VALUE <=? positionValue sz)%js = true) /\
     Decision.action out = VStr (toUpperCase tok) /\
     Decision.size out = VStr (toFixed2 n)) /\
  (forall td tok,
     Decision.trading_decision decision = Some td ->
     TD.action td = VStr tok ->
     is_order (toUpperCase tok) = true ->
     let sz := sizing SAFETY stage availableEquity td in
     (positionValue sz <? MIN_OPEN_VALUE)%js = true ->
     Decision.action out = VStr "HOLD" /\
     Decision.size out = VStr "0" /\
     Decision.reasoning out
     = append (Decision.reasoning decision) (note_small (positionValue sz))).
Proof.
  unfold validate. fold post.
  destruct (post stage availableEquity currentPrice decision) as [out |] eqn:E.
  - destruct (postProcess_floor _ _ _ _ _ E) as (td & tok & Htd & Htok & Hopen & Hhold).
    split.
    + intros Ho. exists td, tok. split; [exact Htd |]. split; [exact Htok |].
      destruct (Hopen Ho) as (Hpv & Hact & Hsize). cbv zeta.
      split; [exact Hpv |]. split; [| split; assumption].
      apply not_below_is_at_least. exact Hpv.
    + intros td' tok' Htd' Htok' Hord. cbv zeta. intros Hpv.
      assert (td' = td) by congruence. subst td'.
      assert (tok' = tok) by congruence. subst tok'.
      apply Hhold; assumption.
  - split.
    + intros Ho. discriminate Ho.
    + intros td tok Htd Htok. exfalso.
      destruct (postProcess_defined stage availableEquity currentPrice decision
                  td tok Htd Htok) as (out & Hout).
      congruence.
Qed.

(** What the output carries of the answer: the nested [trading_decision] as
    it came, and a leverage that is written on every path but the two
    downgrades. *)
Lemma postProcess_carries (stage : Stage.t) (availableEquity currentPrice : number)
    (decision : Decision.t) (td : TD.t) (tok : string) :
  Decision.trading_decision decision = Some td ->
  TD.action td = VStr tok ->
  let sz := sizing SAFETY stage availableEquity td in
  let n := numContracts (positionValue sz) currentPrice in
  exists out,
    post stage availableEquity currentPrice decision = Some out /\
    Decision.trading_decision out = Some td /\
    Decision.stage_analysis out = Decision.stage_analysis decision /\
    Decision.leverage out
    = (if (is_order (toUpperCase tok)
           && ((positionValue sz <? MIN_OPEN_VALUE)%js || (n <? dec 1 100)%js))%bool
       then Decision.leverage decision
       else VStr (toString (safeLeverage sz))).
Proof.
  intros Htd Htok. cbv zeta. subst post. unfold postProcess. rewrite Htd, Htok.
  fold_order_test tok decision.
  destruct (is_order (toUpperCase tok)); cbn [andb].
  - destruct (positionValue _ <? MIN_OPEN_VALUE)%js; cbn [orb].
    + eexists. split; [reflexivity |]. cbn. auto.
    + destruct (numContracts _ _ <? dec 1 100)%js.
      * destruct note_micro; eexists; (split; [reflexivity |]); cbn; auto.
      * eexists. split; [reflexivity |]. cbn. auto.
  - eexists. split; [reflexivity |]. cbn. auto.
Qed.

(** C3, as the code has it.  The normalised confidence is the parsed value,
    except that a parse result of [NaN] or of zero is replaced by 50; the
    normalised leverage is the parsed value, except that [NaN] is replaced
    by the leverage of the stage.  Neither is compared with a bound: the
    confidence is never [NaN] nor zero, and the leverage is a number
    whenever the stage's is.  Both are used for the sizing only.  The output
    keeps the nested [trading_decision], hence the confidence field, as the
    answer had it; its leverage is the normalised leverage as [toString]
    prints it, except when an opening order is downgraded, where the
    leverage field is left as the answer had it.  An answer without a
    [trading_decision] or without a string as its action gives the object
    of the error handler, whose leverage is "0". *)
Theorem numeric_normalisation (message : string) (stage : Stage.t)
    (availableEquity currentPrice : number) (decision : Decision.t) :
  let out :=
    validate SAFETY note_small note_micro message stage availableEquity
      currentPrice decision in
  match Decision.trading_decision decision with
  | Some td =>
      match TD.action td with
      | VStr tok =>
          let c := parseFloatV (TD.confidence td) in
          let l := parseFloatV (TD.leverage td) in
          let sz := sizing SAFETY stage availableEquity td in
          let n := numContracts (positionValue sz) currentPrice in
          let downgraded :=
            (is_order (toUpperCase tok)
             && ((positionValue sz <? MIN_OPEN_VALUE)%js || (n <? dec 1 100)%js))%bool in
          ((c = NaN \/ exists q, c = Fin q /\ q == 0) /\ confidence sz = num 50
           \/ truthy c = true /\ confidence sz = c) /\
          (l = NaN /\ safeLeverage sz = Stage.leverage stage
           \/ isNaN l = false /\ safeLeverage sz = l) /\
          truthy (confidence sz) = true /\
          isNaN (safeLeverage sz) = isNaN l && isNaN (Stage.leverage stage) /\
          Decision.trading_decision out = Some td /\
          Decision.leverage out
          = (if downgraded then Decision.leverage decision
             else VStr (toString (safeLeverage sz)))
      | _ => out = errorDecision message /\ Decision.leverage out = VStr "0"
      end
  | None => out = errorDecision message /\ Decision.leverage out = VStr "0"
  end.
Proof.
  cbv zeta. unfold validate. fold post.
  destruct (Decision.trading_decision decision) as [td |] eqn:Htd.
  - destruct (TD.action td) as [| | tok | x] eqn:Htok.
    1, 2, 4: subst post; unfold postProcess; rewrite Htd, Htok; split; reflexivity.
    destruct (postProcess_carries stage availableEquity currentPrice decision td tok
                Htd Htok) as (out & -> & Hkeep & _ & Hlev).
    set (c := parseFloatV (TD.confidence td)).
    set (l := parseFloatV (TD.leverage td)).
    set (sz := sizing SAFETY stage availableEquity td) in *.
    assert (Hc : confidence sz = (c || num 50)%js) by reflexivity.
    assert (Hl : safeLeverage sz = if isNaN l then Stage.leverage stage else l)
      by reflexivity.
    split; [| split; [| split; [| split; [| split]]]].
    + rewrite Hc. unfold or_else. destruct (truthy c) eqn:E.
      * right. auto.
      * left. split; [apply truthy_false; exact E | reflexivity].
    + rewrite Hl. destruct l; simpl; auto.
    + rewrite Hc, or_else_truthy. apply orb_true_r.
    + rewrite Hl. destruct l; reflexivity.
    + exact Hkeep.
    + exact Hlev.
  - subst post. unfold postProcess. rewrite Htd. split; reflexivity.
Qed.

End Floor.

(** The theorem at an order that the rescue lifts to the floor, and at one
    that it cannot lift. *)
Lemma position_value_floor_witness :
  (let raw := Sample.order "buy" "50" "20" in
   let out := AiService.validate "" STRATEGY_STAGES.STAGE_1 (num 10) (num 3000) raw in
   exists td tok,
     Decision.trading_decision raw = Some td /\
     TD.action td = VStr tok /\
     (positionValue (AiService.sizing STRATEGY_STAGES.STAGE_1 (num 10) td)
      <? MIN_OPEN_VALUE)%js = false /\
     Decision.size out
     = VStr (toFixed2
               (numContracts
                  (positionValue (AiService.sizing STRATEGY_STAGES.STAGE_1 (num 10) td))
                  (num 3000)))) /\
  (let raw := Sample.order "sell" "50" "20" in
   let out := AiService.validate "" STRATEGY_STAGES.STAGE_1 (num 5) (num 3000) raw in
   Decision.action out = VStr "HOLD" /\
   Decision.size out = VStr "0" /\
   Decision.reasoning out
   = VStr "why [系统修正: 仓位价值 40.00U 过小，不足以支付手续费或满足交易所限制，已取消]").
Proof.
  split.
  - destruct (position_value_floor AiService.SAFETY AiService.note_small
                AiService.note_micro "" STRATEGY_STAGES.STAGE_1 (num 10) (num 3000)
                (Sample.order "buy" "50" "20"))
      as (Hopen & _).
    destruct (Hopen eq_refl) as (td & tok & Htd & Htok & Hpv & _ & _ & Hsize).
    exists td, tok.
    split; [exact Htd |]. split; [exact Htok |]. split; [exact Hpv | exact Hsize].
  - destruct (position_value_floor AiService.SAFETY AiService.note_small
                AiService.note_micro "" STRATEGY_STAGES.STAGE_1 (num 5) (num 3000)
                (Sample.order "sell" "50" "20"))
      as (_ & Hhold).
    destruct (Hhold _ "sell" eq_refl eq_refl eq_refl eq_refl)
      as (Hact & Hsize & Hreason).
    split; [exact Hact |]. split; [exact Hsize |].
    etransitivity; [exact Hreason | vm_compute; reflexivity].
Defined.

(** C1, as stated, fails: with 10 of equity, confidence 50 and leverage 20
    the rescue sets the position value to exactly 100; at a price of 3000
    that is a third of a contract, rounded down to 0.33, and the BUY goes
    out with a notional value of 99. *)
Lemma rounded_order_below_floor :
  let out :=
    AiService.validate "" STRATEGY_STAGES.STAGE_1 (num 10) (num 3000)
      (Sample.order "buy" "50" "20") in
  Decision.action out = VStr "BUY" /\
  Decision.size out = VStr "0.33" /\
  Js.same (notional (parseFloatV (Decision.size out)) (num 3000)) (num 99) /\
  (notional (parseFloatV (Decision.size out)) (num 3000) <? num 100)%js = true.
Proof.
  vm_compute. repeat split; reflexivity.
Qed.

(* ------------------------------------------------------------------ *)
(** * No equity *)

Section NoEquity.

Variable SAFETY : number.
Variable note_small : number -> string.
Variable note_micro : option string.
Variable stage : Stage.t.
Variable availableEquity : number.
Variable td : TD.t.

Let sz := sizing SAFETY stage availableEquity td.
Let margin := Math_min (targetMargin sz) (maxSafeMargin sz).

(** The fields of [sizing] in terms of one another. *)
Lemma sizing_equations :
  targetMargin sz
  = (availableEquity * Stage.risk stage * (confidence sz / num 100))%js /\
  maxSafeMargin sz = (availableEquity * SAFETY)%js /\
  rescued sz
  = ((margin * safeLeverage sz <? MIN_OPEN_VALUE)%js
     && (availableEquity * dec 9 10 * safeLeverage sz >? MIN_OPEN_VALUE)%js
     && (confidence sz >=? num 40)%js)%bool /\
  finalMargin sz
  = (if rescued sz then (MIN_OPEN_VALUE / safeLeverage sz)%js else margin) /\
  positionValue sz
  = (if rescued sz then MIN_OPEN_VALUE else (margin * safeLeverage sz)%js).
Proof. repeat split. Qed.

(** C4, as the code has it.  With a finite available equity that is zero or
    negative, a stage that has a finite risk factor, a finite normalised
    confidence and a finite normalised leverage above zero, the final margin
    is zero or negative, no rescue takes place, and a BUY or SELL is
    downgraded by the check of the position value: action HOLD, size "0",
    the note appended.  The price plays no part. *)
Theorem no_equity_no_order (s a r c l : Q) (currentPrice : number)
    (decision : Decision.t) (tok : string) :
  SAFETY = Fin s -> 0 <= s ->
  availableEquity = Fin a -> a <= 0 ->
  Stage.risk_factor stage = Some (Fin r) ->
  confidence sz = Fin c ->
  safeLeverage sz = Fin l -> 0 < l ->
  Decision.trading_decision decision = Some td ->
  TD.action td = VStr tok ->
  is_order (toUpperCase tok) = true ->
  (exists m, finalMargin sz = Fin m /\ m <= 0) /\
  rescued sz = false /\
  (positionValue sz <? MIN_OPEN_VALUE)%js = true /\
  exists out,
    postProcess SAFETY note_small note_micro stage availableEquity currentPrice
      decision = Some out /\
    Decision.action out = VStr "HOLD" /\
    Decision.size out = VStr "0" /\
    Decision.reasoning out
    = append (Decision.reasoning decision) (note_small (positionValue sz)).
Proof.
  intros HS Hs Ha Hale Hr Hc Hl Hlpos Htd Htok Hord.
  destruct sizing_equations as (Et & Em & Er & Ef & Ep).
  fold sz in Et, Em, Er, Ef, Ep.
  assert (Hrisk : Stage.risk stage = Fin r) by (unfold Stage.risk; rewrite Hr; reflexivity).
  assert (H100 : ~ inject_Z 100 == 0) by discriminate.
  rewrite Hc, Hrisk, Ha in Et. unfold num, of_Z in Et.
  rewrite mul_Fin, (div_Fin _ _ H100), mul_Fin in Et.
  rewrite Ha, HS, mul_Fin in Em.
  destruct (Math_min_Fin (a * r * (c / inject_Z 100)) (a * s)) as (m & Hm & _ & Hms).
  assert (Hmargin : margin = Fin m) by (subst margin; rewrite Et, Em; exact Hm).
  assert (Hm0 : m <= 0) by nra.
  assert (Hresc : rescued sz = false).
  { rewrite Er, Hmargin, Hl, Ha. unfold dec, gt, MIN_OPEN_VALUE, num, of_Z.
    rewrite !mul_Fin.
    assert (E : (Fin (inject_Z 100) <? Fin (a * (9 # 10) * l))%js = false).
    { apply lt_Fin_false. change (inject_Z 100) with 100. nra. }
    rewrite E. rewrite andb_false_r. reflexivity. }
  rewrite Hresc in Ef, Ep. rewrite Hmargin, Hl, mul_Fin in Ep.
  assert (Hpv : (positionValue sz <? MIN_OPEN_VALUE)%js = true).
  { rewrite Ep. apply lt_Fin. change (inject_Z 100) with 100. nra. }
  split; [exists m; split; [congruence | exact Hm0] |].
  split; [exact Hresc |]. split; [exact Hpv |].
  unfold postProcess. rewrite Htd, Htok. fold sz.
  fold_order_test tok decision.
  rewrite Hord, Hpv. eexists. split; [reflexivity |]. repeat split.
Qed.

End NoEquity.

(** The theorem at an account without equity. *)
Lemma no_equity_no_order_witness :
  exists out,
    AiService.postProcess STRATEGY_STAGES.STAGE_1 (num 0) (num 3000)
      (Sample.order "buy" "90" "20") = Some out /\
    Decision.action out = VStr "HOLD" /\
    Decision.size out = VStr "0".
Proof.
  destruct (no_equity_no_order AiService.SAFETY AiService.note_small
              AiService.note_micro STRATEGY_STAGES.STAGE_1 (num 0)
              (Sample.td (VStr "buy") (VStr "90") (VStr "20") (VStr "3100") (VStr "2900"))
              (90 # 100) 0 (8 # 10)
              (inject_Z 90 / inject_Z (10 ^ Z.of_nat 0) * pow10 0)
              (inject_Z 20 / inject_Z (10 ^ Z.of_nat 0) * pow10 0)
              (num 3000) (Sample.order "buy" "90" "20") "buy")
    as (_ & _ & _ & out & Hout & Hact & Hsize & _);
    try reflexivity; try (vm_compute; discriminate).
  exists out. auto.
Defined.

(** C4, as stated, fails: the leverage is not checked for its sign, and a
    negative leverage turns the negative margin of a negative equity into a
    position value of 1800; the BUY goes out with six contracts. *)
Lemma negative_leverage_opens_without_equity :
  let sz :=
    AiService.sizing STRATEGY_STAGES.STAGE_1 (num (-100))
      (Sample.td (VStr "buy") (VStr "100") (VStr "-20") (VStr "3100") (VStr "2900")) in
  let out :=
    AiService.validate "" STRATEGY_STAGES.STAGE_1 (num (-100)) (num 3000)
      (Sample.order "buy" "100" "-20") in
  (num (-100) <=? num 0)%js = true /\
  Js.same (finalMargin sz) (num (-90)) /\
  Js.same (positionValue sz) (num 1800) /\
  Decision.action out = VStr "BUY" /\
  Decision.size out = VStr "6.00".
Proof.
  vm_compute. repeat split; reflexivity.
Qed.

(** [STAGE_3] has no [risk_factor]: the target margin is [NaN], no
    comparison with the floor holds, and an opening order leaves the
    validator with the size "NaN", also without any equity. *)
Lemma stage_3_sizes_NaN :
  let out :=
    AiService.validate "" (currentStageParams (num 100)) (num 0) (num 3000)
      (Sample.order "buy" "90" "5") in
  currentStageParams (num 100) = STRATEGY_STAGES.STAGE_3 /\
  Decision.action out = VStr "BUY" /\
  Decision.size out = VStr "NaN".
Proof.
  vm_compute. repeat split; reflexivity.
Qed.

(* ------------------------------------------------------------------ *)
(** * Tokens other than BUY and SELL *)

Lemma is_str_eq (v : value) (s : string) : is_str v s = true <-> v = VStr s.
Proof.
  destruct v; simpl; try (split; [discriminate | intros H; discriminate H]).
  rewrite String.eqb_eq. split; [intros -> | intros [= ->]]; reflexivity.
Qed.

Lemma is_str_neq (t s : string) : t <> s -> is_str (VStr t) s = false.
Proof. intros H. simpl. apply String.eqb_neq. exact H. Qed.

Section Tokens.

Variable SAFETY : number.
Variable note_small : number -> string.
Variable note_micro : option string.
Variable exchange : Server.ExchangeCall -> Server.Reply.
Variable typeError : string.
Variable substringError : value -> string.
Variable substring_0_10 : string -> string.

(** C2, as the code has it.  The validator upper-cases the token and does
    not compare it with the list of actions.  A token that is neither BUY
    nor SELL after upper-casing is kept as the action, with the size "0",
    the normalised leverage and the reasoning as it came.  Unless it is
    HOLD or UPDATE_TPSL, the handler of the loop then passes the decision
    to [executeOrder], once, and makes no other call, provided that the
    [stage_analysis] of the answer is a string; when it is not, the log
    entry before the dispatch throws, and the handler ends with the error
    entry of its [catch] and without any call. *)
Theorem other_tokens_pass_through (stage : Stage.t)
    (availableEquity currentPrice : number) (decision : Decision.t)
    (td : TD.t) (tok : string) (positions : list Server.Position) :
  Decision.trading_decision decision = Some td ->
  TD.action td = VStr tok ->
  is_order (toUpperCase tok) = false ->
  exists out,
    postProcess SAFETY note_small note_micro stage availableEquity currentPrice
      decision = Some out /\
    Decision.action out = VStr (toUpperCase tok) /\
    Decision.size out = VStr "0" /\
    Decision.leverage out
    = VStr (toString (safeLeverage (sizing SAFETY stage availableEquity td))) /\
    Decision.reasoning out = Decision.reasoning decision /\
    (toUpperCase tok <> "HOLD" -> toUpperCase tok <> "UPDATE_TPSL" ->
     let evs :=
       Server.afterDecision exchange typeError substringError substring_0_10
         out positions in
     match Decision.stage_analysis decision with
     | VStr _ => Server.calls evs = [Server.executeOrder out]
     | v =>
         evs = [Server.addLog Server.ERROR ("策略执行异常: " ++ substringError v)]
     end).
Proof.
  intros Htd Htok Hord.
  unfold postProcess. rewrite Htd, Htok.
  fold_order_test tok decision.
  rewrite Hord. eexists. split; [reflexivity |].
  repeat split.
  intros Hh Hu. cbv zeta. unfold Server.afterDecision.
  cbn [Decision.stage_analysis Decision.set_leverage Decision.set_size
       Decision.set_action].
  destruct (Decision.stage_analysis decision) as [| | s | x]; try reflexivity.
  cbn [Server.calls]. unfold Server.executeActions.
  cbn [Decision.action Decision.set_leverage Decision.set_size Decision.set_action].
  rewrite (is_str_neq _ _ Hu), (is_str_neq _ _ Hh). cbn [negb].
  unfold Server.rolling.
  cbn [Decision.action Decision.set_leverage Decision.set_size Decision.set_action].
  rewrite (is_str_neq _ _ Hh).
  destruct (find _ positions); destruct (exchange _); reflexivity.
Qed.

End Tokens.

(** The theorem at the token "long". *)
Lemma other_tokens_pass_through_witness :
  exists out,
    AiService.postProcess STRATEGY_STAGES.STAGE_1 (num 50) (num 3000)
      (Sample.order "long" "100" "20") = Some out /\
    Decision.action out = VStr "LONG" /\
    Decision.size out = VStr "0" /\
    Server.calls
      (Server.afterDecision Sample.accept "" (fun _ => "") (fun s => s) out [])
    = [Server.executeOrder out].
Proof.
  destruct (other_tokens_pass_through AiService.SAFETY AiService.note_small
              AiService.note_micro Sample.accept "" (fun _ => "") (fun s => s)
              STRATEGY_STAGES.STAGE_1
              (num 50) (num 3000) (Sample.order "long" "100" "20")
              (Sample.td (VStr "long") (VStr "100") (VStr "20") (VStr "3100") (VStr "2900"))
              "long" [] eq_refl eq_refl eq_refl)
    as (out & Hout & Hact & Hsize & _ & _ & Hcalls).
  exists out. repeat split; auto.
  apply Hcalls; discriminate.
Defined.

(** C2, as stated, fails: the token "long" is none of the five actions, yet
    it leaves the validator as the action LONG, not HOLD, with the reasoning
    unchanged, and the loop calls [executeOrder] with it. *)
Lemma unrecognized_token_reaches_exchange :
  let raw := Sample.order "long" "100" "20" in
  let out := AiService.validate "" STRATEGY_STAGES.STAGE_1 (num 50) (num 3000) raw in
  recognized (toUpperCase "long") = false /\
  Decision.action out = VStr "LONG" /\
  Decision.action out <> VStr "HOLD" /\
  Decision.reasoning out = Decision.reasoning raw /\
  Server.calls (Server.executeActions Sample.accept "" out [])
  = [Server.executeOrder out].
Proof.
  vm_compute. repeat split; try reflexivity. discriminate.
Qed.

(** The token is not trimmed: " buy" is upper-cased to " BUY", which is not
    the action BUY; it is given the size "0" and reaches [executeOrder]. *)
Lemma padded_token_is_not_trimmed :
  let out :=
    AiService.validate "" STRATEGY_STAGES.STAGE_1 (num 50) (num 3000)
      (Sample.order " buy" "100" "20") in
  Decision.action out = VStr " BUY" /\
  Decision.size out = VStr "0" /\
  Server.calls (Server.executeActions Sample.accept "" out [])
  = [Server.executeOrder out].
Proof.
  vm_compute. repeat split; reflexivity.
Qed.

(* ------------------------------------------------------------------ *)
(** * UPDATE_TPSL *)

Lemma gt_not_NaN (a b : number) : (a >? b)%js = true -> isNaN a = false.
Proof.
  destruct a; [unfold gt; rewrite lt_NaN_r; discriminate | reflexivity ..].
Qed.

(** [isValid] accepts a value exactly when it is not absent, not [null],
    not the empty string, and parses to a number above zero. *)
Lemma isValid_spec (p : value) :
  Server.isValid p = true <->
  p <> Undefined /\ p <> Null /\ p <> VStr "" /\ (parseFloatV p >? num 0)%js = true.
Proof.
  unfold parseFloatV.
  assert (G : forall v, (negb (isNaN (parseFloat (ToString v)))
                         && (parseFloat (ToString v) >? num 0)%js)%bool = true
                        <-> (parseFloat (ToString v) >? num 0)%js = true).
  { intros v. rewrite andb_true_iff, negb_true_iff. split; [tauto |].
    intros H. split; [eapply gt_not_NaN; exact H | exact H]. }
  destruct p as [| | s | n].
  - simpl. split; [discriminate | intros (H & _); congruence].
  - simpl. split; [discriminate | intros (_ & H & _); congruence].
  - destruct s as [| ch s].
    + simpl. split; [discriminate | intros (_ & _ & H & _); congruence].
    + unfold Server.isValid. rewrite G.
      split; [intros H; repeat split; [discriminate .. | exact H] | tauto].
  - unfold Server.isValid. rewrite G.
    split; [intros H; repeat split; [discriminate .. | exact H] | tauto].
Qed.

Section Tpsl.

Variable exchange : Server.ExchangeCall -> Server.Reply.
Variable typeError : string.
Variable substringError : value -> string.
Variable substring_0_10 : string -> string.
Variable decision : Decision.t.
Variable positions : list Server.Position.

Let evs := Server.executeActions exchange typeError decision positions.
Let handled :=
  Server.afterDecision exchange typeError substringError substring_0_10
    decision positions.

Hypothesis Haction : is_str (Decision.action decision) "UPDATE_TPSL" = true.

Lemma update_is_not_hold : is_str (Decision.action decision) "HOLD" = false.
Proof.
  apply is_str_eq in Haction. rewrite Haction. reflexivity.
Qed.

(** The events of an UPDATE_TPSL cycle are those of its branch. *)
Lemma update_events :
  evs = match find (fun p => String.eqb (Server.instId p) INSTRUMENT_ID) positions with
        | Some p =>
            match Server.updateTPSL exchange decision p with
            | Some e => e
            | None => [Server.addLog Server.ERROR ("策略执行异常: " ++ typeError)]
            end
        | None => []
        end.
Proof.
  subst evs. unfold Server.executeActions, Server.rolling.
  rewrite Haction, update_is_not_hold.
  destruct (find _ positions) as [p |]; [| reflexivity].
  destruct (Server.updateTPSL exchange decision p); [| reflexivity].
  apply app_nil_r.
Qed.

(** C7, as the code has it.  After an UPDATE_TPSL decision on a primary
    position in [net] mode the handler makes no exchange call.  It logs the
    decision and then the warning when the [stage_analysis] of the decision
    is a string and the stop loss or the profit target is valid.  When
    neither value is valid it logs the decision only; a decision without
    [trading_decision] ends in the error entry of the [catch], and so does,
    before anything else is logged, a decision whose [stage_analysis] is
    not a string. *)
Theorem net_position_never_updated (p : Server.Position) :
  find (fun p => String.eqb (Server.instId p) INSTRUMENT_ID) positions = Some p ->
  Server.posSide p = "net" ->
  Server.calls handled = [] /\
  handled
  = match Decision.stage_analysis decision with
    | VStr s =>
        Server.addLog Server.INFO
          (Server.decisionLog substring_0_10 decision s)
        :: match Decision.trading_decision decision with
           | Some td =>
               if (Server.isValid (TD.stop_loss td)
                   || Server.isValid (TD.profit_target td))%bool
               then [Server.addLog Server.WARNING "单向持仓模式不支持自动更新止损/止盈"]
               else []
           | None => [Server.addLog Server.ERROR ("策略执行异常: " ++ typeError)]
           end
    | v => [Server.addLog Server.ERROR ("策略执行异常: " ++ substringError v)]
    end.
Proof.
  intros Hp Hnet. subst handled. unfold Server.afterDecision. fold evs.
  assert (E : evs = match Decision.trading_decision decision with
                    | Some td =>
                        if (Server.isValid (TD.stop_loss td)
                            || Server.isValid (TD.profit_target td))%bool
                        then [Server.addLog Server.WARNING
                                "单向持仓模式不支持自动更新止损/止盈"]
                        else []
                    | None =>
                        [Server.addLog Server.ERROR ("策略执行异常: " ++ typeError)]
                    end).
  { rewrite update_events, Hp. unfold Server.updateTPSL. rewrite Hnet.
    change (String.eqb "net" "net") with true. cbv iota.
    destruct (Decision.trading_decision decision) as [td |]; [| reflexivity].
    destruct (Server.isValid (TD.stop_loss td) || Server.isValid (TD.profit_target td))%bool;
      reflexivity. }
  rewrite E.
  destruct (Decision.stage_analysis decision) as [| | s | x];
    (split; [| reflexivity]); try reflexivity.
  cbn [Server.calls].
  destruct (Decision.trading_decision decision) as [td |]; [| reflexivity].
  destruct (Server.isValid (TD.stop_loss td) || Server.isValid (TD.profit_target td))%bool;
    reflexivity.
Qed.

(** C8, as the code has it.  In an UPDATE_TPSL cycle the only possible call
    is [updatePositionTPSL]; its stop loss and its profit target are passed
    only when [isValid] accepts them, and when it accepts neither no call is
    made.  [isValid] rejects "0", "", [undefined], [null] and every value
    whose parse is [NaN] or not above zero; it does not ask for a finite
    number. *)
Theorem invalid_price_not_forwarded (td : TD.t) :
  Decision.trading_decision decision = Some td ->
  let newSL := TD.stop_loss td in
  let newTP := TD.profit_target td in
  (forall c, In c (Server.calls evs) ->
     (Server.isValid newSL || Server.isValid newTP)%bool = true /\
     exists i ps po,
       c = Server.updatePositionTPSL i ps po
             (if Server.isValid newSL then Some (ToString newSL) else None)
             (if Server.isValid newTP then Some (ToString newTP) else None)) /\
  (Server.isValid newSL = false -> Server.isValid newTP = false ->
   Server.calls evs = []) /\
  Server.isValid (VStr "0") = false /\
  Server.isValid (VStr "") = false /\
  Server.isValid Undefined = false /\
  Server.isValid Null = false /\
  (forall v, (parseFloatV v >? num 0)%js = false -> Server.isValid v = false).
Proof.
  intros Htd newSL newTP.
  assert (Hev : forall c, In c (Server.calls evs) ->
            (Server.isValid newSL || Server.isValid newTP)%bool = true /\
            exists i ps po,
              c = Server.updatePositionTPSL i ps po
                    (if Server.isValid newSL then Some (ToString newSL) else None)
                    (if Server.isValid newTP then Some (ToString newTP) else None)).
  { intros c. rewrite update_events.
    destruct (find _ positions) as [p |]; [| intros []].
    unfold Server.updateTPSL. rewrite Htd. fold newSL newTP.
    destruct (Server.isValid newSL || Server.isValid newTP)%bool; [| intros []].
    destruct (String.eqb (Server.posSide p) "net"); [intros [] |].
    intros Hin. split; [reflexivity |].
    cbn [Server.calls] in Hin.
    destruct (exchange _); cbn [Server.calls] in Hin;
      (destruct Hin as [<- | []]; eauto). }
  split; [exact Hev |].
  split.
  - intros Hsl Htp.
    assert (Hno : forall c, ~ In c (Server.calls evs)).
    { intros c Hin. destruct (Hev c Hin) as (H & _).
      rewrite Hsl, Htp in H. discriminate H. }
    revert Hno. generalize (Server.calls evs).
    intros [| c r] Hno; [reflexivity |].
    exfalso. apply (Hno c). left. reflexivity.
  - repeat split.
    intros v Hv. apply not_true_iff_false. intros H.
    apply isValid_spec in H. destruct H as (_ & _ & _ & H). congruence.
Qed.

End Tpsl.

(** The theorem at a [net] position with a valid stop loss. *)
Lemma net_position_never_updated_witness :
  Server.calls
    (Server.afterDecision Sample.accept "" (fun _ => "") (fun s => s)
       (Sample.tpsl (VStr "3100") (VStr "2900")) [Sample.position "net"]) = [] /\
  Server.afterDecision Sample.accept "" (fun _ => "") (fun s => s)
    (Sample.tpsl (VStr "3100") (VStr "2900")) [Sample.position "net"]
  = [Server.addLog Server.INFO "[stage..] 决策: UPDATE_TPSL (置信度 80%)";
     Server.addLog Server.WARNING "单向持仓模式不支持自动更新止损/止盈"].
Proof.
  apply (net_position_never_updated Sample.accept "" (fun _ => "") (fun s => s)
           (Sample.tpsl (VStr "3100") (VStr "2900")) [Sample.position "net"]
           eq_refl (Sample.position "net"));
    reflexivity.
Defined.

(** C7, as stated, fails: on a [net] position, a stop loss of "0" and an
    empty profit target end the cycle without any log entry, hence without
    a warning. *)
Lemma net_position_without_warning :
  let d := Sample.tpsl (VStr "") (VStr "0") in
  let evs := Server.executeActions Sample.accept "" d [Sample.position "net"] in
  Decision.action d = VStr "UPDATE_TPSL" /\
  Server.posSide (Sample.position "net") = "net" /\
  Server.logs evs = [] /\
  Server.calls evs = [].
Proof.
  vm_compute. repeat split; reflexivity.
Qed.

(** The theorem at a long position with a stop loss of "0". *)
Lemma invalid_price_not_forwarded_witness :
  Server.calls
    (Server.executeActions Sample.accept ""
       (Sample.tpsl (VStr "") (VStr "0")) [Sample.position "long"]) = [] /\
  Server.calls
    (Server.executeActions Sample.accept ""
       (Sample.tpsl (VStr "3100") (VStr "0")) [Sample.position "long"])
  = [Server.updatePositionTPSL INSTRUMENT_ID "long" "3" None (Some "3100")].
Proof.
  destruct (invalid_price_not_forwarded Sample.accept ""
              (Sample.tpsl (VStr "") (VStr "0")) [Sample.position "long"]
              eq_refl
              (Sample.td (VStr "UPDATE_TPSL") (VStr "80%") (VStr "20")
                         (VStr "") (VStr "0"))
              eq_refl)
    as (_ & Hnone & _).
  split; [apply Hnone; reflexivity | reflexivity].
Defined.

(** C8, as stated, fails: the stop loss "Infinity" does not parse to a
    finite number, yet [isValid] accepts it and it is passed to the
    exchange. *)
Lemma infinite_stop_loss_is_forwarded :
  let d := Sample.tpsl (VStr "") (VStr "Infinity") in
  parseFloatV (VStr "Infinity") = Inf false /\
  Server.isValid (VStr "Infinity") = true /\
  Server.calls (Server.executeActions Sample.accept "" d [Sample.position "long"])
  = [Server.updatePositionTPSL INSTRUMENT_ID "long" "3" (Some "Infinity") None].
Proof.
  vm_compute. repeat split; reflexivity.
Qed.

(* ------------------------------------------------------------------ *)
(** * RSI *)

Section Rsi.

Import Reference.

Lemma deltas_from_length (l : list number) (prev : number) :
  List.length (deltas_from prev l) = List.length l.
Proof.
  revert prev. induction l as [| c r IH]; intros prev; simpl; [| rewrite IH]; reflexivity.
Qed.

Lemma deltas_length (closes : list number) :
  List.length (deltas closes) = (List.length closes - 1)%nat.
Proof.
  destruct closes as [| c r]; simpl; [reflexivity |].
  rewrite deltas_from_length. lia.
Qed.

(** The delta at position [i] is the difference of the closes at [i + 1]
    and [i]. *)
Lemma deltas_from_nth (l : list number) (prev : number) (i : nat) :
  (i < List.length l)%nat ->
  nth i (deltas_from prev l) NaN = (nth i l NaN - nth i (prev :: l) NaN)%js.
Proof.
  revert prev i. induction l as [| c r IH]; intros prev i Hi; simpl in Hi; [lia |].
  destruct i as [| i]; [reflexivity |].
  simpl deltas_from. cbn [nth]. rewrite IH by lia. reflexivity.
Qed.

Lemma change_is_delta (closes : list number) (i : nat) :
  (1 <= i < List.length closes)%nat ->
  (at_ closes i - at_ closes (i - 1))%js = nth (i - 1) (deltas closes) NaN.
Proof.
  intros Hi. destruct closes as [| c r]; simpl in Hi; [lia |].
  destruct i as [| i]; [lia |].
  simpl deltas. replace (S i - 1)%nat with i by lia.
  rewrite deltas_from_nth by lia. reflexivity.
Qed.

Lemma skipn_cons_nth {A : Type} (l : list A) (a : nat) (d : A) :
  (a < List.length l)%nat -> skipn a l = nth a l d :: skipn (S a) l.
Proof.
  revert a. induction l as [| x r IH]; intros a Ha; simpl in Ha; [lia |].
  destruct a as [| a]; [reflexivity |].
  simpl. apply IH. lia.
Qed.

(** A loop over the indices a + 1 .. a + n that reads the delta before each
    index is a fold over the deltas a .. a + n - 1. *)
Lemma fold_indices_deltas {A : Type} (h : A -> number -> A) (ds : list number)
    (n a : nat) (init : A) :
  (a + n <= List.length ds)%nat ->
  fold_left (fun acc i => h acc (nth (i - 1) ds NaN)) (seq (S a) n) init
  = fold_left h (firstn n (skipn a ds)) init.
Proof.
  revert a init. induction n as [| n IH]; intros a init Hn; [reflexivity |].
  rewrite (skipn_cons_nth ds a NaN) by lia.
  cbn [seq firstn fold_left]. replace (S a - 1)%nat with a by lia.
  rewrite IH by lia. reflexivity.
Qed.

Lemma fold_left_ext_in {A B : Type} (f g : A -> B -> A) (l : list B) (init : A) :
  (forall acc x, In x l -> f acc x = g acc x) ->
  fold_left f l init = fold_left g l init.
Proof.
  revert init. induction l as [| x r IH]; intros init H; [reflexivity |].
  simpl. rewrite H by (left; reflexivity).
  apply IH. intros acc y Hy. apply H. right. exact Hy.
Qed.

Lemma rsi_sums_tally (closes : list number) (period : nat) :
  (period + 1 <= List.length closes)%nat ->
  rsi_sums closes period
  = fold_left tally (firstn period (deltas closes)) (num 0, num 0).
Proof.
  intros H. unfold rsi_sums.
  rewrite (fold_left_ext_in _
             (fun acc i => tally acc (nth (i - 1) (deltas closes) NaN))).
  - rewrite (fold_indices_deltas tally (deltas closes) period 0).
    + reflexivity.
    + rewrite deltas_length. lia.
  - intros [gains losses] i Hi. apply in_seq in Hi.
    rewrite change_is_delta by lia. reflexivity.
Qed.

Lemma rsi_smooth_wilder (closes : list number) (period : nat)
    (avg : number * number) :
  (period + 1 <= List.length closes)%nat ->
  rsi_smooth closes period avg
  = fold_left (wilder period) (skipn period (deltas closes)) avg.
Proof.
  intros H. unfold rsi_smooth.
  rewrite (fold_left_ext_in _
             (fun acc i => wilder period acc (nth (i - 1) (deltas closes) NaN))).
  - replace (period + 1)%nat with (S period) by lia.
    rewrite (fold_indices_deltas (wilder period) (deltas closes)).
    + rewrite firstn_all2; [reflexivity |].
      rewrite length_skipn, deltas_length. lia.
    + rewrite deltas_length. lia.
  - intros [avgGain avgLoss] i Hi. apply in_seq in Hi.
    rewrite change_is_delta by lia. reflexivity.
Qed.

(** The revisions with the smoothing loop compute the reference RSI, for
    every series and every period. *)
Lemma calcRSI_smoothed_is_reference (closes : list number) (period : nat) :
  Part003.calcRSI closes period = RSI closes period /\
  Part004.calcRSI closes period = RSI closes period.
Proof.
  assert (H : Part003.calcRSI closes period = RSI closes period).
  { unfold Part003.calcRSI, RSI.
    destruct (List.length closes <? period + 1)%nat eqn:E; [reflexivity |].
    apply Nat.ltb_ge in E.
    rewrite rsi_sums_tally by exact E.
    destruct (fold_left tally _ _) as [gains losses].
    rewrite rsi_smooth_wilder by exact E.
    unfold rsi_result. reflexivity. }
  split; [exact H | exact H].
Qed.

(** The RSI of the named file reads the first [period + 1] closes only:
    the bars that follow never change its result. *)
Lemma calcRSI_ignores_later_bars (closes later : list number) (period : nat) :
  (period + 1 <= List.length closes)%nat ->
  AiService.calcRSI (closes ++ later) period = AiService.calcRSI closes period.
Proof.
  intros H. unfold AiService.calcRSI.
  assert (E1 : (List.length (closes ++ later) <? period + 1)%nat = false)
    by (apply Nat.ltb_ge; rewrite length_app; lia).
  assert (E2 : (List.length closes <? period + 1)%nat = false)
    by (apply Nat.ltb_ge; lia).
  rewrite E1, E2.
  replace (rsi_sums (closes ++ later) period) with (rsi_sums closes period);
    [reflexivity |].
  unfold rsi_sums. apply fold_left_ext_in.
  intros [gains losses] i Hi. apply in_seq in Hi.
  unfold at_. rewrite !app_nth1 by lia. reflexivity.
Qed.

End Rsi.

(** C6 on the code of [src/services/aiService.ts].  Its [calcRSI] has no
    smoothing loop.  On eight rising closes followed by a falling one, with
    period 7, it returns 100, the value for a series without losses; the
    reference RSI, and the [calcRSI] of the two other revisions, return
    600/7 (about 85.71). *)
Theorem calcRSI_without_smoothing :
  Sample.closes = map num [1; 2; 3; 4; 5; 6; 7; 8; 7]%Z /\
  AiService.calcRSI Sample.closes 7 = num 100 /\
  Js.same (Reference.RSI Sample.closes 7) (dec 600 7) /\
  Js.same (Part003.calcRSI Sample.closes 7) (dec 600 7) /\
  (AiService.calcRSI Sample.closes 7 === Reference.RSI Sample.closes 7)%js = false.
Proof.
  vm_compute. repeat split; reflexivity.
Qed.

(* ------------------------------------------------------------------ *)
(** * Indicators on short series *)

(** On a series that is not empty [calcEMA] returns a number. *)
Lemma calcEMA_nonempty (prices : list number) (period : nat) :
  prices <> [] -> exists x, calcEMA prices period = Some x.
Proof.
  intros H. unfold calcEMA. destruct prices as [| p0 rest]; [congruence |].
  destruct (List.length (p0 :: rest) <? period)%nat; [| eauto].
  destruct (nth_error (p0 :: rest) (List.length (p0 :: rest) - 1)) eqn:E; [eauto |].
  apply nth_error_None in E. simpl in E. lia.
Qed.

(** The other indicators return their neutral value on a series shorter
    than their window, the empty one included. *)
Lemma neutral_values (Math_sqrt : number -> number) (data : list number)
    (period : nat) :
  (List.length data < period)%nat ->
  calcSMA data period = num 0 /\
  calcStdDev Math_sqrt data period = num 0 /\
  mid (calcBollinger Math_sqrt data period (num 2)) = num 0 /\
  Js.same (upper (calcBollinger Math_sqrt data period (num 2))) (num 0) /\
  Js.same (lower (calcBollinger Math_sqrt data period (num 2))) (num 0).
Proof.
  intros H. apply Nat.ltb_lt in H.
  unfold calcBollinger, calcStdDev, calcSMA. rewrite H. cbn [mid upper lower].
  repeat split; reflexivity.
Qed.

Lemma neutral_values_rsi_macd (prices : list number) :
  ((List.length prices < 8)%nat -> AiService.calcRSI prices 7 = num 50) /\
  ((List.length prices < 15)%nat -> Part003.calcRSI prices 14 = num 50) /\
  ((List.length prices < 26)%nat ->
     AiService.calcMACD prices = mkMACD (num 0) (num 0) (num 0) /\
     Part003.calcMACD prices = mkMACD (num 0) (num 0) (num 0)).
Proof.
  split; [| split]; intros H; apply Nat.ltb_lt in H.
  - unfold AiService.calcRSI. cbn [Nat.add]. rewrite H. reflexivity.
  - unfold Part003.calcRSI. cbn [Nat.add]. rewrite H. reflexivity.
  - unfold AiService.calcMACD, Part003.calcMACD, calcMACD_with.
    rewrite H. split; reflexivity.
Qed.

Lemma neutral_values_empty :
  calcKDJ [] [] [] 9 = mkKDJ (num 50) (num 50) (num 50) /\
  volRatio [] = num 1.
Proof. split; reflexivity. Qed.

(** C9 on the code.  On the empty series [calcEMA] reads [prices[-1]] and
    returns [undefined], for every period above zero (and [prices[0]], also
    [undefined], for period zero): the one indicator without a neutral
    value. *)
Theorem calcEMA_empty_series_undefined (period : nat) :
  calcEMA [] period = None.
Proof.
  unfold calcEMA. destruct (List.length [] <? period)%nat; reflexivity.
Qed.

(* ------------------------------------------------------------------ *)
(** * Finite series *)

Lemma add_Fin (p q : Q) : (Fin p + Fin q)%js = Fin (p + q).
Proof. reflexivity. Qed.

Lemma sub_Fin (p q : Q) : (Fin p - Fin q)%js = Fin (p + - q).
Proof. reflexivity. Qed.

Lemma nnum_pos (n : nat) : (1 <= n)%nat -> 1 <= inject_Z (Z.of_nat n).
Proof.
  intros H. change 1 with (inject_Z 1). rewrite <- Zle_Qle. lia.
Qed.

Lemma nnum_nonneg (n : nat) : 0 <= inject_Z (Z.of_nat n).
Proof.
  change 0 with (inject_Z 0). rewrite <- Zle_Qle. lia.
Qed.

Lemma slice_last_map {A B : Type} (f : A -> B) (n : nat) (l : list A) :
  slice_last n (map f l) = map f (slice_last n l).
Proof.
  unfold slice_last. rewrite length_map. apply skipn_map.
Qed.

Lemma slice_last_length {A : Type} (n : nat) (l : list A) :
  List.length (slice_last n l) = Nat.min n (List.length l).
Proof. unfold slice_last. rewrite length_skipn. lia. Qed.

Lemma slice_last_Forall {A : Type} (P : A -> Prop) (n : nat) (l : list A) :
  Forall P l -> Forall P (slice_last n l).
Proof.
  intros H. unfold slice_last. rewrite <- (firstn_skipn (List.length l - n) l) in H.
  apply Forall_app in H. apply H.
Qed.

Lemma slice_last_app {A : Type} (n : nat) (old recent : list A) :
  (n <= List.length recent)%nat ->
  slice_last n (old ++ recent) = slice_last n recent.
Proof.
  intros H. unfold slice_last. rewrite length_app, skipn_app.
  rewrite skipn_all2 by lia. simpl.
  f_equal. lia.
Qed.

Lemma slice_last_idem {A : Type} (n : nat) (l : list A) :
  slice_last n (slice_last n l) = slice_last n l.
Proof.
  unfold slice_last at 1. rewrite slice_last_length.
  replace (Nat.min n (List.length l) - n)%nat with 0%nat by lia. reflexivity.
Qed.

Lemma fold_left_invariant {A B : Type} (Inv : A -> Prop) (f : A -> B -> A)
    (l : list B) (init : A) :
  (forall st x, In x l -> Inv st -> Inv (f st x)) ->
  Inv init -> Inv (fold_left f l init).
Proof.
  revert init. induction l as [| x l IH]; intros init Hstep Hinit; [exact Hinit |].
  simpl. apply IH.
  - intros st y Hy. apply Hstep. right. exact Hy.
  - apply Hstep; [left; reflexivity | exact Hinit].
Qed.

Lemma upper_bound (l : list Q) : exists hi, Forall (fun q => q <= hi) l.
Proof.
  induction l as [| q l (hi & H)].
  - exists 0. constructor.
  - destruct (Qlt_le_dec hi q) as [Hq | Hq].
    + exists q. constructor; [lra |].
      eapply Forall_impl; [| exact H]. intros x Hx. cbv beta in Hx. lra.
    + exists hi. constructor; assumption.
Qed.

Lemma lower_bound (l : list Q) : exists lo, Forall (fun q => lo <= q) l.
Proof.
  induction l as [| q l (lo & H)].
  - exists 0. constructor.
  - destruct (Qlt_le_dec q lo) as [Hq | Hq].
    + exists q. constructor; [lra |].
      eapply Forall_impl; [| exact H]. intros x Hx. cbv beta in Hx. lra.
    + exists lo. constructor; assumption.
Qed.

Lemma Forall_and_range (lo hi : Q) (l : list Q) :
  Forall (fun q => lo <= q) l -> Forall (fun q => q <= hi) l ->
  Forall (fun q => lo <= q <= hi) l.
Proof.
  intros H1 H2. rewrite Forall_forall in *. intros q Hq. split; auto.
Qed.

(** A list of finite numbers is the image of a list of rationals. *)
Lemma all_Fin (l : list number) :
  (forall x, In x l -> exists q, x = Fin q) -> exists w, l = map Fin w.
Proof.
  induction l as [| x l IH]; intros H.
  - exists []. reflexivity.
  - destruct (H x (or_introl eq_refl)) as (q & ->).
    destruct IH as (w & ->); [intros y Hy; apply H; right; exact Hy |].
    exists (q :: w). reflexivity.
Qed.

(* ------------------------------------------------------------------ *)
(** * Numbers that are not negative *)

Lemma nn_cases (a : number) :
  not_negative a <->
  a = NaN \/ a = Inf false \/ exists q, a = Fin q /\ 0 <= q.
Proof.
  unfold not_negative, num, of_Z. destruct a as [| [] | q]; cbn [lt].
  - split; auto.
  - split; [discriminate |].
    intros [H | [H | (q & H & _)]]; discriminate.
  - split; auto.
  - change (inject_Z 0) with 0. rewrite Qltb_false. split.
    + intros H. right. right. exists q. auto.
    + intros [H | [H | (q' & H & Hq)]]; try discriminate.
      injection H as ->. exact Hq.
Qed.

Lemma nn_Fin (q : Q) : 0 <= q -> not_negative (Fin q).
Proof. intros H. apply nn_cases. right. right. exists q. auto. Qed.

Lemma nn_nnum (n : nat) : not_negative (nnum n).
Proof. apply nn_Fin. apply nnum_nonneg. Qed.

Lemma Qsquare_nonneg (x : Q) : 0 <= x * x.
Proof.
  destruct (Qlt_le_dec x 0) as [H | H].
  - setoid_replace (x * x) with ((- x) * (- x)) by ring.
    apply Qmult_le_0_compat; lra.
  - apply Qmult_le_0_compat; lra.
Qed.

Lemma Qpos_of_nonzero (q : Q) : 0 <= q -> Qeq_bool q 0 = false -> 0 < q.
Proof.
  intros H E. apply Qeq_bool_false in E.
  destruct (Qlt_le_dec 0 q) as [L | L]; [exact L |].
  exfalso. apply E. lra.
Qed.

Lemma nn_add (a b : number) :
  not_negative a -> not_negative b -> not_negative (a + b)%js.
Proof.
  intros Ha Hb. apply nn_cases in Ha, Hb.
  destruct Ha as [-> | [-> | (p & -> & Hp)]];
    destruct Hb as [-> | [-> | (q & -> & Hq)]];
    apply nn_cases; cbn [add Bool.eqb]; auto.
  right. right. exists (p + q). split; [reflexivity | lra].
Qed.

Lemma nn_mul (a b : number) :
  not_negative a -> not_negative b -> not_negative (a * b)%js.
Proof.
  intros Ha Hb. apply nn_cases in Ha, Hb.
  destruct Ha as [-> | [-> | (p & -> & Hp)]];
    destruct Hb as [-> | [-> | (q & -> & Hq)]];
    apply nn_cases; cbn [mul xorb]; auto.
  - destruct (Qeq_bool q 0); [auto |].
    rewrite (proj2 (Qltb_false q 0) Hq). auto.
  - destruct (Qeq_bool p 0); [auto |].
    rewrite (proj2 (Qltb_false p 0) Hp). auto.
  - right. right. exists (p * q). split; [reflexivity |].
    apply Qmult_le_0_compat; assumption.
Qed.

Lemma nn_div (a b : number) :
  not_negative a -> not_negative b -> not_negative (a / b)%js.
Proof.
  intros Ha Hb. apply nn_cases in Ha, Hb.
  destruct Ha as [-> | [-> | (p & -> & Hp)]];
    destruct Hb as [-> | [-> | (q & -> & Hq)]];
    apply nn_cases; cbn [div xorb]; auto.
  - rewrite (proj2 (Qltb_false q 0) Hq). auto.
  - right. right. exists 0. split; [reflexivity | apply Qle_refl].
  - destruct (Qeq_bool q 0) eqn:E.
    + destruct (Qeq_bool p 0); [auto |].
      rewrite (proj2 (Qltb_false p 0) Hp). auto.
    + right. right. exists (p / q). split; [reflexivity |].
      pose proof (Qpos_of_nonzero q Hq E).
      apply Qle_shift_div_l; lra.
Qed.

Lemma nn_sq (a : number) : not_negative (sq a).
Proof.
  apply nn_cases. unfold sq. destruct a as [| [] | p]; cbn [mul xorb]; auto.
  right. right. exists (p * p). split; [reflexivity | apply Qsquare_nonneg].
Qed.

Lemma nn_sum (l : list number) (a : number) :
  not_negative a -> Forall not_negative l -> not_negative (fold_left Js.add l a).
Proof.
  revert a. induction l as [| x l IH]; intros a Ha Hl; [exact Ha |].
  inversion Hl; subst. simpl. apply IH; [apply nn_add |]; assumption.
Qed.

(** A number above zero is not negative; the opposite of a number that is
    not above zero, or that is below zero, is not negative. *)
Lemma nn_above (c : number) : (c >? num 0)%js = true -> not_negative c.
Proof.
  unfold gt, num, of_Z. intros H. apply nn_cases.
  destruct c as [| [] | q]; cbn [lt] in H; try discriminate; auto.
  apply Qltb_true in H. change (inject_Z 0) with 0 in H.
  right. right. exists q. split; [reflexivity | lra].
Qed.

Lemma nn_neg_not_above (c : number) :
  (c >? num 0)%js = false -> not_negative (neg c).
Proof.
  unfold gt, num, of_Z. intros H. apply nn_cases.
  destruct c as [| [] | q]; cbn [lt] in H; cbn [neg negb]; try discriminate; auto.
  apply Qltb_false in H. change (inject_Z 0) with 0 in H.
  right. right. exists (- q). split; [reflexivity | lra].
Qed.

Lemma nn_neg_below (c : number) :
  (c <? num 0)%js = true -> not_negative (neg c).
Proof.
  unfold num, of_Z. intros H. apply nn_cases.
  destruct c as [| [] | q]; cbn [lt] in H; cbn [neg negb]; try discriminate; auto.
  apply Qltb_true in H. change (inject_Z 0) with 0 in H.
  right. right. exists (- q). split; [reflexivity | lra].
Qed.

(** Adding a number that is not negative never gives less, and taking it
    off never gives more. *)
Lemma add_not_below (m x : number) :
  not_negative x -> (m + x <? m)%js = false.
Proof.
  intros H. apply nn_cases in H.
  destruct H as [-> | [-> | (q & -> & Hq)]]; destruct m as [| [] | p];
    cbn [add lt Bool.eqb andb negb]; try reflexivity.
  apply Qltb_false. lra.
Qed.

Lemma sub_not_above (m x : number) :
  not_negative x -> (m <? m - x)%js = false.
Proof.
  intros H. apply nn_cases in H. unfold sub.
  destruct H as [-> | [-> | (q & -> & Hq)]]; destruct m as [| [] | p];
    cbn [add neg lt Bool.eqb andb negb]; try reflexivity.
  apply Qltb_false. lra.
Qed.

(** A difference above zero has its first term above the second. *)
Lemma sub_above_zero (a b : number) :
  (a - b >? num 0)%js = true -> (a >? b)%js = true.
Proof.
  unfold gt, sub, num, of_Z.
  destruct a as [| [] | p]; destruct b as [| [] | q];
    cbn [add neg lt Bool.eqb andb negb]; try discriminate; try reflexivity.
  intros H. apply Qltb_true in H. change (inject_Z 0) with 0 in H.
  apply Qltb_true. lra.
Qed.

(* ------------------------------------------------------------------ *)
(** * Moving average, deviation and bands *)

Lemma sum_Fin (w : list Q) (a : Q) :
  fold_left Js.add (map Fin w) (Fin a) = Fin (fold_left Qplus w a).
Proof.
  revert a. induction w as [| q w IH]; intros a; [reflexivity |].
  simpl. apply IH.
Qed.

Lemma sum_range (lo hi : Q) (w : list Q) (a : Q) :
  Forall (fun q => lo <= q <= hi) w ->
  a + inject_Z (Z.of_nat (List.length w)) * lo <= fold_left Qplus w a
  /\ fold_left Qplus w a <= a + inject_Z (Z.of_nat (List.length w)) * hi.
Proof.
  revert a. induction w as [| q w IH]; intros a Hall.
  - simpl. change (inject_Z 0) with 0. split; lra.
  - inversion Hall as [| ? ? Hq Hw]; subst.
    destruct (IH (a + q) Hw) as (H1 & H2).
    cbn [fold_left List.length]. rewrite Nat2Z.inj_succ. unfold Z.succ.
    rewrite inject_Z_plus. change (inject_Z 1) with 1.
    set (n := inject_Z (Z.of_nat (List.length w))) in *.
    split; lra.
Qed.

Lemma mean_range (lo hi s n : Q) :
  1 <= n -> n * lo <= s -> s <= n * hi -> lo <= s / n <= hi.
Proof.
  intros Hn H1 H2. split.
  - apply Qle_shift_div_l; lra.
  - apply Qle_shift_div_r; lra.
Qed.

(** In the arithmetic of the model, where a sum of finite values is exact,
    the average of a window of finite values is finite and the sum of the
    squared differences is a finite value that is not negative. *)
Section Window.

Variable data : list number.
Variable period : nat.
Variable w : list Q.
Variables lo hi : Q.

Hypothesis Hperiod : (1 <= period <= List.length data)%nat.
Hypothesis Hwindow : slice_last period data = map Fin w.
Hypothesis Hrange : Forall (fun q => lo <= q <= hi) w.

Lemma window_length : List.length w = period.
Proof.
  apply (f_equal (@List.length number)) in Hwindow.
  rewrite slice_last_length, length_map in Hwindow. lia.
Qed.

Lemma window_not_short : (List.length data <? period)%nat = false.
Proof. apply Nat.ltb_ge. lia. Qed.

Lemma window_count : 1 <= inject_Z (Z.of_nat period).
Proof. apply nnum_pos. lia. Qed.

Lemma sma_window :
  exists m, calcSMA data period = Fin m /\ lo <= m <= hi.
Proof.
  unfold calcSMA. rewrite window_not_short.
  fold (slice_last period data). rewrite Hwindow.
  unfold num, of_Z. change (inject_Z 0) with 0. rewrite sum_Fin.
  pose proof window_count as Hn.
  assert (Hd : ~ inject_Z (Z.of_nat period) == 0) by (intros E; lra).
  unfold nnum, num, of_Z. rewrite (div_Fin _ _ Hd).
  eexists. split; [reflexivity |].
  destruct (sum_range lo hi w 0 Hrange) as (H1 & H2).
  rewrite window_length in H1, H2.
  apply mean_range; lra.
Qed.

Lemma stddev_window (Math_sqrt : number -> number) :
  exists v, calcStdDev Math_sqrt data period = Math_sqrt (Fin v).
Proof.
  destruct sma_window as (m & Hm & Hmr).
  unfold calcStdDev. rewrite window_not_short, Hm.
  fold (slice_last period data). rewrite Hwindow.
  rewrite map_map.
  rewrite (map_ext _ (fun q => Fin ((q + - m) * (q + - m)))) by reflexivity.
  rewrite <- (map_map (fun q => (q + - m) * (q + - m)) Fin).
  unfold num, of_Z. change (inject_Z 0) with 0. rewrite sum_Fin.
  pose proof window_count as Hn.
  assert (Hd : ~ inject_Z (Z.of_nat period) == 0) by (intros E; lra).
  unfold nnum, num, of_Z. rewrite (div_Fin _ _ Hd).
  eexists. reflexivity.
Qed.

End Window.

(** X2.  The moving average, the deviation and the bands read the last
    [period] values only: values in front of them, whatever they are, do
    not change any of the three results. *)
Theorem indicators_read_their_window (Math_sqrt : number -> number)
    (old recent : list number) (period : nat) (multiplier : number) :
  (period <= List.length recent)%nat ->
  calcSMA (old ++ recent) period = calcSMA recent period /\
  calcStdDev Math_sqrt (old ++ recent) period = calcStdDev Math_sqrt recent period /\
  calcBollinger Math_sqrt (old ++ recent) period multiplier
  = calcBollinger Math_sqrt recent period multiplier.
Proof.
  intros H.
  assert (E1 : (List.length (old ++ recent) <? period)%nat = false)
    by (apply Nat.ltb_ge; rewrite length_app; lia).
  assert (E2 : (List.length recent <? period)%nat = false)
    by (apply Nat.ltb_ge; exact H).
  assert (Ew : skipn (List.length (old ++ recent) - period) (old ++ recent)
               = skipn (List.length recent - period) recent)
    by (apply (slice_last_app period old recent H)).
  assert (Es : calcSMA (old ++ recent) period = calcSMA recent period)
    by (unfold calcSMA; rewrite E1, E2, Ew; reflexivity).
  assert (Ed : calcStdDev Math_sqrt (old ++ recent) period
               = calcStdDev Math_sqrt recent period)
    by (unfold calcStdDev; rewrite E1, E2, Ew, Es; reflexivity).
  split; [exact Es |]. split; [exact Ed |].
  unfold calcBollinger. rewrite Es, Ed. reflexivity.
Qed.

(** The theorem on three closes behind a value that is not a number. *)
Lemma indicators_read_their_window_witness :
  calcSMA ([NaN] ++ [Fin 3000; Fin 3010; Fin 2990]) 3
  = calcSMA [Fin 3000; Fin 3010; Fin 2990] 3 /\
  calcStdDev sqrt6 ([NaN] ++ [Fin 3000; Fin 3010; Fin 2990]) 3
  = calcStdDev sqrt6 [Fin 3000; Fin 3010; Fin 2990] 3 /\
  calcBollinger sqrt6 ([NaN] ++ [Fin 3000; Fin 3010; Fin 2990]) 3 (num 2)
  = calcBollinger sqrt6 [Fin 3000; Fin 3010; Fin 2990] 3 (num 2).
Proof.
  apply (indicators_read_their_window sqrt6 [NaN] [Fin 3000; Fin 3010; Fin 2990]
           3 (num 2)).
  simpl. lia.
Defined.

(** X3.  On a series that is not shorter than the period, [calcStdDev]
    calls [Math.sqrt] once, on a number that is never below zero: an
    average of squares.  When the period is at least 1 and the values of
    the window are finite, that number is not [NaN] either. *)
Theorem calcStdDev_argument (data : list number) (period : nat) :
  (period <= List.length data)%nat ->
  exists arg,
    (forall Math_sqrt, calcStdDev Math_sqrt data period = Math_sqrt arg) /\
    not_negative arg /\
    ((1 <= period)%nat ->
     (forall x, In x (slice_last period data) -> exists q, x = Fin q) ->
     isNaN arg = false).
Proof.
  intros Hlen.
  assert (E : (List.length data <? period)%nat = false)
    by (apply Nat.ltb_ge; exact Hlen).
  exists (fold_left Js.add
            (map (fun x => sq (x - calcSMA data period)%js)
                 (skipn (List.length data - period) data)) (num 0)
          / nnum period)%js.
  split; [| split].
  - intros Math_sqrt. unfold calcStdDev. rewrite E. reflexivity.
  - apply nn_div; [| apply nn_nnum].
    apply nn_sum; [apply nn_Fin; apply Qle_refl |].
    apply Forall_forall. intros y Hy. apply in_map_iff in Hy.
    destruct Hy as (x & <- & _). apply nn_sq.
  - intros Hp Hfin.
    destruct (all_Fin _ Hfin) as (w & Hw).
    destruct (lower_bound w) as (lo & Hlo). destruct (upper_bound w) as (hi & Hhi).
    destruct (stddev_window data period w lo hi (conj Hp Hlen) Hw
                (Forall_and_range lo hi w Hlo Hhi) (fun x => x)) as (v & Hv).
    unfold calcStdDev in Hv. rewrite E in Hv. rewrite Hv. reflexivity.
Qed.

(** The theorem on three closes. *)
Lemma calcStdDev_argument_witness :
  exists arg,
    calcStdDev sqrt6 [Fin 3000; Fin 3010; Fin 2990] 3 = sqrt6 arg /\
    not_negative arg /\ isNaN arg = false.
Proof.
  destruct (calcStdDev_argument [Fin 3000; Fin 3010; Fin 2990] 3)
    as (arg & Hcall & Hnn & Hnum).
  - simpl. lia.
  - exists arg. split; [apply Hcall |]. split; [exact Hnn |].
    apply Hnum; [lia |].
    intros x [<- | [<- | [<- | []]]]; eexists; reflexivity.
Defined.

(** X4.  The bands never cross the middle line: with a [Math.sqrt] that
    never returns a number below zero and a multiplier that is not below
    zero, the upper band never compares below the moving average, the
    lower band never above it, and the middle value is the moving average;
    for every series and every period. *)
Theorem calcBollinger_bands (Math_sqrt : number -> number)
    (prices : list number) (period : nat) (multiplier : number) :
  (forall a, not_negative (Math_sqrt a)) ->
  not_negative multiplier ->
  let b := calcBollinger Math_sqrt prices period multiplier in
  mid b = calcSMA prices period /\
  (upper b <? mid b)%js = false /\
  (mid b <? lower b)%js = false.
Proof.
  intros Hsqrt Hmul. cbv zeta. unfold calcBollinger. cbn [mid upper lower].
  assert (Hstd : not_negative (calcStdDev Math_sqrt prices period)).
  { unfold calcStdDev. destruct (List.length prices <? period)%nat.
    - apply nn_Fin. apply Qle_refl.
    - apply Hsqrt. }
  pose proof (nn_mul _ _ Hmul Hstd) as Hx.
  split; [reflexivity |]. split.
  - apply add_not_below. exact Hx.
  - apply sub_not_above. exact Hx.
Qed.

Lemma sqrt6_not_negative (a : number) : not_negative (sqrt6 a).
Proof.
  apply nn_cases. destruct a as [| [] | q]; cbn [sqrt6]; auto.
  right. right. eexists. split; [reflexivity |].
  apply Qle_shift_div_l; [reflexivity |].
  rewrite Qmult_0_l. change 0 with (inject_Z 0). rewrite <- Zle_Qle.
  apply Z.sqrt_nonneg.
Qed.

(** The theorem on three closes, with two deviations on either side. *)
Lemma calcBollinger_bands_witness :
  let b := calcBollinger sqrt6 [Fin 3000; Fin 3010; Fin 2990] 3 (num 2) in
  mid b = calcSMA [Fin 3000; Fin 3010; Fin 2990] 3 /\
  (upper b <? mid b)%js = false /\
  (mid b <? lower b)%js = false.
Proof.
  apply (calcBollinger_bands sqrt6 [Fin 3000; Fin 3010; Fin 2990] 3 (num 2)).
  - exact sqrt6_not_negative.
  - reflexivity.
Defined.

(* ------------------------------------------------------------------ *)
(** * MACD *)

(** The histogram is the MACD line less eight tenths of it: it is above
    zero only when the line is. *)
Lemma hist_above_zero (m : number) :
  (m - m * dec 8 10 >? num 0)%js = true -> (m >? num 0)%js = true.
Proof.
  unfold gt, sub, dec, num, of_Z. destruct m as [| [] | q].
  - intros H. discriminate H.
  - intros H. vm_compute in H. discriminate H.
  - intros H. vm_compute in H. discriminate H.
  - cbn [mul neg add lt]. intros H.
    apply Qltb_true in H. change (inject_Z 0) with 0 in H.
    apply Qltb_true. change (inject_Z 0) with 0. lra.
Qed.

(** X5.  The prompt calls the MACD bullish only when the series has at
    least 26 closes and the average over the short window is above the
    average over the long one; for the windows of the named file (the last
    12 and 26 closes) and of the later revisions (the last 24 and 52). *)
Theorem bullish_macd_has_short_average_above (w12 w26 : nat)
    (prices : list number) :
  Prompt.macdSignalStr (calcMACD_with w12 w26 prices) = "多头趋势 (MACD > Signal)" ->
  (26 <= List.length prices)%nat /\
  (macd (calcMACD_with w12 w26 prices) >? num 0)%js = true /\
  (toNum (calcEMA (slice_last w12 prices) 12)
   >? toNum (calcEMA (slice_last w26 prices) 26))%js = true.
Proof.
  unfold Prompt.macdSignalStr.
  destruct (hist (calcMACD_with w12 w26 prices) >? num 0)%js eqn:E;
    [intros _ | intros H; discriminate H].
  unfold calcMACD_with in *.
  destruct (List.length prices <? 26)%nat eqn:L.
  - cbn [hist] in E. vm_compute in E. discriminate E.
  - apply Nat.ltb_ge in L. cbn [hist macd] in *.
    apply hist_above_zero in E.
    split; [exact L |]. split; [exact E |].
    apply sub_above_zero. exact E.
Qed.

(** The theorem on 25 closes at 3000 followed by one at 3100. *)
Lemma bullish_macd_has_short_average_above_witness :
  (26 <= List.length (map num (repeat 3000%Z 25 ++ [3100%Z])))%nat /\
  (macd (AiService.calcMACD (map num (repeat 3000%Z 25 ++ [3100%Z]))) >? num 0)%js
  = true.
Proof.
  destruct (bullish_macd_has_short_average_above 12 26
              (map num (repeat 3000%Z 25 ++ [3100%Z])))
    as (Hlen & Hmacd & _).
  - vm_compute. reflexivity.
  - split; [exact Hlen | exact Hmacd].
Defined.

(** X6.  The MACD of the named file reads the last 26 closes only: closes
    put in front of them do not change the result. *)
Theorem calcMACD_reads_last_26 (old recent : list number) :
  (26 <= List.length recent)%nat ->
  AiService.calcMACD (old ++ recent) = AiService.calcMACD (slice_last 26 recent).
Proof.
  intros H. unfold AiService.calcMACD, calcMACD_with.
  rewrite length_app, slice_last_length.
  assert (E1 : (List.length old + List.length recent <? 26)%nat = false)
    by (apply Nat.ltb_ge; lia).
  assert (E2 : (Nat.min 26 (List.length recent) <? 26)%nat = false)
    by (apply Nat.ltb_ge; lia).
  rewrite E1, E2.
  rewrite !slice_last_app by lia.
  rewrite slice_last_idem.
  assert (E3 : slice_last 12 (slice_last 26 recent) = slice_last 12 recent).
  { unfold slice_last. rewrite length_skipn, skipn_skipn. f_equal. lia. }
  rewrite E3. reflexivity.
Qed.

(** The theorem on 26 closes behind two older ones. *)
Lemma calcMACD_reads_last_26_witness :
  AiService.calcMACD ([NaN; num 1] ++ map num (repeat 3000%Z 26))
  = AiService.calcMACD (slice_last 26 (map num (repeat 3000%Z 26))).
Proof.
  apply calcMACD_reads_last_26. vm_compute. lia.
Defined.

(* ------------------------------------------------------------------ *)
(** * The range of the RSI *)

(** The sums of the first loop and the averages of the smoothing loop are
    never below zero, whatever the closes are. *)
Lemma rsi_sums_nn (prices : list number) (period : nat) :
  not_negative (fst (rsi_sums prices period)) /\
  not_negative (snd (rsi_sums prices period)).
Proof.
  unfold rsi_sums.
  apply (fold_left_invariant
           (fun st => not_negative (fst st) /\ not_negative (snd st))).
  - intros [g l] i _ (Hg & Hl). cbn [fst snd] in Hg, Hl. cbv beta iota.
    destruct (at_ prices i - at_ prices (i - 1) >? num 0)%js eqn:E; cbn [fst snd].
    + split; [| exact Hl]. apply nn_add; [exact Hg |]. apply nn_above. exact E.
    + split; [exact Hg |]. unfold sub at 1. apply nn_add; [exact Hl |].
      apply nn_neg_not_above. exact E.
  - split; apply nn_Fin; apply Qle_refl.
Qed.

Lemma rsi_smooth_nn (prices : list number) (period : nat) (avg : number * number) :
  (1 <= period)%nat ->
  not_negative (fst avg) -> not_negative (snd avg) ->
  not_negative (fst (rsi_smooth prices period avg)) /\
  not_negative (snd (rsi_smooth prices period avg)).
Proof.
  intros Hp Hg Hl. unfold rsi_smooth.
  assert (Hp1 : not_negative (nnum period - num 1)%js).
  { unfold nnum, num, of_Z. rewrite sub_Fin. apply nn_Fin.
    pose proof (nnum_pos period Hp). change (inject_Z 1) with 1. lra. }
  apply (fold_left_invariant
           (fun st => not_negative (fst st) /\ not_negative (snd st)));
    [| split; assumption].
  intros [g l] i _ (Hg' & Hl'). cbn [fst snd] in Hg', Hl'. cbv beta iota zeta.
  cbn [fst snd]. split.
  - apply nn_div; [| apply nn_nnum]. apply nn_add; [apply nn_mul; assumption |].
    destruct (_ >? _)%js eqn:E; [apply nn_above; exact E | apply nn_Fin; apply Qle_refl].
  - apply nn_div; [| apply nn_nnum]. apply nn_add; [apply nn_mul; assumption |].
    destruct (_ <? _)%js eqn:E; [apply nn_neg_below; exact E | apply nn_Fin; apply Qle_refl].
Qed.

(** On finite averages that are not negative the last statements give a
    finite number between 0 and 100, and 100 when the average loss is
    zero. *)
Lemma rsi_result_range (g l : Q) :
  0 <= g -> 0 <= l ->
  exists r,
    rsi_result (Fin g, Fin l) = Fin r /\ 0 <= r <= 100 /\
    (l == 0 -> rsi_result (Fin g, Fin l) = num 100).
Proof.
  intros Hg Hl. unfold rsi_result, num, of_Z.
  change (Fin l === Fin (inject_Z 0))%js with (Qeq_bool l 0).
  destruct (Qeq_bool l 0) eqn:E.
  - exists (inject_Z 100). change (inject_Z 100) with 100.
    split; [reflexivity |]. split; [lra | reflexivity].
  - pose proof (Qpos_of_nonzero l Hl E) as Hl0.
    apply Qeq_bool_false in E.
    assert (Hq : 0 <= g / l) by (apply Qle_shift_div_l; lra).
    change (inject_Z 100) with 100. change (inject_Z 1) with 1.
    assert (Hd : ~ 1 + g / l == 0) by (intros H; lra).
    rewrite (div_Fin _ _ E), add_Fin, (div_Fin _ _ Hd), sub_Fin.
    eexists. split; [reflexivity |].
    assert (H1 : 0 < 100 / (1 + g / l)) by (apply Qlt_shift_div_l; lra).
    assert (H2 : 100 / (1 + g / l) <= 100) by (apply Qle_shift_div_r; lra).
    split; [lra |].
    intros H. exfalso. apply E. exact H.
Qed.

(** The last statements of [calcRSI] never leave the range from 0 to 100,
    whatever the two averages are, as long as neither is below zero. *)
Lemma rsi_result_bounds (g l : number) :
  not_negative g -> not_negative l ->
  (rsi_result (g, l) <? num 0)%js = false /\
  (rsi_result (g, l) >? num 100)%js = false.
Proof.
  intros Hg Hl. apply nn_cases in Hg, Hl.
  destruct Hg as [-> | [-> | (p & -> & Hp)]];
    destruct Hl as [-> | [-> | (q & -> & Hq)]];
    try (split; reflexivity).
  - unfold rsi_result.
    change (Fin q === num 0)%js with (Qeq_bool q 0).
    destruct (Qeq_bool q 0); split; reflexivity.
  - unfold rsi_result.
    change (Fin q === num 0)%js with (Qeq_bool q 0).
    destruct (Qeq_bool q 0) eqn:E; [split; reflexivity |].
    cbn [div xorb]. rewrite (proj2 (Qltb_false q 0) Hq). split; reflexivity.
  - destruct (rsi_result_range p q Hp Hq) as (r & -> & (H0 & H100) & _).
    unfold gt, num, of_Z. cbn [lt]. split; apply Qltb_false.
    + change (inject_Z 0) with 0. exact H0.
    + change (inject_Z 100) with 100. exact H100.
Qed.

(** X7.  For a period of at least 1 the RSI never compares below 0 or
    above 100, whatever the closes are, in the named file as in the
    revisions with the smoothing loop. *)
Theorem calcRSI_between_0_and_100 (prices : list number) (period : nat) :
  (1 <= period)%nat ->
  ((AiService.calcRSI prices period <? num 0)%js = false /\
   (AiService.calcRSI prices period >? num 100)%js = false) /\
  ((Part003.calcRSI prices period <? num 0)%js = false /\
   (Part003.calcRSI prices period >? num 100)%js = false).
Proof.
  intros Hp. unfold AiService.calcRSI, Part003.calcRSI.
  destruct (List.length prices <? period + 1)%nat.
  - repeat split; reflexivity.
  - destruct (rsi_sums_nn prices period) as (Hg & Hl).
    destruct (rsi_sums prices period) as [gains losses]. cbn [fst snd] in Hg, Hl.
    assert (Hga : not_negative (gains / nnum period)%js)
      by (apply nn_div; [exact Hg | apply nn_nnum]).
    assert (Hla : not_negative (losses / nnum period)%js)
      by (apply nn_div; [exact Hl | apply nn_nnum]).
    split; [apply rsi_result_bounds; assumption |].
    destruct (rsi_smooth_nn prices period
                ((gains / nnum period)%js, (losses / nnum period)%js) Hp Hga Hla)
      as (Hg2 & Hl2).
    destruct (rsi_smooth prices period _) as [g2 l2]. cbn [fst snd] in Hg2, Hl2.
    apply rsi_result_bounds; assumption.
Qed.

(** The theorem on eight rising closes followed by a falling one. *)
Lemma calcRSI_between_0_and_100_witness :
  ((AiService.calcRSI Sample.closes 7 <? num 0)%js = false /\
   (AiService.calcRSI Sample.closes 7 >? num 100)%js = false) /\
  ((Part003.calcRSI Sample.closes 7 <? num 0)%js = false /\
   (Part003.calcRSI Sample.closes 7 >? num 100)%js = false).
Proof.
  apply (calcRSI_between_0_and_100 Sample.closes 7). lia.
Defined.

(* ------------------------------------------------------------------ *)
(** * The RSI of a series that never falls *)

Section RsiFlat.

Import Reference.

Lemma deltas_from_Fin (qs : list Q) (prev : Q) :
  exists ds,
    deltas_from (Fin prev) (map Fin qs) = map Fin ds /\
    List.length ds = List.length qs /\
    (never_falls (prev :: qs) -> Forall (fun x => 0 <= x) ds).
Proof.
  revert prev. induction qs as [| q qs IH]; intros prev.
  - exists []. repeat split; constructor.
  - destruct (IH q) as (ds & E & L & Hr).
    exists ((q + - prev) :: ds). cbn [map deltas_from]. rewrite E, sub_Fin.
    split; [reflexivity |]. split; [simpl; lia |].
    intros (H1 & H2). constructor; [lra | apply Hr; exact H2].
Qed.

Lemma deltas_Fin (qs : list Q) :
  exists ds,
    deltas (map Fin qs) = map Fin ds /\
    List.length ds = (List.length qs - 1)%nat /\
    (never_falls qs -> Forall (fun x => 0 <= x) ds).
Proof.
  destruct qs as [| q qs].
  - exists []. repeat split; constructor.
  - destruct (deltas_from_Fin qs q) as (ds & E & L & Hr).
    exists ds. cbn [map deltas]. repeat split; try assumption. simpl. lia.
Qed.

Lemma tally_fold (ds : list Q) (g l : Q) :
  0 <= g -> 0 <= l ->
  exists g' l',
    fold_left tally (map Fin ds) (Fin g, Fin l) = (Fin g', Fin l') /\
    0 <= g' /\ l <= l' /\
    (Forall (fun x => 0 <= x) ds -> l' == l).
Proof.
  revert g l. induction ds as [| x ds IH]; intros g l Hg Hl.
  - exists g, l. repeat split; try lra.
  - cbn [map fold_left]. unfold tally at 2.
    change (Fin x >? num 0)%js with (Qltb (inject_Z 0) x).
    destruct (Qltb (inject_Z 0) x) eqn:E.
    + apply Qltb_true in E. change (inject_Z 0) with 0 in E.
      rewrite add_Fin.
      destruct (IH (g + x) l) as (g' & l' & F & Hg' & Hl' & Hp); [lra | lra |].
      exists g', l'. split; [exact F |]. split; [exact Hg' |]. split; [exact Hl' |].
      intros H. inversion H; subst. auto.
    + apply Qltb_false in E. change (inject_Z 0) with 0 in E.
      rewrite sub_Fin.
      destruct (IH g (l + - x)) as (g' & l' & F & Hg' & Hl' & Hp); [lra | lra |].
      exists g', l'. split; [exact F |]. split; [exact Hg' |]. split; [lra |].
      intros H. inversion H as [| ? ? Hx Hds]; subst.
      rewrite (Hp Hds). lra.
Qed.

Lemma wilder_Fin (period : nat) (g l x : Q) :
  (1 <= period)%nat -> 0 <= g -> 0 <= l ->
  exists g' l',
    wilder period (Fin g, Fin l) (Fin x) = (Fin g', Fin l') /\
    0 <= g' /\ 0 <= l' /\
    (0 <= x -> l == 0 -> l' == 0).
Proof.
  intros Hp Hg Hl. pose proof (nnum_pos period Hp) as HP.
  assert (Hd : ~ inject_Z (Z.of_nat period) == 0) by (intros E; lra).
  unfold wilder, gain, loss, nnum, num, of_Z.
  change (Fin x >? Fin (inject_Z 0))%js with (Qltb 0 x).
  change (Fin x <? Fin (inject_Z 0))%js with (Qltb x 0).
  change (inject_Z 1) with 1. change (inject_Z 0) with 0.
  set (P := inject_Z (Z.of_nat period)) in *.
  assert (HgP : 0 <= g * (P + - 1)) by (apply Qmult_le_0_compat; lra).
  assert (HlP : 0 <= l * (P + - 1)) by (apply Qmult_le_0_compat; lra).
  destruct (Qltb 0 x) eqn:E1; destruct (Qltb x 0) eqn:E2;
    try apply Qltb_true in E1; try apply Qltb_false in E1;
    try apply Qltb_true in E2; try apply Qltb_false in E2;
    cbn [neg]; rewrite sub_Fin, !mul_Fin, !add_Fin, !(div_Fin _ _ Hd);
    eexists _, _; (split; [reflexivity |]).
  - lra.
  - repeat split.
    + apply Qle_shift_div_l; lra.
    + apply Qle_shift_div_l; lra.
    + intros _ Hl0. rewrite Hl0. field. exact Hd.
  - repeat split.
    + apply Qle_shift_div_l; lra.
    + apply Qle_shift_div_l; lra.
    + intros H. lra.
  - repeat split.
    + apply Qle_shift_div_l; lra.
    + apply Qle_shift_div_l; lra.
    + intros _ Hl0. rewrite Hl0. field. exact Hd.
Qed.

Lemma wilder_fold (period : nat) (ds : list Q) (g l : Q) :
  (1 <= period)%nat -> 0 <= g -> 0 <= l ->
  exists g' l',
    fold_left (wilder period) (map Fin ds) (Fin g, Fin l) = (Fin g', Fin l') /\
    0 <= g' /\ 0 <= l' /\
    (Forall (fun x => 0 <= x) ds -> l == 0 -> l' == 0).
Proof.
  intros Hp. revert g l. induction ds as [| x ds IH]; intros g l Hg Hl.
  - exists g, l. repeat split; auto.
  - cbn [map fold_left].
    destruct (wilder_Fin period g l x Hp Hg Hl) as (g1 & l1 & E & Hg1 & Hl1 & A).
    rewrite E.
    destruct (IH g1 l1 Hg1 Hl1) as (g' & l' & F & Hg' & Hl' & A').
    exists g', l'. split; [exact F |]. split; [exact Hg' |]. split; [exact Hl' |].
    intros H Hl0. inversion H; subst. auto.
Qed.

(** The two loops of [calcRSI] on a finite series that is long enough. *)
Lemma rsi_loops (qs : list Q) (period : nat) :
  (1 <= period)%nat -> (period + 1 <= List.length qs)%nat ->
  exists g l g2 l2,
    (let '(gains, losses) := rsi_sums (map Fin qs) period in
     ((gains / nnum period)%js, (losses / nnum period)%js)) = (Fin g, Fin l) /\
    rsi_smooth (map Fin qs) period (Fin g, Fin l) = (Fin g2, Fin l2) /\
    0 <= g /\ 0 <= l /\ 0 <= g2 /\ 0 <= l2 /\
    (never_falls qs -> l == 0 /\ l2 == 0).
Proof.
  intros Hp Hlen. pose proof (nnum_pos period Hp) as HP.
  assert (Hd : ~ inject_Z (Z.of_nat period) == 0) by (intros E; lra).
  assert (Hlen' : (period + 1 <= List.length (map Fin qs))%nat)
    by (rewrite length_map; exact Hlen).
  rewrite rsi_sums_tally by exact Hlen'.
  destruct (deltas_Fin qs) as (ds & Eds & Lds & Hflat).
  rewrite Eds, firstn_map.
  destruct (tally_fold (firstn period ds) 0 0) as (g0 & l0 & F & Hg0 & Hl0 & A);
    [lra | lra |].
  change (num 0) with (Fin 0). rewrite F.
  unfold nnum, num, of_Z. rewrite !(div_Fin _ _ Hd).
  set (P := inject_Z (Z.of_nat period)) in *.
  assert (Hga : 0 <= g0 / P) by (apply Qle_shift_div_l; lra).
  assert (Hla : 0 <= l0 / P) by (apply Qle_shift_div_l; lra).
  exists (g0 / P), (l0 / P).
  rewrite rsi_smooth_wilder by exact Hlen'. rewrite Eds, skipn_map.
  destruct (wilder_fold period (skipn period ds) (g0 / P) (l0 / P) Hp Hga Hla)
    as (g2 & l2 & G & Hg2 & Hl2 & A2).
  exists g2, l2. split; [reflexivity |]. split; [exact G |].
  split; [exact Hga |]. split; [exact Hla |]. split; [exact Hg2 |]. split; [exact Hl2 |].
  intros Hr. pose proof (Hflat Hr) as Hall.
  rewrite <- (firstn_skipn period ds) in Hall. apply Forall_app in Hall.
  destruct Hall as (H1 & H2).
  assert (El : l0 / P == 0) by (rewrite (A H1); field; exact Hd).
  split; [exact El | apply A2; assumption].
Qed.

(** X8.  On a series of finite closes that is longer than the period (at
    least 1) and in which no close is below the one before it, the RSI is
    100, in the named file as in the revisions with the smoothing loop: a
    flat series, which has no gain either, is given the RSI of a series
    that only rises. *)
Theorem calcRSI_of_series_that_never_falls (qs : list Q) (period : nat) :
  (1 <= period)%nat -> (period + 1 <= List.length qs)%nat ->
  never_falls qs ->
  AiService.calcRSI (map Fin qs) period = num 100 /\
  Part003.calcRSI (map Fin qs) period = num 100.
Proof.
  intros Hp Hlen Hflat. unfold AiService.calcRSI, Part003.calcRSI. rewrite length_map.
  assert (E : (List.length qs <? period + 1)%nat = false) by (apply Nat.ltb_ge; exact Hlen).
  rewrite E.
  destruct (rsi_loops qs period Hp Hlen)
    as (g & l & g2 & l2 & F & G & Hg & Hl & Hg2 & Hl2 & Hzero).
  destruct (rsi_sums (map Fin qs) period) as [gains losses].
  rewrite F, G.
  destruct (Hzero Hflat) as (A & B).
  destruct (rsi_result_range g l Hg Hl) as (_ & _ & _ & R).
  destruct (rsi_result_range g2 l2 Hg2 Hl2) as (_ & _ & _ & R2).
  split; [apply R; exact A | apply R2; exact B].
Qed.

End RsiFlat.

(** The theorem on a series that rises and on a flat one. *)
Lemma calcRSI_of_series_that_never_falls_witness :
  Part003.calcRSI (map Fin [1; 2; 3; 4; 5; 6; 7; 8; 9]) 7 = num 100 /\
  AiService.calcRSI (map Fin [5; 5; 5; 5; 5; 5; 5; 5; 5]) 7 = num 100.
Proof.
  split.
  - apply (calcRSI_of_series_that_never_falls [1; 2; 3; 4; 5; 6; 7; 8; 9] 7);
      [lia | simpl; lia |].
    simpl. repeat split; vm_compute; discriminate.
  - apply (calcRSI_of_series_that_never_falls [5; 5; 5; 5; 5; 5; 5; 5; 5] 7);
      [lia | simpl; lia |].
    simpl. repeat split; vm_compute; discriminate.
Defined.

(* ------------------------------------------------------------------ *)
(** * KDJ *)

(** X9.  Before the first full window, that is on fewer closes than the
    period, K, D and J keep their start value 50, whatever the highs and
    the lows are. *)
Theorem calcKDJ_before_first_window (highs lows closes : list number) (period : nat) :
  (List.length closes < period)%nat ->
  calcKDJ highs lows closes period = mkKDJ (num 50) (num 50) (num 50).
Proof.
  intros H. unfold calcKDJ.
  apply (fold_left_invariant (fun st => st = mkKDJ (num 50) (num 50) (num 50)));
    [| reflexivity].
  intros st i Hi ->. apply in_seq in Hi.
  assert (E : (i + 1 <? period)%nat = true) by (apply Nat.ltb_lt; lia).
  rewrite E. reflexivity.
Qed.

(** The theorem on eight closes and the period 9. *)
Lemma calcKDJ_before_first_window_witness :
  calcKDJ [] [NaN] (map num [1; 2; 3; 4; 5; 6; 7; 8]%Z) 9
  = mkKDJ (num 50) (num 50) (num 50).
Proof.
  apply calcKDJ_before_first_window. simpl. lia.
Defined.

Section KdjRange.

Variable candles : list (Q * Q * Q).
Variable period : nat.

Hypothesis Hcandles :
  Forall (fun c => snd (fst c) <= snd c /\ snd c <= fst (fst c)) candles.

Lemma candle_at (i : nat) :
  (i < List.length candles)%nat ->
  exists h l c,
    nth_error (highs_of candles) i = Some (Fin h) /\
    nth_error (lows_of candles) i = Some (Fin l) /\
    at_ (closes_of candles) i = Fin c /\
    l <= c /\ c <= h.
Proof.
  intros Hi. destruct (nth_error candles i) as [[[h l] c] |] eqn:E.
  - exists h, l, c. unfold highs_of, lows_of, closes_of, at_.
    rewrite !nth_error_map, E. cbn [option_map fst snd].
    split; [reflexivity |]. split; [reflexivity |].
    split.
    + apply nth_error_nth. rewrite nth_error_map, E. reflexivity.
    + rewrite Forall_forall in Hcandles.
      apply (Hcandles (h, l, c)). eapply nth_error_In. exact E.
  - apply nth_error_None in E. lia.
Qed.

(** The window search ends on a low that is not above, and a high that is
    not below, those of the candle it starts from. *)
Lemma kdj_window_bounds (i : nat) (h l : Q) :
  (i < List.length candles)%nat ->
  nth_error (highs_of candles) i = Some (Fin h) ->
  nth_error (lows_of candles) i = Some (Fin l) ->
  exists a b,
    kdj_window (highs_of candles) (lows_of candles) period i
    = (Some (Fin a), Some (Fin b)) /\ a <= l /\ h <= b.
Proof.
  intros Hi Hh Hl. unfold kdj_window. rewrite Hh, Hl.
  apply (fold_left_invariant
           (fun st => exists a b, st = (Some (Fin a), Some (Fin b)) /\ a <= l /\ h <= b)).
  - intros st x _ (a & b & -> & Ha & Hb).
    destruct (candle_at (i - x)) as (hx & lx & _ & Ehx & Elx & _); [lia |].
    rewrite Ehx, Elx. cbn [toNum].
    change (Fin lx <? Fin a)%js with (Qltb lx a).
    change (Fin hx >? Fin b)%js with (Qltb b hx).
    destruct (Qltb lx a) eqn:E1; destruct (Qltb b hx) eqn:E2;
      try apply Qltb_true in E1; try apply Qltb_true in E2;
      eexists _, _; (split; [reflexivity |]); split; lra.
  - exists l, h. split; [reflexivity |]. split; lra.
Qed.

Lemma third_steps :
  (num 2 / num 3)%js = Fin (2 # 3) /\ (num 1 / num 3)%js = Fin (1 # 3).
Proof. split; reflexivity. Qed.

(** In the arithmetic of the model K and D are finite and lie between 0
    and 100. *)
Lemma kdj_range :
  exists kq dq j,
    calcKDJ (highs_of candles) (lows_of candles) (closes_of candles) period
    = mkKDJ (Fin kq) (Fin dq) j /\
    0 <= kq <= 100 /\ 0 <= dq <= 100.
Proof.
  unfold calcKDJ.
  apply (fold_left_invariant
           (fun st => exists kq dq j,
                st = mkKDJ (Fin kq) (Fin dq) j /\
                0 <= kq <= 100 /\ 0 <= dq <= 100)).
  - intros st i Hi (kq & dq & jq & -> & Hk & Hd).
    apply in_seq in Hi. unfold closes_of in Hi. rewrite length_map in Hi.
    destruct (i + 1 <? period)%nat; [eauto 10 |].
    destruct (candle_at i) as (h & l & c & Eh & El & Ec & Hlc & Hch); [lia |].
    destruct (kdj_window_bounds i h l) as (a & b & Ew & Ha & Hb); [lia | assumption .. |].
    rewrite Ew, Ec. cbn [toNum strict_eq k d].
    destruct third_steps as (E23 & E13). rewrite E23, E13.
    change (Fin b === Fin a)%js with (Qeq_bool b a).
    assert (Hrsv : exists rsv,
               (if Qeq_bool b a then num 50
                else ((Fin c - Fin a) / (Fin b - Fin a) * num 100)%js) = Fin rsv
               /\ 0 <= rsv <= 100).
    { destruct (Qeq_bool b a) eqn:E.
      - exists (inject_Z 50). split; [reflexivity |].
        change (inject_Z 50) with 50. lra.
      - apply Qeq_bool_false in E.
        assert (Hba : 0 < b + - a)
          by (destruct (Qlt_le_dec 0 (b + - a)); [assumption |];
              exfalso; apply E; lra).
        assert (Hnz : ~ b + - a == 0) by (intros H; lra).
        rewrite !sub_Fin, (div_Fin _ _ Hnz). unfold num, of_Z. rewrite mul_Fin.
        eexists. split; [reflexivity |].
        change (inject_Z 100) with 100.
        assert (H0 : 0 <= (c + - a) / (b + - a)) by (apply Qle_shift_div_l; lra).
        assert (H1 : (c + - a) / (b + - a) <= 1) by (apply Qle_shift_div_r; lra).
        lra. }
    destruct Hrsv as (rsv & -> & Hr).
    rewrite !mul_Fin, !add_Fin.
    eexists _, _, _. split; [reflexivity |].
    split; lra.
  - exists (inject_Z 50), (inject_Z 50), (num 50).
    split; [reflexivity |]. change (inject_Z 50) with 50.
    split; lra.
Qed.

(** X10.  On candles with finite prices whose close lies between the low
    and the high, neither K nor D ever compares below 0 or above 100, for
    every period. *)
Theorem calcKDJ_between_0_and_100 :
  let r :=
    calcKDJ (highs_of candles) (lows_of candles) (closes_of candles) period in
  (k r <? num 0)%js = false /\ (k r >? num 100)%js = false /\
  (d r <? num 0)%js = false /\ (d r >? num 100)%js = false.
Proof.
  cbv zeta. destruct kdj_range as (kq & dq & j & -> & (Hk0 & Hk1) & (Hd0 & Hd1)).
  cbn [k d]. unfold gt, num, of_Z. cbn [lt].
  change (inject_Z 0) with 0. change (inject_Z 100) with 100.
  repeat split; apply Qltb_false; assumption.
Qed.

End KdjRange.

(** The theorem on three candles and the period 2. *)
Lemma calcKDJ_between_0_and_100_witness :
  let r :=
    calcKDJ (highs_of [(3, 1, 2); (4, 2, 4); (5, 3, 3)])
            (lows_of [(3, 1, 2); (4, 2, 4); (5, 3, 3)])
            (closes_of [(3, 1, 2); (4, 2, 4); (5, 3, 3)]) 2 in
  (k r <? num 0)%js = false /\ (k r >? num 100)%js = false /\
  (d r <? num 0)%js = false /\ (d r >? num 100)%js = false.
Proof.
  apply (calcKDJ_between_0_and_100 [(3, 1, 2); (4, 2, 4); (5, 3, 3)] 2).
  repeat constructor; vm_compute; discriminate.
Defined.

(* ------------------------------------------------------------------ *)
(** * Volume ratio, stages and the figures of the prompt *)

(** X11.  On finite volumes the volume ratio is a finite number: the
    division is made only by a five-bar average above zero, and the ratio
    is 1 whenever the average is not above zero, in particular on fewer
    than five bars.  It is not negative when no volume is. *)
Theorem volRatio_finite (qs : list Q) :
  exists r,
    volRatio (map Fin qs) = Fin r /\
    ((calcSMA (map Fin qs) 5 >? num 0)%js = false -> volRatio (map Fin qs) = num 1) /\
    ((List.length qs < 5)%nat -> volRatio (map Fin qs) = num 1) /\
    (Forall (fun q => 0 <= q) qs -> 0 <= r).
Proof.
  assert (Hone : (calcSMA (map Fin qs) 5 >? num 0)%js = false ->
                 volRatio (map Fin qs) = num 1)
    by (intros H; unfold volRatio; rewrite H; reflexivity).
  assert (Hshort : (List.length qs < 5)%nat -> volRatio (map Fin qs) = num 1).
  { intros Hs. apply Hone. unfold calcSMA. rewrite length_map.
    apply Nat.ltb_lt in Hs. rewrite Hs. reflexivity. }
  destruct (Nat.lt_ge_cases (List.length qs) 5) as [Hs | Hl].
  - exists (inject_Z 1). split; [apply Hshort; exact Hs |].
    split; [exact Hone |]. split; [exact Hshort |].
    intros _. change (inject_Z 1) with 1. lra.
  - destruct (lower_bound qs) as (lo & Hlo). destruct (upper_bound qs) as (hi & Hhi).
    pose proof (Forall_and_range lo hi qs Hlo Hhi) as Hr.
    destruct (sma_window (map Fin qs) 5 (slice_last 5 qs) lo hi) as (m & Hm & _).
    + rewrite length_map. lia.
    + apply slice_last_map.
    + apply slice_last_Forall. exact Hr.
    + clear Hone Hshort. unfold volRatio. rewrite Hm, length_map.
      change (Fin m >? num 0)%js with (Qltb 0 m).
      destruct (Qltb 0 m) eqn:E.
      * apply Qltb_true in E.
        assert (Hnz : ~ m == 0) by (intros H; lra).
        destruct (nth_error qs (List.length qs - 1)) as [v |] eqn:Ev;
          [| apply nth_error_None in Ev; lia].
        assert (Ea : at_ (map Fin qs) (List.length qs - 1) = Fin v).
        { unfold at_. apply nth_error_nth. rewrite nth_error_map, Ev. reflexivity. }
        rewrite Ea, (div_Fin _ _ Hnz).
        eexists. split; [reflexivity |]. split; [intros H; discriminate H |].
        split; [intros; lia |].
        intros Hpos. rewrite Forall_forall in Hpos.
        apply Qle_shift_div_l; [exact E |].
        rewrite Qmult_0_l. apply Hpos. eapply nth_error_In. exact Ev.
      * exists (inject_Z 1). split; [reflexivity |].
        split; [reflexivity |]. split; [reflexivity |].
        intros _. change (inject_Z 1) with 1. lra.
Qed.

(** The theorem on five volumes, where the last one is divided by their
    average, and on three. *)
Lemma volRatio_finite_witness :
  (exists r, volRatio (map Fin [10; 20; 30; 40; 50]) = Fin r /\ 0 <= r) /\
  volRatio (map Fin [10; 20; 30]) = num 1.
Proof.
  split.
  - destruct (volRatio_finite [10; 20; 30; 40; 50]) as (r & Hr & _ & _ & H0).
    exists r. split; [exact Hr |].
    apply H0. repeat constructor; vm_compute; discriminate.
  - destruct (volRatio_finite [10; 20; 30]) as (r & _ & _ & H1 & _).
    apply H1. simpl. lia.
Defined.

(** X12.  The leverage of the stage never grows with the total equity, and
    a total equity that is not a number selects the last stage, the one
    for 80 and more. *)
Theorem stage_leverage_never_grows :
  (forall e1 e2 : Q, e1 <= e2 ->
     (Stage.leverage (currentStageParams (Fin e2))
      <=? Stage.leverage (currentStageParams (Fin e1)))%js = true) /\
  currentStageParams NaN = STRATEGY_STAGES.STAGE_3 /\
  currentStageParams (Inf false) = STRATEGY_STAGES.STAGE_3 /\
  currentStageParams (Inf true) = STRATEGY_STAGES.STAGE_1.
Proof.
  split; [| repeat split].
  intros e1 e2 H. unfold currentStageParams, num, of_Z.
  change (Fin e1 <? Fin (inject_Z 20))%js with (Qltb e1 20).
  change (Fin e2 <? Fin (inject_Z 20))%js with (Qltb e2 20).
  change (Fin e1 <? Fin (inject_Z 80))%js with (Qltb e1 80).
  change (Fin e2 <? Fin (inject_Z 80))%js with (Qltb e2 80).
  destruct (Qltb e1 20) eqn:A1; destruct (Qltb e2 20) eqn:A2;
    destruct (Qltb e1 80) eqn:B1; destruct (Qltb e2 80) eqn:B2;
    try reflexivity;
    try apply Qltb_true in A1; try apply Qltb_false in A1;
    try apply Qltb_true in A2; try apply Qltb_false in A2;
    try apply Qltb_true in B1; try apply Qltb_false in B1;
    try apply Qltb_true in B2; try apply Qltb_false in B2;
    exfalso; lra.
Qed.

(** The theorem at the equities 10 and 100. *)
Lemma stage_leverage_never_grows_witness :
  (Stage.leverage (currentStageParams (Fin 100))
   <=? Stage.leverage (currentStageParams (Fin 10)))%js = true.
Proof.
  destruct stage_leverage_never_grows as (H & _).
  apply (H 10 100). vm_compute. discriminate.
Defined.

(** X13.  On finite inputs neither the daily change nor the turnover rate
    of the prompt is [NaN]: each division is made only by a divisor above
    zero, and the figure is 0 when the opening price, or the product of the
    open interest and the price, is not above zero. *)
Theorem prompt_ratios_are_numbers (price open24h vol oi : Q) :
  isNaN (Prompt.dailyChange (Fin price) (Fin open24h)) = false /\
  (open24h <= 0 -> Prompt.dailyChange (Fin price) (Fin open24h) = num 0) /\
  isNaN (Prompt.turnoverRate (Fin vol) (Fin oi) (Fin price)) = false /\
  (oi * price <= 0 -> Prompt.turnoverRate (Fin vol) (Fin oi) (Fin price) = num 0).
Proof.
  assert (A : isNaN (Prompt.dailyChange (Fin price) (Fin open24h)) = false /\
              (open24h <= 0 ->
               Prompt.dailyChange (Fin price) (Fin open24h) = num 0)).
  { unfold Prompt.dailyChange.
    change (Fin open24h >? num 0)%js with (Qltb 0 open24h).
    destruct (Qltb 0 open24h) eqn:E.
    - apply Qltb_true in E. assert (Hnz : ~ open24h == 0) by (intros H; lra).
      rewrite sub_Fin, (div_Fin _ _ Hnz). split; [reflexivity |]. intros H. lra.
    - split; reflexivity. }
  assert (B : isNaN (Prompt.turnoverRate (Fin vol) (Fin oi) (Fin price)) = false /\
              (oi * price <= 0 ->
               Prompt.turnoverRate (Fin vol) (Fin oi) (Fin price) = num 0)).
  { unfold Prompt.turnoverRate, CONTRACT_VAL_ETH, dec. rewrite !mul_Fin.
    change (Fin (oi * (1 # 10) * price) >? num 0)%js
      with (Qltb 0 (oi * (1 # 10) * price)).
    destruct (Qltb 0 (oi * (1 # 10) * price)) eqn:E.
    - apply Qltb_true in E.
      assert (Hnz : ~ oi * (1 # 10) * price == 0) by (intros H; lra).
      rewrite (div_Fin _ _ Hnz). split; [reflexivity |]. intros H. lra.
    - split; reflexivity. }
  destruct A as (A1 & A2). destruct B as (B1 & B2). auto.
Qed.

(** The theorem at an opening price of zero and at a market without open
    interest, where no division is made, and at a market where both
    divisions are. *)
Lemma prompt_ratios_are_numbers_witness :
  Prompt.dailyChange (Fin 3000) (Fin 0) = num 0 /\
  Prompt.turnoverRate (Fin 5) (Fin 0) (Fin 3000) = num 0 /\
  isNaN (Prompt.dailyChange (Fin 3100) (Fin 3000)) = false /\
  isNaN (Prompt.turnoverRate (Fin 5) (Fin 7) (Fin 3100)) = false.
Proof.
  destruct (prompt_ratios_are_numbers 3000 0 5 0) as (_ & H1 & _ & H2).
  destruct (prompt_ratios_are_numbers 3100 3000 5 7) as (H3 & _ & H4 & _).
  split; [apply H1; vm_compute; discriminate |].
  split; [apply H2; vm_compute; discriminate |].
  split; [exact H3 | exact H4].
Defined.

(** X14.  Before the indicators have their windows the prompt still
    carries a reading: on fewer than 26 closes the MACD text is the bearish
    one, on fewer than 20 closes a positive price is reported as a break
    above the upper band, and on fewer than 9 closes the KDJ text is the
    falling cross. *)
Theorem prompt_signals_without_data (Math_sqrt : number -> number)
    (highs lows closes : list number) (price : Q) :
  ((List.length closes < 26)%nat ->
     Prompt.macdSignalStr (Part003.calcMACD closes) = "空头趋势 (MACD < Signal)") /\
  ((List.length closes < 20)%nat -> 0 < price ->
     Prompt.bollPosStr (Fin price) (calcBollinger Math_sqrt closes 20 (num 2))
     = "突破上轨 (超买/强势)") /\
  ((List.length closes < 9)%nat ->
     Prompt.kdjSignalStr (calcKDJ highs lows closes 9) = "死叉向下").
Proof.
  split; [| split].
  - intros H. apply Nat.ltb_lt in H.
    unfold Part003.calcMACD, calcMACD_with. rewrite H. reflexivity.
  - intros H Hp. apply Nat.ltb_lt in H.
    unfold calcBollinger, calcStdDev, calcSMA. rewrite H.
    unfold Prompt.bollPosStr. cbn [upper].
    assert (E : (Fin price >? num 0 + num 2 * num 0)%js = true).
    { apply lt_Fin. change (inject_Z 0 + inject_Z 2 * inject_Z 0) with (0 + 2 * 0). lra. }
    rewrite E. reflexivity.
  - intros H.
    assert (E : calcKDJ highs lows closes 9 = mkKDJ (num 50) (num 50) (num 50)).
    { unfold calcKDJ.
      apply (fold_left_invariant (fun st => st = mkKDJ (num 50) (num 50) (num 50)));
        [| reflexivity].
      intros st i Hi ->. apply in_seq in Hi.
      assert (E : (i + 1 <? 9)%nat = true) by (apply Nat.ltb_lt; lia).
      rewrite E. reflexivity. }
    rewrite E. reflexivity.
Qed.

(** The theorem on three closes. *)
Lemma prompt_signals_without_data_witness :
  Prompt.macdSignalStr (Part003.calcMACD (map num [1; 2; 3]%Z)) = "空头趋势 (MACD < Signal)" /\
  Prompt.bollPosStr (Fin 3000) (calcBollinger sqrt6 (map num [1; 2; 3]%Z) 20 (num 2))
  = "突破上轨 (超买/强势)" /\
  Prompt.kdjSignalStr (calcKDJ [] [] (map num [1; 2; 3]%Z) 9) = "死叉向下".
Proof.
  destruct (prompt_signals_without_data sqrt6 [] [] (map num [1; 2; 3]%Z) 3000)
    as (A & B & C).
  split; [apply A; simpl; lia |].
  split; [apply B; [simpl; lia | reflexivity] | apply C; simpl; lia].
Defined.

(* ------------------------------------------------------------------ *)
(** * The dispatch of a cycle *)

Lemma append_assoc (a b c : string) : ((a ++ b) ++ c = a ++ (b ++ c))%string.
Proof.
  induction a as [| ch a IH]; [reflexivity |].
  simpl. rewrite IH. reflexivity.
Qed.

Lemma calls_app (a b : list Server.Event) :
  Server.calls (a ++ b)%list = (Server.calls a ++ Server.calls b)%list.
Proof.
  induction a as [| e a IH]; [reflexivity |].
  destruct e; simpl; rewrite IH; reflexivity.
Qed.

Section Dispatch.

Variable exchange : Server.ExchangeCall -> Server.Reply.
Variable typeError : string.
Variable decision : Decision.t.
Variable positions : list Server.Position.

Let primary := find (fun p => String.eqb (Server.instId p) INSTRUMENT_ID) positions.
Let evs := Server.executeActions exchange typeError decision positions.

(** The calls of a cycle, by the action of the decision. *)
Lemma cycle_calls :
  Server.calls evs
  = if is_str (Decision.action decision) "UPDATE_TPSL" then
      match primary with
      | Some p =>
          match Decision.trading_decision decision with
          | Some td =>
              if (Server.isValid (TD.stop_loss td)
                  || Server.isValid (TD.profit_target td))%bool
              then
                if String.eqb (Server.posSide p) "net" then []
                else [Server.updatePositionTPSL INSTRUMENT_ID (Server.posSide p)
                        (Server.pos p)
                        (if Server.isValid (TD.stop_loss td)
                         then Some (ToString (TD.stop_loss td)) else None)
                        (if Server.isValid (TD.profit_target td)
                         then Some (ToString (TD.profit_target td)) else None)]
              else []
          | None => []
          end
      | None => []
      end
    else if is_str (Decision.action decision) "HOLD" then
      match primary with
      | Some p =>
          if (parseFloat (Server.uplRatio p) * num 100 >=? num 50)%js
          then [Server.addMargin INSTRUMENT_ID (Server.posSide p) "add"
                  (toFixed2 (parseFloat (Server.upl p) * dec 5 10)%js)]
          else []
      | None => []
      end
    else [Server.executeOrder decision].
Proof.
  subst evs. unfold Server.executeActions. fold primary.
  destruct (is_str (Decision.action decision) "UPDATE_TPSL") eqn:Eu.
  - assert (Eh : is_str (Decision.action decision) "HOLD" = false).
    { apply is_str_eq in Eu. rewrite Eu. reflexivity. }
    unfold Server.rolling. rewrite Eh.
    destruct primary as [p |]; [| reflexivity].
    unfold Server.updateTPSL.
    destruct (Decision.trading_decision decision) as [td |]; [| reflexivity].
    destruct (Server.isValid (TD.stop_loss td) || Server.isValid (TD.profit_target td))%bool;
      [| reflexivity].
    destruct (String.eqb (Server.posSide p) "net"); [reflexivity |].
    rewrite app_nil_r. cbn [Server.calls].
    destruct (exchange _); reflexivity.
  - destruct (is_str (Decision.action decision) "HOLD") eqn:Eh; cbn [negb].
    + cbn [app]. unfold Server.rolling. rewrite Eh.
      destruct primary as [p |]; [| reflexivity].
      destruct (_ >=? _)%js; [| reflexivity].
      cbn [Server.calls]. destruct (exchange _); reflexivity.
    + rewrite calls_app. unfold Server.rolling. rewrite Eh.
      assert (En : Server.calls (match primary with Some _ => [] | None => [] end) = [])
        by (destruct primary; reflexivity).
      rewrite En, app_nil_r. cbn [Server.calls].
      destruct (exchange _); reflexivity.
Qed.

(** The dispatch makes at most one call. *)
Lemma dispatch_calls_once : (List.length (Server.calls evs) <= 1)%nat.
Proof.
  rewrite cycle_calls.
  destruct (is_str (Decision.action decision) "UPDATE_TPSL");
    [| destruct (is_str (Decision.action decision) "HOLD")];
    repeat match goal with
           | |- context [match ?x with _ => _ end] => destruct x
           end; simpl; lia.
Qed.

(** X16.  The kind of the call follows from the action: [executeOrder] is
    called with the decision itself and only for an action other than HOLD
    and UPDATE_TPSL; [updatePositionTPSL] only for UPDATE_TPSL, on the
    primary position and never in [net] mode; [addMargin] only for HOLD, on
    a primary position whose profit ratio times 100 is at least 50, with
    the type "add" and half the unrealised profit printed with two
    decimals. *)
Theorem call_follows_action (c : Server.ExchangeCall) :
  In c (Server.calls evs) ->
  match c with
  | Server.executeOrder d' =>
      d' = decision /\
      is_str (Decision.action decision) "HOLD" = false /\
      is_str (Decision.action decision) "UPDATE_TPSL" = false
  | Server.updatePositionTPSL i ps po sl tp =>
      is_str (Decision.action decision) "UPDATE_TPSL" = true /\
      exists p, primary = Some p /\ i = INSTRUMENT_ID /\
                ps = Server.posSide p /\ po = Server.pos p /\
                Server.posSide p <> "net"
  | Server.addMargin i ps ty amt =>
      is_str (Decision.action decision) "HOLD" = true /\
      exists p, primary = Some p /\ i = INSTRUMENT_ID /\
                ps = Server.posSide p /\ ty = "add" /\
                (parseFloat (Server.uplRatio p) * num 100 >=? num 50)%js = true /\
                amt = toFixed2 (parseFloat (Server.upl p) * dec 5 10)%js
  end.
Proof.
  rewrite cycle_calls.
  destruct (is_str (Decision.action decision) "UPDATE_TPSL") eqn:Eu.
  - destruct primary as [p |]; [| intros []].
    destruct (Decision.trading_decision decision) as [td |]; [| intros []].
    destruct (Server.isValid (TD.stop_loss td) || Server.isValid (TD.profit_target td))%bool;
      [| intros []].
    destruct (String.eqb (Server.posSide p) "net") eqn:En; [intros [] |].
    intros [<- | []]. split; [reflexivity |].
    exists p. apply String.eqb_neq in En. repeat split; auto.
  - destruct (is_str (Decision.action decision) "HOLD") eqn:Eh.
    + destruct primary as [p |]; [| intros []].
      destruct (_ >=? _)%js eqn:Er; [| intros []].
      intros [<- | []]. split; [reflexivity |].
      exists p. repeat split; auto.
    + intros [<- | []]. repeat split; auto.
Qed.

(** The log entry that reports the reply to a call. *)
Lemma dispatch_reports (c : Server.ExchangeCall) :
  In c (Server.calls evs) ->
  exists before entry,
    evs = (before ++ [Server.Call c; entry])%list /\
    Server.calls before = [] /\
    match exchange c, c with
    | Server.Thrown message, _ =>
        exists text, entry = Server.addLog Server.ERROR (text ++ message)
    | Server.Resolved msg, Server.updatePositionTPSL _ _ _ _ _ =>
        exists text, entry = Server.addLog Server.SUCCESS (text ++ msg)
    | Server.Resolved msg, Server.executeOrder _ =>
        exists text, entry = Server.addLog Server.TRADE (text ++ msg)
    | Server.Resolved _, Server.addMargin _ _ _ _ =>
        entry = Server.addLog Server.TRADE "滚仓成功"
    end.
Proof.
  subst evs. unfold Server.executeActions. fold primary.
  destruct (is_str (Decision.action decision) "UPDATE_TPSL") eqn:Eu.
  - assert (Eh : is_str (Decision.action decision) "HOLD" = false).
    { apply is_str_eq in Eu. rewrite Eu. reflexivity. }
    unfold Server.rolling. rewrite Eh.
    destruct primary as [p |]; [| intros []].
    unfold Server.updateTPSL.
    destruct (Decision.trading_decision decision) as [td |]; [| intros []].
    destruct (Server.isValid (TD.stop_loss td) || Server.isValid (TD.profit_target td))%bool;
      [| intros []].
    destruct (String.eqb (Server.posSide p) "net"); [intros [] |].
    rewrite app_nil_r.
    match goal with |- context [exchange ?x] => set (c0 := x) end.
    intros Hin. destruct (exchange c0) eqn:E;
      cbn [Server.calls] in Hin; destruct Hin as [<- | []];
      exists []; eexists; (split; [reflexivity |]); (split; [reflexivity |]);
      rewrite E; unfold c0; eexists; reflexivity.
  - destruct (is_str (Decision.action decision) "HOLD") eqn:Eh; cbn [negb].
    + cbn [app]. unfold Server.rolling. rewrite Eh.
      destruct primary as [p |]; [| intros []].
      destruct (_ >=? _)%js; [| intros []].
      match goal with |- context [exchange ?x] => set (c0 := x) end.
      intros Hin. destruct (exchange c0) eqn:E;
        cbn [Server.calls] in Hin; destruct Hin as [<- | []];
        eexists [_]; eexists; (split; [reflexivity |]); (split; [reflexivity |]);
        rewrite E; unfold c0; [reflexivity | eexists; reflexivity].
    + unfold Server.rolling. rewrite Eh.
      assert (En : match primary with Some _ => [] | None => [] end = @nil Server.Event)
        by (destruct primary; reflexivity).
      rewrite En, app_nil_r.
      match goal with |- context [exchange ?x] => set (c0 := x) end.
      intros Hin. destruct (exchange c0) eqn:E;
        cbn [Server.calls] in Hin; destruct Hin as [<- | []];
        exists []; eexists; (split; [reflexivity |]); (split; [reflexivity |]);
        rewrite E; unfold c0; [| eexists; reflexivity].
      exists ("执行订单: " ++ ToString (Decision.action decision) ++ " "
              ++ ToString (Decision.size decision) ++ " 张. 结果: ").
      rewrite !append_assoc. reflexivity.
Qed.

End Dispatch.

(** The theorem at an order that is executed. *)
Lemma call_follows_action_witness :
  let out :=
    AiService.validate "" STRATEGY_STAGES.STAGE_1 (num 50) (num 3000)
      (Sample.order "BUY" "100" "20") in
  out = out /\
  is_str (Decision.action out) "HOLD" = false /\
  is_str (Decision.action out) "UPDATE_TPSL" = false.
Proof.
  apply (call_follows_action Sample.accept ""
           (AiService.validate "" STRATEGY_STAGES.STAGE_1 (num 50) (num 3000)
              (Sample.order "BUY" "100" "20"))
           []
           (Server.executeOrder
              (AiService.validate "" STRATEGY_STAGES.STAGE_1 (num 50) (num 3000)
                 (Sample.order "BUY" "100" "20")))).
  left. reflexivity.
Defined.

(** The calls of the handler are those of the dispatch. *)
Lemma afterDecision_calls (exchange : Server.ExchangeCall -> Server.Reply)
    (typeError : string) (substringError : value -> string)
    (substring_0_10 : string -> string) (decision : Decision.t)
    (positions : list Server.Position) (c : Server.ExchangeCall) :
  In c (Server.calls
          (Server.afterDecision exchange typeError substringError substring_0_10
             decision positions)) ->
  In c (Server.calls (Server.executeActions exchange typeError decision positions)).
Proof.
  unfold Server.afterDecision.
  destruct (Decision.stage_analysis decision); cbn [Server.calls];
    intros H; try (destruct H; fail); exact H.
Qed.

(* ------------------------------------------------------------------ *)
(** * From the answer to the exchange *)

Section Pipeline.

Variable SAFETY : number.
Variable note_small : number -> string.
Variable note_micro : option string.
Variable exchange : Server.ExchangeCall -> Server.Reply.
Variable typeError : string.
Variable substringError : value -> string.
Variable substring_0_10 : string -> string.
Variable message : string.
Variable stage : Stage.t.
Variables availableEquity currentPrice : number.
Variable raw : Decision.t.
Variable positions : list Server.Position.

Let out :=
  validate SAFETY note_small note_micro message stage availableEquity
    currentPrice raw.
Let evs := Server.executeActions exchange typeError out positions.

(** What the post-processing returns as an opening order. *)
Lemma postProcess_opening (d : Decision.t) :
  postProcess SAFETY note_small note_micro stage availableEquity currentPrice raw
  = Some d ->
  opens d = true ->
  exists td,
    Decision.trading_decision raw = Some td /\
    let sz := sizing SAFETY stage availableEquity td in
    let n := numContracts (positionValue sz) currentPrice in
    (positionValue sz <? MIN_OPEN_VALUE)%js = false /\
    (n <? dec 1 100)%js = false /\
    Decision.size d = VStr (toFixed2 n) /\
    Decision.leverage d = VStr (toString (safeLeverage sz)).
Proof.
  unfold postProcess. intros H Ho.
  destruct (Decision.trading_decision raw) as [td |]; [| discriminate].
  destruct (TD.action td) as [| | tok | x]; try discriminate.
  exists td. split; [reflexivity |]. cbv zeta.
  set (sz := sizing SAFETY stage availableEquity td) in *.
  fold_order_test tok raw in H.
  destruct (is_order (toUpperCase tok)) eqn:Eord.
  - destruct (positionValue sz <? MIN_OPEN_VALUE)%js eqn:Epv.
    + injection H as <-. discriminate Ho.
    + destruct (numContracts (positionValue sz) currentPrice <? dec 1 100)%js eqn:En.
      * destruct note_micro; injection H as <-; discriminate Ho.
      * injection H as <-. repeat split.
  - injection H as <-. exfalso.
    unfold opens in Ho. simpl in Ho. unfold is_order in Eord.
    rewrite Eord in Ho. discriminate Ho.
Qed.

(** X18.  An opening order reaches the exchange only as the validator
    returned it: when a cycle calls [executeOrder] with a BUY or a SELL, the
    position value was not below 100, the contract count not below 0.01,
    the size is that count printed with two decimals and the leverage the
    normalised one. *)
Theorem orders_are_validated (d : Decision.t) :
  In (Server.executeOrder d) (Server.calls evs) ->
  opens d = true ->
  d = out /\
  exists td,
    Decision.trading_decision raw = Some td /\
    let sz := sizing SAFETY stage availableEquity td in
    let n := numContracts (positionValue sz) currentPrice in
    (positionValue sz <? MIN_OPEN_VALUE)%js = false /\
    (n <? dec 1 100)%js = false /\
    Decision.size d = VStr (toFixed2 n) /\
    Decision.leverage d = VStr (toString (safeLeverage sz)).
Proof.
  intros Hin Ho.
  assert (Hd : d = out).
  { subst evs. rewrite cycle_calls in Hin.
    destruct (is_str (Decision.action out) "UPDATE_TPSL").
    - destruct (find _ positions) as [p |]; [| destruct Hin].
      destruct (Decision.trading_decision out) as [td |]; [| destruct Hin].
      destruct (_ || _)%bool; [| destruct Hin].
      destruct (String.eqb _ _); [destruct Hin |].
      destruct Hin as [H | []]. discriminate H.
    - destruct (is_str (Decision.action out) "HOLD").
      + destruct (find _ positions) as [p |]; [| destruct Hin].
        destruct (_ >=? _)%js; [| destruct Hin].
        destruct Hin as [H | []]. discriminate H.
      + destruct Hin as [H | []]. injection H as <-. reflexivity. }
  split; [exact Hd |]. subst d. subst out. unfold validate in *.
  destruct (postProcess SAFETY note_small note_micro stage availableEquity
              currentPrice raw) as [d |] eqn:E.
  - apply (postProcess_opening d E Ho).
  - discriminate Ho.
Qed.

(** X19.  When the answer has no [trading_decision], when its action is
    not a string, or when it asks for a BUY or a SELL whose position value
    is below 100, the validator returns the action HOLD with the size "0",
    and the handler then places no order and changes no stop: the only
    call that it can make is [addMargin]. *)
Theorem unusable_answers_place_no_order :
  (Decision.trading_decision raw = None
   \/ (exists td, Decision.trading_decision raw = Some td /\
                  forall tok, TD.action td <> VStr tok)
   \/ (exists td tok,
         Decision.trading_decision raw = Some td /\
         TD.action td = VStr tok /\
         is_order (toUpperCase tok) = true /\
         (positionValue (sizing SAFETY stage availableEquity td)
          <? MIN_OPEN_VALUE)%js = true)) ->
  Decision.action out = VStr "HOLD" /\
  Decision.size out = VStr "0" /\
  forall c,
    In c (Server.calls
            (Server.afterDecision exchange typeError substringError
               substring_0_10 out positions)) ->
    exists i ps ty amt, c = Server.addMargin i ps ty amt.
Proof.
  intros Hcase.
  assert (Hhold : Decision.action out = VStr "HOLD" /\ Decision.size out = VStr "0").
  { subst out. unfold validate.
    destruct Hcase as [Hn | [(td & Htd & Hns) | (td & tok & Htd & Htok & Hord & Hpv)]].
    - unfold postProcess. rewrite Hn. split; reflexivity.
    - unfold postProcess. rewrite Htd.
      destruct (TD.action td) as [| | tok | x]; try (split; reflexivity).
      exfalso. apply (Hns tok). reflexivity.
    - unfold postProcess. rewrite Htd, Htok.
      fold_order_test tok raw. rewrite Hord, Hpv. split; reflexivity. }
  destruct Hhold as (Hhold & Hsize).
  split; [exact Hhold |]. split; [exact Hsize |].
  intros c Hin. apply afterDecision_calls in Hin.
  rewrite cycle_calls in Hin. rewrite Hhold in Hin.
  cbn [is_str] in Hin.
  change (String.eqb "HOLD" "UPDATE_TPSL") with false in Hin.
  change (String.eqb "HOLD" "HOLD") with true in Hin.
  cbv iota in Hin.
  destruct (find _ positions) as [p |]; [| destruct Hin].
  destruct (_ >=? _)%js; [| destruct Hin].
  destruct Hin as [<- | []]. eauto.
Qed.

End Pipeline.

(** The theorem at the order of the sizing example. *)
Lemma orders_are_validated_witness :
  let out :=
    AiService.validate "" STRATEGY_STAGES.STAGE_1 (num 50) (num 3000)
      (Sample.order "BUY" "100" "20") in
  exists td,
    Decision.trading_decision (Sample.order "BUY" "100" "20") = Some td /\
    (numContracts (positionValue (AiService.sizing STRATEGY_STAGES.STAGE_1 (num 50) td))
       (num 3000) <? dec 1 100)%js = false.
Proof.
  destruct (orders_are_validated AiService.SAFETY AiService.note_small
              AiService.note_micro Sample.accept "" "" STRATEGY_STAGES.STAGE_1
              (num 50) (num 3000) (Sample.order "BUY" "100" "20") []
              (AiService.validate "" STRATEGY_STAGES.STAGE_1 (num 50) (num 3000)
                 (Sample.order "BUY" "100" "20")))
    as (_ & td & Htd & _ & Hn & _).
  - left. reflexivity.
  - reflexivity.
  - exists td. split; [exact Htd | exact Hn].
Defined.

(** The theorem at an answer without [trading_decision], on a position
    whose profit ratio is 60 %. *)
Lemma unusable_answers_place_no_order_witness :
  let out :=
    AiService.validate "" STRATEGY_STAGES.STAGE_1 (num 50) (num 3000)
      (Decision.mk Undefined Undefined Undefined Undefined None
         Undefined Undefined Undefined Undefined) in
  Decision.action out = VStr "HOLD" /\
  Decision.size out = VStr "0" /\
  exists i ps ty amt,
    Server.addMargin INSTRUMENT_ID "long" "add" "0.60" = Server.addMargin i ps ty amt.
Proof.
  destruct (unusable_answers_place_no_order AiService.SAFETY AiService.note_small
              AiService.note_micro Sample.accept "" (fun _ => "") (fun s => s) ""
              STRATEGY_STAGES.STAGE_1 (num 50) (num 3000)
              (Decision.mk Undefined Undefined Undefined Undefined None
                 Undefined Undefined Undefined Undefined)
              [Server.mkPosition INSTRUMENT_ID "long" "3" "1.2" "0.6"])
    as (Hact & Hsize & Hcalls).
  - left. reflexivity.
  - split; [exact Hact |]. split; [exact Hsize |].
    apply Hcalls. vm_compute. left. reflexivity.
Defined.

(* ------------------------------------------------------------------ *)
(** * The cycle as a whole *)

Lemma outward_events (evs : list Server.Event) :
  Server.outward (map Server.Do evs)
  = map (fun c => Server.Do (Server.Call c)) (Server.calls evs).
Proof.
  induction evs as [| [c | t m] evs IH]; cbn [map Server.outward Server.calls];
    [reflexivity | f_equal; exact IH | exact IH].
Qed.

Section Cycle.

Variable exchange : Server.ExchangeCall -> Server.Reply.
Variable typeError : string.
Variable substringError : value -> string.
Variable substring_0_10 : string -> string.
Variable MarketDataCollection : Type.
Variable fetchMarketData : Server.Await (option MarketDataCollection).
Variable fetchAccountData : Server.Await (option Server.AccountContext).
Variable getTradingDecision :
  MarketDataCollection -> Server.AccountContext -> Server.Await Decision.t.
Variable isRunning : bool.
Variables now lastAnalysisTime : Z.

Let afterDecision :=
  Server.afterDecision exchange typeError substringError substring_0_10.
Let cycle :=
  Server.runTradingLoop exchange typeError substringError substring_0_10
    MarketDataCollection fetchMarketData fetchAccountData getTradingDecision
    isRunning now lastAnalysisTime.

(** What leaves the process after the decision: at most one call. *)
Lemma afterDecision_outward (decision : Decision.t) (positions : list Server.Position) :
  Server.outward (map Server.Do (afterDecision decision positions)) = []
  \/ exists c,
       Server.outward (map Server.Do (afterDecision decision positions))
       = [Server.Do (Server.Call c)].
Proof.
  rewrite outward_events.
  assert (H : (List.length (Server.calls (afterDecision decision positions)) <= 1)%nat).
  { subst afterDecision. unfold Server.afterDecision.
    destruct (Decision.stage_analysis decision); cbn [Server.calls List.length];
      try lia.
    apply dispatch_calls_once. }
  destruct (Server.calls (afterDecision decision positions)) as [| c [| c' r]].
  - left. reflexivity.
  - right. exists c. reflexivity.
  - simpl in H. lia.
Qed.

(** X15.  What a cycle sends out of the process, in order: the fetch of
    the market data, then, when that has not failed, the fetch of the
    account data, then, at most once, the call of the reasoning service,
    and after it at most one call among [executeOrder],
    [updatePositionTPSL] and [addMargin].  The reasoning service is called
    only while the engine is running and when at least 15 seconds have
    passed since the last analysis, and [lastAnalysisTime] then becomes
    the time of the cycle. *)
Theorem one_dispatch_per_cycle :
  let steps := fst cycle in
  (Server.outward steps = [Server.FetchMarketData]
   \/ Server.outward steps = [Server.FetchMarketData; Server.FetchAccountData]
   \/ Server.outward steps
      = [Server.FetchMarketData; Server.FetchAccountData; Server.GetTradingDecision]
   \/ exists c,
        Server.outward steps
        = [Server.FetchMarketData; Server.FetchAccountData;
           Server.GetTradingDecision; Server.Do (Server.Call c)]) /\
  (In Server.GetTradingDecision steps ->
   isRunning = true /\ (15000 <= now - lastAnalysisTime)%Z /\ snd cycle = now).
Proof.
  cbv zeta. subst cycle. unfold Server.runTradingLoop.
  assert (Hwait : forall message,
            Server.outward
              (if isRunning
               then [Server.Do (Server.addLog Server.ERROR
                                  ("数据同步失败: " ++ message))]
               else []) = []
            /\ ~ In Server.GetTradingDecision
                   (if isRunning
                    then [Server.Do (Server.addLog Server.ERROR
                                       ("数据同步失败: " ++ message))]
                    else []))
    by (intros message; destruct isRunning; split; try reflexivity;
        intros H; simpl in H; intuition discriminate).
  destruct fetchMarketData as [marketData | message]; cbn [fst snd].
  2:{ destruct (Hwait message) as (E & Hn). cbn [Server.outward]. rewrite E.
      split; [left; reflexivity |].
      intros [H | H]; [discriminate H | destruct (Hn H)]. }
  destruct fetchAccountData as [accountData | message]; cbn [fst snd].
  2:{ destruct (Hwait message) as (E & Hn). cbn [Server.outward]. rewrite E.
      split; [right; left; reflexivity |].
      intros [H | [H | H]]; [discriminate H .. | destruct (Hn H)]. }
  destruct isRunning; cbn [negb fst snd].
  2:{ split; [right; left; reflexivity |].
      intros [H | [H | []]]; discriminate H. }
  destruct (now - lastAnalysisTime <? 15000)%Z eqn:Et; cbn [fst snd].
  { split; [right; left; reflexivity |].
    intros [H | [H | []]]; discriminate H. }
  apply Z.ltb_ge in Et.
  split; [| intros _; auto].
  cbn [app Server.outward].
  destruct marketData as [marketData |]; [| right; left; reflexivity].
  destruct accountData as [accountData |]; [| right; left; reflexivity].
  cbn [Server.outward].
  destruct (getTradingDecision marketData accountData) as [decision | message].
  - destruct (afterDecision_outward decision (Server.positions accountData))
      as [E | (c & E)]; subst afterDecision; rewrite E.
    + right. right. left. reflexivity.
    + right. right. right. exists c. reflexivity.
  - right. right. left. reflexivity.
Qed.

(** X17.  The reply to a call of the handler is the next and the last
    thing that the handler logs: after a call that throws, an ERROR entry
    that ends with the message of the error; after an order or an update
    of the stops that resolves, a TRADE or a SUCCESS entry that ends with
    the message of the reply; after an [addMargin] that resolves, the TRADE
    entry of the rolling.  No other call comes before it.  A fetch that
    fails ends the cycle, and is logged only while the engine is
    running. *)
Theorem call_is_followed_by_its_report (decision : Decision.t)
    (positions : list Server.Position) :
  (forall c,
     In c (Server.calls (afterDecision decision positions)) ->
     exists before entry,
       afterDecision decision positions
       = (before ++ [Server.Call c; entry])%list /\
       Server.calls before = [] /\
       match exchange c, c with
       | Server.Thrown message, _ =>
           exists text, entry = Server.addLog Server.ERROR (text ++ message)
       | Server.Resolved msg, Server.updatePositionTPSL _ _ _ _ _ =>
           exists text, entry = Server.addLog Server.SUCCESS (text ++ msg)
       | Server.Resolved msg, Server.executeOrder _ =>
           exists text, entry = Server.addLog Server.TRADE (text ++ msg)
       | Server.Resolved _, Server.addMargin _ _ _ _ =>
           entry = Server.addLog Server.TRADE "滚仓成功"
       end) /\
  (forall message,
     fetchMarketData = Server.Threw message
     \/ (exists data, fetchMarketData = Server.Returned data)
        /\ fetchAccountData = Server.Threw message ->
     Server.logged (fst cycle)
     = if isRunning then [(Server.ERROR, "数据同步失败: " ++ message)] else []).
Proof.
  split.
  - intros c Hin. subst afterDecision. unfold Server.afterDecision in *.
    destruct (Decision.stage_analysis decision) as [| | s | x];
      try (destruct Hin; fail).
    cbn [Server.calls] in Hin.
    destruct (dispatch_reports exchange typeError decision positions c Hin)
      as (before & entry & E & Hb & Hentry).
    exists (Server.addLog Server.INFO
              (Server.decisionLog substring_0_10 decision s) :: before), entry.
    split; [rewrite E; reflexivity |]. split; [exact Hb | exact Hentry].
  - intros message Hfail. subst cycle. unfold Server.runTradingLoop.
    destruct Hfail as [-> | ((data & ->) & ->)]; destruct isRunning; reflexivity.
Qed.

End Cycle.

(** The theorem at a running engine whose last analysis is 20 seconds old
    and whose reasoning service returns a BUY. *)
Lemma one_dispatch_per_cycle_witness :
  let out :=
    AiService.validate "" STRATEGY_STAGES.STAGE_1 (num 50) (num 3000)
      (Sample.order "BUY" "100" "20") in
  let cycle :=
    Server.runTradingLoop Sample.accept "" (fun _ => "") (fun s => s) unit
      (Server.Returned (Some tt))
      (Server.Returned (Some (Server.mkAccount [])))
      (fun _ _ => Server.Returned out) true 20000 0 in
  Server.outward (fst cycle)
  = [Server.FetchMarketData; Server.FetchAccountData; Server.GetTradingDecision;
     Server.Do (Server.Call (Server.executeOrder out))] /\
  snd cycle = 20000%Z.
Proof.
  split; [reflexivity |].
  apply (one_dispatch_per_cycle Sample.accept "" (fun _ => "") (fun s => s) unit
           (Server.Returned (Some tt))
           (Server.Returned (Some (Server.mkAccount [])))
           (fun _ _ =>
              Server.Returned
                (AiService.validate "" STRATEGY_STAGES.STAGE_1 (num 50) (num 3000)
                   (Sample.order "BUY" "100" "20")))
           true 20000 0).
  right. right. right. left. reflexivity.
Defined.

(** The theorem at an exchange that refuses the order. *)
Lemma call_is_followed_by_its_report_witness :
  let out :=
    AiService.validate "" STRATEGY_STAGES.STAGE_1 (num 50) (num 3000)
      (Sample.order "BUY" "100" "20") in
  exists before text,
    Server.afterDecision (fun _ => Server.Thrown "51008") "" (fun _ => "")
      (fun s => s) out []
    = (before
       ++ [Server.Call (Server.executeOrder out);
           Server.addLog Server.ERROR (text ++ "51008")])%list.
Proof.
  destruct (call_is_followed_by_its_report (fun _ => Server.Thrown "51008") ""
              (fun _ => "") (fun s => s) unit
              (Server.Returned None) (Server.Returned None)
              (fun _ _ => Server.Threw "") true 0 0
              (AiService.validate "" STRATEGY_STAGES.STAGE_1 (num 50) (num 3000)
                 (Sample.order "BUY" "100" "20")) [])
    as (H & _).
  destruct (H (Server.executeOrder
                 (AiService.validate "" STRATEGY_STAGES.STAGE_1 (num 50) (num 3000)
                    (Sample.order "BUY" "100" "20"))))
    as (before & entry & E & _ & text & ->).
  - vm_compute. left. reflexivity.
  - exists before, text. exact E.
Defined.

(* ------------------------------------------------------------------ *)
(** * The log and the configuration *)

(** X20.  [addLog] keeps the newest entries: after it the list is the old
    list and the new entry without their oldest entries, it holds at most
    200 entries (one more than before when these were fewer than 200), and
    it ends with the new entry. *)
Theorem addLog_keeps_newest {A : Type} (logs : list A) (log : A) :
  (exists dropped, (logs ++ [log])%list = (dropped ++ Logs.addLog logs log)%list) /\
  List.length (Logs.addLog logs log) = Nat.min 200 (S (List.length logs)) /\
  (exists kept, Logs.addLog logs log = (kept ++ [log])%list).
Proof.
  unfold Logs.addLog. cbv zeta.
  assert (Hl : List.length (logs ++ [log])%list = S (List.length logs))
    by (rewrite length_app; simpl; lia).
  destruct (200 <? List.length (logs ++ [log])%list)%nat eqn:E.
  - apply Nat.ltb_lt in E. unfold slice_last. split; [| split].
    + exists (firstn (List.length (logs ++ [log])%list - 200) (logs ++ [log])%list).
      symmetry. apply firstn_skipn.
    + rewrite length_skipn. lia.
    + rewrite skipn_app.
      replace (List.length (logs ++ [log])%list - 200 - List.length logs)%nat
        with 0%nat by lia.
      eexists. reflexivity.
  - apply Nat.ltb_ge in E. split; [| split].
    + exists []. reflexivity.
    + lia.
    + exists logs. reflexivity.
Qed.




(* ------------------------------------------------------------------ *)
(** * The margin *)

Section Margin.

Variable SAFETY : number.
Variable stage : Stage.t.
Variable availableEquity : number.
Variable td : TD.t.

Let sz := sizing SAFETY stage availableEquity td.

(** X23.  With a finite available equity that is not negative and a safety
    factor of at least 0.9, the final margin never compares above the safe
    margin (available equity times the safety factor), whatever the answer
    and the stage are, the rescue included: the rescue, which is tested
    with the factor 0.9, replaces the margin by 100 / leverage only when
    that is less than nine tenths of the available equity.  A rescue sets
    the position value to 100 and takes place only with a leverage above
    zero and a confidence of at least 40. *)
Theorem margin_within_safety (s a : Q) :
  SAFETY = Fin s -> 9 # 10 <= s ->
  availableEquity = Fin a -> 0 <= a ->
  (maxSafeMargin sz <? finalMargin sz)%js = false /\
  (rescued sz = true ->
   positionValue sz = MIN_OPEN_VALUE /\
   finalMargin sz = (MIN_OPEN_VALUE / safeLeverage sz)%js /\
   (safeLeverage sz >? num 0)%js = true /\
   (confidence sz >=? num 40)%js = true).
Proof.
  intros HS Hs Ha Ha0.
  destruct (sizing_equations SAFETY stage availableEquity td) as (_ & Em & Er & Ef & Ep).
  fold sz in Em, Er, Ef, Ep.
  rewrite Ha, HS, mul_Fin in Em.
  destruct (rescued sz) eqn:Eresc.
  - symmetry in Er. apply andb_true_iff in Er. destruct Er as (Er & Hconf).
    apply andb_true_iff in Er. destruct Er as (_ & Er).
    rewrite Ha in Er. unfold dec, MIN_OPEN_VALUE, num, of_Z in Er.
    rewrite mul_Fin in Er.
    assert (Hl : (safeLeverage sz >? num 0)%js = true
                 /\ (Fin (a * s) <? MIN_OPEN_VALUE / safeLeverage sz)%js = false).
    { unfold MIN_OPEN_VALUE, gt, num, of_Z in *.
      destruct (safeLeverage sz) as [| sg | l].
      - discriminate Er.
      - cbn [mul] in Er. destruct (Qeq_bool (a * (9 # 10)) 0); [discriminate Er |].
        assert (E : Qltb (a * (9 # 10)) 0 = false) by (apply Qltb_false; lra).
        rewrite E in Er. destruct sg; [discriminate Er |].
        split; [reflexivity |]. cbn [div lt]. apply Qltb_false. nra.
      - rewrite mul_Fin in Er. apply lt_Fin in Er. change (inject_Z 100) with 100 in Er.
        assert (Hl0 : 0 < l) by nra.
        assert (Hnz : ~ l == 0) by (intros H; lra).
        split; [apply lt_Fin; change (inject_Z 0) with 0; exact Hl0 |].
        rewrite (div_Fin _ _ Hnz). apply lt_Fin_false.
        change (inject_Z 100) with 100.
        apply Qle_shift_div_r; [exact Hl0 |]. nra. }
    destruct Hl as (Hl & Hcap).
    split; [rewrite Em, Ef; exact Hcap |].
    intros _. split; [exact Ep |]. split; [exact Ef |]. split; [exact Hl | exact Hconf].
  - split; [| discriminate].
    rewrite Ef, Em.
    generalize (targetMargin sz). intros t.
    unfold Math_min. destruct t as [| sg | t]; try reflexivity.
    + destruct (Fin (a * s) <? Inf sg)%js eqn:E; [| exact E].
      apply lt_Fin_false. apply Qle_refl.
    + destruct (Fin (a * s) <? Fin t)%js eqn:E; [| exact E].
      apply lt_Fin_false. apply Qle_refl.
Qed.

End Margin.

(** The theorem at an order that is rescued. *)
Lemma margin_within_safety_witness :
  let sz :=
    AiService.sizing STRATEGY_STAGES.STAGE_1 (num 10)
      (Sample.td (VStr "buy") (VStr "50") (VStr "20") Undefined Undefined) in
  (maxSafeMargin sz <? finalMargin sz)%js = false /\
  positionValue sz = MIN_OPEN_VALUE /\
  (safeLeverage sz >? num 0)%js = true.
Proof.
  destruct (margin_within_safety AiService.SAFETY STRATEGY_STAGES.STAGE_1 (num 10)
              (Sample.td (VStr "buy") (VStr "50") (VStr "20") Undefined Undefined)
              (90 # 100) 10)
    as (Hcap & Hresc);
    try reflexivity; try (vm_compute; discriminate).
  destruct (Hresc eq_refl) as (Hv & _ & Hl & _).
  split; [exact Hcap |]. split; [exact Hv | exact Hl].
Defined.

(* ------------------------------------------------------------------ *)
(** * Numbers written in decimal *)

Lemma of_uint_cons (d : Decimal.uint) :
  d <> Decimal.Nil ->
  Pos.of_uint d
  = (Pos.of_uint (Unsigned.tl d) + Unsigned.hd d * 10 ^ Unsigned.usize (Unsigned.tl d))%N.
Proof.
  intros H. rewrite !Unsigned.of_uint_alt.
  destruct d; try congruence; unfold Decimal.rev;
    cbn [Decimal.revapp Unsigned.tl Unsigned.hd];
    rewrite Unsigned.of_lu_revapp; cbn [Unsigned.of_lu];
    replace (10 * 0)%N with 0%N by reflexivity; rewrite ?N.add_0_r; reflexivity.
Qed.

Lemma read_digits_cons (c : ascii) (s : string) (acc : Z) (n : nat) :
  is_digit c = true ->
  read_digits (String c s) acc n = read_digits s (10 * acc + digit_val c) (S n).
Proof. intros H. simpl. rewrite H. reflexivity. Qed.

Lemma read_uint (u : Decimal.uint) (rest : string) (acc : Z) (n : nat) :
  read_digits (NilEmpty.string_of_uint u ++ rest) acc n
  = read_digits rest
      (acc * 10 ^ Z.of_N (Unsigned.usize u) + Z.of_N (Pos.of_uint u))
      (n + N.to_nat (Unsigned.usize u)).
Proof.
  revert acc n. induction u; intros acc n;
    [ simpl; f_equal; lia | .. ];
    (cbn [NilEmpty.string_of_uint String.append];
     rewrite read_digits_cons by reflexivity;
     rewrite IHu;
     match goal with
     | |- context [Pos.of_uint (?f u)] =>
         rewrite (of_uint_cons (f u)) by discriminate
     end;
     cbn [Unsigned.tl Unsigned.hd Unsigned.usize];
     rewrite N2Z.inj_add, N2Z.inj_mul, N2Z.inj_pow, N2Z.inj_succ;
     rewrite Z.pow_succ_r by lia;
     f_equal; [ | lia ];
     unfold digit_val; change (Z.of_N 10) with 10%Z;
     match goal with
     | |- context [(Z.of_nat (nat_of_ascii ?c) - 48)%Z] =>
         let v := eval vm_compute in (Z.of_nat (nat_of_ascii c) - 48)%Z in
         change (Z.of_nat (nat_of_ascii c) - 48)%Z with v
     end;
     match goal with
     | |- context [(Z.of_N ?k * 10 ^ _)%Z] =>
         let v := eval vm_compute in (Z.of_N k) in
         change (Z.of_N k) with v
     end;
     ring).
Qed.

Lemma string_of_Z_uint (z : Z) :
  (0 <= z)%Z ->
  exists d,
    string_of_Z z = NilEmpty.string_of_uint d /\
    Z.of_N (Pos.of_uint d) = z /\ d <> Decimal.Nil.
Proof.
  intros H. unfold string_of_Z. destruct z as [| p | p]; [| | lia].
  - exists (Decimal.D0 Decimal.Nil). repeat split. discriminate.
  - exists (Pos.to_uint p). cbn [Z.to_int NilZero.string_of_int].
    pose proof (Unsigned.to_uint_nonnil p) as Hn.
    split; [| split; [rewrite Unsigned.of_to; reflexivity | exact Hn]].
    unfold NilZero.string_of_uint. destruct (Pos.to_uint p); congruence.
Qed.

Lemma usize_pos (d : Decimal.uint) :
  d <> Decimal.Nil -> (1 <= N.to_nat (Unsigned.usize d))%nat.
Proof. destruct d; [congruence | ..]; intros _; cbn [Unsigned.usize]; lia. Qed.

Lemma first_char_digit (d : Decimal.uint) :
  d <> Decimal.Nil ->
  exists c s, NilEmpty.string_of_uint d = String c s /\ is_digit c = true.
Proof.
  destruct d; [congruence | ..]; intros _; eexists _, _; split; reflexivity.
Qed.

(** Reading the decimal numeral of a number that is not negative. *)
Lemma read_string_of_Z (z : Z) :
  (0 <= z)%Z ->
  exists len,
    (1 <= len)%nat /\
    (exists c s, string_of_Z z = String c s /\ is_digit c = true) /\
    forall rest acc n,
      read_digits (string_of_Z z ++ rest) acc n
      = read_digits rest (acc * 10 ^ Z.of_nat len + z) (n + len).
Proof.
  intros H. destruct (string_of_Z_uint z H) as (d & E & V & Hn).
  exists (N.to_nat (Unsigned.usize d)). split; [apply usize_pos; exact Hn |].
  split; [rewrite E; apply first_char_digit; exact Hn |].
  intros rest acc n. rewrite E, read_uint, V, N_nat_Z. reflexivity.
Qed.

Lemma parseFloat_digit_start (c : ascii) (s : string) :
  is_digit c = true ->
  parseFloat (String c s)
  = match parse_unsigned (String c s) with Some q => Fin q | None => NaN end.
Proof.
  destruct c as [b0 b1 b2 b3 b4 b5 b6 b7].
  destruct b0, b1, b2, b3, b4, b5, b6, b7; intros H;
    try discriminate H; reflexivity.
Qed.

Lemma pad2_digits (r : Z) :
  (0 <= r < 100)%Z ->
  exists a b,
    pad_left 2 (string_of_Z r) = String a (String b EmptyString) /\
    is_digit a = true /\ is_digit b = true /\
    (10 * digit_val a + digit_val b = r)%Z.
Proof.
  intros H. assert (E : r = Z.of_nat (Z.to_nat r)) by lia.
  assert (Hm : (Z.to_nat r < 100)%nat) by lia.
  rewrite E. clear E H. generalize dependent (Z.to_nat r). intros m Hm.
  do 100 (destruct m as [| m];
          [eexists _, _; split; [vm_compute; reflexivity |]; repeat split |]).
  lia.
Qed.

Lemma Qfloor_half (K : Z) (x : Q) :
  x == inject_Z K + (1 # 2) -> Qfloor x = K.
Proof.
  intros Hx. pose proof (Qfloor_le x) as H1. pose proof (Qlt_floor x) as H2.
  assert (A : inject_Z (Qfloor x) < inject_Z (K + 1)).
  { rewrite inject_Z_plus. change (inject_Z 1) with 1. lra. }
  assert (B : inject_Z K < inject_Z (Qfloor x + 1)).
  { rewrite inject_Z_plus in *. change (inject_Z 1) with 1 in *. lra. }
  rewrite <- Zlt_Qlt in A, B. lia.
Qed.

Lemma toFixed2_hundredths (K : Z) :
  (0 <= K < 10 ^ 23)%Z ->
  toFixed2 (Fin (inject_Z K / inject_Z 100))
  = string_of_Z (K / 100) ++ "." ++ pad_left 2 (string_of_Z (K mod 100)).
Proof.
  intros H. unfold toFixed2.
  assert (HK : 0 <= inject_Z K) by (change 0 with (inject_Z 0); rewrite <- Zle_Qle; lia).
  assert (HK2 : inject_Z K < inject_Z (10 ^ 23)) by (rewrite <- Zlt_Qlt; lia).
  assert (Hq : 0 <= inject_Z K / inject_Z 100) by (apply Qle_shift_div_l; [reflexivity | lra]).
  assert (Habs : Qabs (inject_Z K / inject_Z 100) == inject_Z K / inject_Z 100)
    by (apply Qabs_pos; exact Hq).
  assert (E1 : Qle_bool (inject_Z (10 ^ 21)) (Qabs (inject_Z K / inject_Z 100)) = false).
  { apply not_true_iff_false. intros E. apply Qle_bool_iff in E.
    assert (Hlt : inject_Z K / inject_Z 100 < inject_Z (10 ^ 21)).
    { apply Qlt_shift_div_r; [reflexivity |].
      assert (inject_Z (10 ^ 21) * inject_Z 100 == inject_Z (10 ^ 23)) by reflexivity.
      lra. }
    lra. }
  rewrite E1.
  assert (E2 : Qfloor (Qabs (inject_Z K / inject_Z 100) * 100 + (1 # 2)) = K).
  { apply Qfloor_half. rewrite Habs. change (inject_Z 100) with 100. field. }
  rewrite E2.
  assert (E3 : Qltb (inject_Z K / inject_Z 100) 0 = false) by (apply Qltb_false; exact Hq).
  rewrite E3. reflexivity.
Qed.

Lemma parse_hundredths (K : Z) :
  (0 <= K)%Z ->
  exists q',
    parseFloat (string_of_Z (K / 100) ++ "." ++ pad_left 2 (string_of_Z (K mod 100)))
    = Fin q' /\ q' == inject_Z K / inject_Z 100.
Proof.
  intros H.
  assert (Hi : (0 <= K / 100)%Z) by (apply Z.div_pos; lia).
  assert (Hr : (0 <= K mod 100 < 100)%Z) by (apply Z.mod_pos_bound; lia).
  destruct (read_string_of_Z (K / 100) Hi) as (len & Hlen & (c & s & Es & Hc) & Hread).
  destruct (pad2_digits (K mod 100) Hr) as (a & b & Epad & Ha & Hb & Hab).
  rewrite Epad.
  assert (Estart : string_of_Z (K / 100) ++ "." ++ String a (String b "")
                   = String c (s ++ "." ++ String a (String b ""))).
  { rewrite Es. reflexivity. }
  rewrite Estart, (parseFloat_digit_start _ _ Hc), <- Estart.
  unfold parse_unsigned. rewrite Hread.
  cbn [String.append]. cbn [read_digits].
  change (is_digit ".") with false. cbv iota.
  rewrite (read_digits_cons a _ _ _ Ha), (read_digits_cons b _ _ _ Hb).
  cbn [read_digits].
  replace (S (S (0 + len)) - (0 + len))%nat with 2%nat by lia.
  replace (0 + len + 2 =? 0)%nat with false by (symmetry; apply Nat.eqb_neq; lia).
  eexists. split; [reflexivity |].
  change (pow10 (parse_exponent "")) with (inject_Z 1).
  change (inject_Z (10 ^ Z.of_nat 2)) with (inject_Z 100).
  replace (10 * (10 * (0 * 10 ^ Z.of_nat len + K / 100) + digit_val a) + digit_val b)%Z
    with K by (pose proof (Z.div_mod K 100); lia).
  change (inject_Z 1) with 1. field.
Qed.

Lemma numContracts_hundredths (positionValue currentPrice : number) (q : Q) :
  numContracts positionValue currentPrice = Fin q ->
  exists K, q = inject_Z K / inject_Z 100.
Proof.
  unfold numContracts.
  destruct (positionValue / (CONTRACT_VAL_ETH * currentPrice) * num 100)%js as [| sg | x];
    cbn [Math_floor]; try discriminate.
  assert (H100 : ~ inject_Z 100 == 0) by discriminate.
  unfold num, of_Z. rewrite (div_Fin _ _ H100). intros [= <-]. eauto.
Qed.

(** X24.  The size string of an order denotes the contract count: a count
    that is finite, not negative and below 1e21 is printed by [toFixed(2)]
    as a text that [parseFloat] reads back as the same number. *)
Theorem size_reads_back (positionValue currentPrice : number) (q : Q) :
  numContracts positionValue currentPrice = Fin q ->
  0 <= q -> q < inject_Z (10 ^ 21) ->
  exists q',
    parseFloat (toFixed2 (numContracts positionValue currentPrice)) = Fin q' /\
    q' == q.
Proof.
  intros H H0 H1. destruct (numContracts_hundredths _ _ _ H) as (K & ->).
  rewrite H.
  assert (E : inject_Z K == inject_Z K / inject_Z 100 * 100)
    by (change (inject_Z 100) with 100; field).
  assert (A : inject_Z 0 <= inject_Z K) by (change (inject_Z 0) with 0; lra).
  assert (B : inject_Z K < inject_Z (10 ^ 23)).
  { assert (inject_Z (10 ^ 21) * 100 == inject_Z (10 ^ 23)) by reflexivity. lra. }
  rewrite <- Zle_Qle in A. rewrite <- Zlt_Qlt in B.
  rewrite toFixed2_hundredths by lia.
  apply parse_hundredths. lia.
Qed.

(** The theorem at the contract count of the sizing example. *)
Lemma size_reads_back_witness :
  exists q',
    parseFloat (toFixed2 (numContracts (num 800) (num 3000))) = Fin q' /\
    q' == 266 # 100.
Proof.
  destruct (size_reads_back (num 800) (num 3000)
              (inject_Z 266 / inject_Z 100)) as (q' & Hq & E).
  - vm_compute. reflexivity.
  - vm_compute. discriminate.
  - vm_compute. reflexivity.
  - exists q'. split; [exact Hq |]. rewrite E. reflexivity.
Defined.

Lemma parse_integer_text (z : Z) (suffix : string) :
  (0 <= z)%Z -> suffix = "" \/ suffix = "%" ->
  exists q, parseFloat (string_of_Z z ++ suffix) = Fin q /\ q == inject_Z z.
Proof.
  intros H Hs.
  destruct (read_string_of_Z z H) as (len & Hlen & (c & s & Es & Hc) & Hread).
  assert (Estart : string_of_Z z ++ suffix = String c (s ++ suffix))
    by (rewrite Es; reflexivity).
  rewrite Estart, (parseFloat_digit_start _ _ Hc), <- Estart.
  unfold parse_unsigned. rewrite Hread.
  destruct Hs as [-> | ->]; cbn [read_digits];
    try (change (is_digit "%") with false; cbv iota);
    replace (0 + len + 0 =? 0)%nat with false by (symmetry; apply Nat.eqb_neq; lia);
    (eexists; split; [reflexivity |]);
    [change (pow10 (parse_exponent "")) with (inject_Z 1)
    |change (pow10 (parse_exponent "%")) with (inject_Z 1)];
    change (inject_Z (10 ^ Z.of_nat 0)) with (inject_Z 1);
    replace (0 * 10 ^ Z.of_nat len + z)%Z with z by lia;
    change (inject_Z 1) with 1; field.
Qed.

Section Percent.

Variable SAFETY : number.
Variable stage : Stage.t.
Variable availableEquity : number.
Variable td : TD.t.

(** X25.  A confidence written as a whole number from 1 to 2^53, the range
    in which every whole number is a double, with or without a percent sign
    as in the answer schema, is the confidence that the sizer uses. *)
Theorem whole_confidence_is_used (z : Z) (suffix : string) :
  (1 <= z <= 2 ^ 53)%Z -> suffix = "" \/ suffix = "%" ->
  TD.confidence td = VStr (string_of_Z z ++ suffix) ->
  exists c,
    confidence (sizing SAFETY stage availableEquity td) = Fin c /\
    c == inject_Z z.
Proof.
  intros (Hz & _) Hs Htd.
  destruct (parse_integer_text z suffix) as (q & Hq & E); [lia | exact Hs |].
  exists q. split; [| exact E].
  unfold sizing. cbn [confidence]. unfold parseFloatV. rewrite Htd.
  cbn [ToString]. rewrite Hq. unfold or_else. cbn [truthy].
  assert (Hnz : Qeq_bool q 0 = false).
  { apply Qeq_bool_false. rewrite E. intros H.
    assert (A : inject_Z 1 <= inject_Z z) by (rewrite <- Zle_Qle; exact Hz).
    change (inject_Z 1) with 1 in A. lra. }
  rewrite Hnz. reflexivity.
Qed.

End Percent.

(** The theorem at the confidence "85%". *)
Lemma whole_confidence_is_used_witness :
  exists c,
    confidence (AiService.sizing STRATEGY_STAGES.STAGE_1 (num 50)
                  (Sample.td (VStr "BUY") (VStr "85%") (VStr "20") Undefined Undefined))
    = Fin c /\ c == 85.
Proof.
  apply (whole_confidence_is_used AiService.SAFETY STRATEGY_STAGES.STAGE_1 (num 50)
           (Sample.td (VStr "BUY") (VStr "85%") (VStr "20") Undefined Undefined)
           85 "%").
  - lia.
  - right. reflexivity.
  - reflexivity.
Defined.

(* ------------------------------------------------------------------ *)
(** * Sizes of the decisions that open nothing *)

(** X26.  Every decision that leaves the validator without being a BUY or
    a SELL carries the size "0": the other tokens, the downgraded orders
    and the fallback of the error handler alike. *)
Theorem only_orders_have_a_size (SAFETY : number) (note_small : number -> string)
    (note_micro : option string) (message : string) (stage : Stage.t)
    (availableEquity currentPrice : number) (raw : Decision.t) :
  let out :=
    validate SAFETY note_small note_micro message stage availableEquity
      currentPrice raw in
  opens out = false -> Decision.size out = VStr "0".
Proof.
  unfold validate, postProcess.
  destruct (Decision.trading_decision raw) as [td |]; [| reflexivity].
  destruct (TD.action td) as [| | tok | x]; try reflexivity.
  fold_order_test tok raw.
  destruct (is_order (toUpperCase tok)) eqn:Eord.
  - destruct (_ <? _)%js; [reflexivity |].
    destruct (_ <? _)%js; [destruct note_micro; reflexivity |].
    cbv zeta. intros H. exfalso.
    unfold opens in H. simpl in H. unfold is_order in Eord.
    rewrite Eord in H. discriminate H.
  - reflexivity.
Qed.

(** The theorem at an order that is downgraded. *)
Lemma only_orders_have_a_size_witness :
  Decision.size
    (AiService.validate "" STRATEGY_STAGES.STAGE_1 (num 5) (num 3000)
       (Sample.order "sell" "50" "20")) = VStr "0".
Proof.
  apply (only_orders_have_a_size AiService.SAFETY AiService.note_small
           AiService.note_micro "" STRATEGY_STAGES.STAGE_1 (num 5) (num 3000)
           (Sample.order "sell" "50" "20")).
  reflexivity.
Defined.
